(** * ConditionalLearnerForFiniteClass

    A shallow embedding of [src/models/conditional_classification_finite_class.py]:
    the constructor, [forward] and [evaluate] of the conditional learner.

    Tensors are lists ([vec] for a 1-D tensor, [matrix] for a list of rows),
    their elements are IEEE binary32 numbers taken from the standard library's
    [SpecFloat] (precision 24, exponent bound 128), Python integers are [Z],
    and every Python or torch exception is a value of [exn] carried by the
    [result] monad.  Two things outlive a call and are threaded through
    [forward] as an explicit [store]: the learner, whose [init_weight] tensor
    is handed to the selector trainer as it is when the data lives on the
    same device (so that an in-place update by the trainer reaches the
    learner), and the state of the torch random generator, which
    [random_split] and the trainer advance.  Where a float is compared with
    the number a formula denotes, the formula is read on the reals and the
    float through [F2R]. *)

From Stdlib Require Import Reals Lra.
From Stdlib Require Import ZArith List Bool Lia String.
From Stdlib Require Import Floats.SpecFloat.
From stdpp Require Import base list option.

Set Default Proof Using "Type".
Open Scope Z_scope.

(** ** Floating point numbers *)

(** [torch.float32], the default dtype of the tensors of this module. *)
Module F32.
Definition prec : Z := 24.
Definition emax : Z := 128.

Definition zero : spec_float := S754_zero false.
Definition one : spec_float := Eval cbv in SFone prec emax.

(** An integer tensor element converted to float32 (round to nearest even). *)
Definition of_int (n : Z) : spec_float := binary_normalize prec emax n 0 false.

(** A Python float (binary64) stored into a float32 tensor. *)
Definition of_f64 (x : spec_float) : spec_float :=
  match x with
  | S754_finite s m e => binary_round prec emax s m e
  | _ => x
  end.

Definition div : spec_float -> spec_float -> spec_float := SFdiv prec emax.
Definition mul : spec_float -> spec_float -> spec_float := SFmul prec emax.
Definition sqrt : spec_float -> spec_float := SFsqrt prec emax.

(** [x >= y]; false as soon as one side is NaN. *)
Definition ge (x y : spec_float) : bool := SFleb y x.
Definition lt (x y : spec_float) : bool := SFltb x y.

Definition is_nan (x : spec_float) : bool :=
  match x with S754_nan => true | _ => false end.
End F32.

(** Python's [float] (binary64). *)
Module F64.
Definition prec : Z := 53.
Definition emax : Z := 1024.

(** A Python integer read as an exact, not yet rounded, operand. *)
Definition exact (n : Z) : spec_float :=
  match n with
  | Z0 => S754_zero false
  | Zpos p => S754_finite false p 0
  | Zneg p => S754_finite true p 0
  end.

Definition div : spec_float -> spec_float -> spec_float := SFdiv prec emax.
End F64.

Abbreviation float32 := spec_float (only parsing).
Abbreviation float64 := spec_float (only parsing).
Abbreviation vec := (list spec_float) (only parsing).
Abbreviation matrix := (list (list spec_float)) (only parsing).

(** ** Exceptions *)

Inductive exn : Type :=
  | ZeroDivisionError (msg : string)
  | IndexError (msg : string)
  | ValueError (msg : string)
  | RuntimeError (msg : string).

Inductive result (A : Type) : Type :=
  | Ok (a : A)
  | Raise (e : exn).
Arguments Ok {A} a.
Arguments Raise {A} e.

#[global] Instance result_ret : MRet result := fun _ a => Ok a.
#[global] Instance result_bind : MBind result := fun _ _ f m =>
  match m with
  | Ok a => f a
  | Raise e => Raise e
  end.

(** ** Python and torch primitives used by the module *)

(** [a / b] on Python integers: the correctly rounded binary64 quotient.
    Python raises [OverflowError] where the quotient exceeds the binary64
    range; the module only divides 1, whose quotients never do. *)
Definition py_truediv (a b : Z) : result float64 :=
  if decide (b = 0) then Raise (ZeroDivisionError "division by zero")
  else Ok (F64.div (F64.exact a) (F64.exact b)).

(** [l[a:b]] on a Python list, with negative and out-of-range bounds. *)
Definition py_clip (len i : Z) : Z :=
  if decide (i < 0) then Z.max (i + len) 0 else Z.min i len.

Definition py_slice {A} (l : list A) (a b : Z) : list A :=
  let len := Z.of_nat (length l) in
  let lo := py_clip len a in
  let hi := py_clip len b in
  take (Z.to_nat (hi - lo)) (drop (Z.to_nat lo) l).

(** [torch.zeros(n)] and [torch.zeros([r, n])], on sizes that torch can
    represent and the machine can hold: a negative size is refused, a
    non-negative one is allocated.  Sizes that do not fit an int64, which
    torch refuses with a [TypeError], and allocations larger than the
    memory of the machine are outside this model. *)
Definition torch_zeros (n : Z) : result vec :=
  if decide (n < 0)
  then Raise (RuntimeError "Trying to create tensor with negative dimension")
  else Ok (replicate (Z.to_nat n) F32.zero).

Definition torch_zeros2 (r : nat) (n : Z) : result matrix :=
  row ← torch_zeros n; Ok (replicate r row).

(** [t[i]] for a non-negative index [i] on the first dimension. *)
Definition getitem {A} (t : list A) (i : nat) : result A :=
  match t !! i with
  | Some x => Ok x
  | None => Raise (IndexError "index out of range")
  end.

(** [t[i] = x] on a 1-D tensor. *)
Definition setitem {A} (t : list A) (i : nat) (x : A) : result (list A) :=
  if decide (i < length t)%nat then Ok (<[i:=x]> t)
  else Raise (IndexError "index out of range").

(** The source of a row assignment, expanded to the [n] elements of the
    destination row: a one-element source is broadcast, any other length
    mismatch is refused. *)
Definition expand_row (n : nat) (row : vec) : result vec :=
  if decide (length row = n) then Ok row
  else match row with
       | [x] => Ok (replicate n x)
       | _ => Raise (RuntimeError "shape mismatch")
       end.

(** [t[i, ...] = row]: the row is copied into place. *)
Definition setrow (t : matrix) (i : nat) (row : vec) : result matrix :=
  match t !! i with
  | None => Raise (IndexError "index out of range")
  | Some old => r ← expand_row (length old) row; Ok (<[i:=r]> t)
  end.

(** Broadcasting of a binary operation along the first dimension. *)
Definition broadcast {A B C} (f : A -> B -> C) (xs : list A) (ys : list B)
  : result (list C) :=
  if decide (length xs = length ys) then Ok (zip_with f xs ys)
  else match xs, ys with
       | [x], _ => Ok (map (f x) ys)
       | _, [y] => Ok (map (fun x => f x y) xs)
       | _, _ => Raise (RuntimeError "The size of tensor a must match the size of tensor b")
       end.

(** The element a list contributes at position [k] of a broadcast result:
    its only element when it has one, its element at [k] otherwise. *)
Definition broadcast_lookup {A} (l : list A) (k : nat) : option A :=
  match l with
  | [x] => Some x
  | _ => l !! k
  end.

(** [row.sum()] of a boolean row: the number of true entries, an int64. *)
Definition count_true (row : list bool) : Z :=
  Z.of_nat (length (filter (fun b => b = true) row)).

(** [torch.min(t, dim=0)] on a 1-D float tensor, as the CPU kernel scans it:
    the running minimum moves to position [i] when [t[i] >= min] fails, and
    the scan stops at a NaN. *)
Fixpoint min_scan (min_number : float32) (index i : nat) (t : vec)
  : float32 * nat :=
  match t with
  | [] => (min_number, index)
  | value :: t' =>
      if negb (F32.ge value min_number)
      then if F32.is_nan value then (value, i)
           else min_scan value i (S i) t'
      else min_scan min_number index (S i) t'
  end.

Definition torch_min (t : vec) : result (float32 * nat) :=
  match t with
  | [] => Raise (IndexError "min(): Expected reduction dim 0 to have non-zero size.")
  | x :: _ => Ok (min_scan x 0 0 t)
  end.

(** ** The learner *)

(** [torch.device]. *)
Inductive device : Type :=
  | cpu
  | cuda (index : nat).

#[global] Instance device_eq_dec : EqDecision device.
Proof. solve_decision. Defined.

(** The attributes set by the constructor.  [init_weight] is a tensor the
    learner keeps: its content, and the device it was created on. *)
Record learner : Type := {
  header : string;
  dim_sample : Z;
  num_iter : Z;
  batch_size : Z;
  sample_size_psgd : Z;
  lr_beta : float32;
  init_weight : vec;
  init_weight_device : device
}.

(** The learner after an in-place update of its [init_weight] tensor. *)
Definition set_init_weight (self : learner) (w : vec) : learner :=
  {| header := header self;
     dim_sample := dim_sample self;
     num_iter := num_iter self;
     batch_size := batch_size self;
     sample_size_psgd := sample_size_psgd self;
     lr_beta := lr_beta self;
     init_weight := w;
     init_weight_device := init_weight_device self |}.

(** [ConditionalLearnerForFiniteClass.__init__]; [default_device] is the
    device on which torch creates a tensor when none is named. *)
Definition __init__ (default_device : device) (prev_header : string)
    (dim_sample num_iter sample_size_psgd : Z)
    (lr_coeff : float64) (batch_size : Z) : result learner :=
  q ← py_truediv 1 (num_iter * dim_sample);
  let lr_beta := F32.mul (F32.of_f64 lr_coeff) (F32.sqrt (F32.of_f64 q)) in
  w ← torch_zeros dim_sample;
  w ← setitem w 0 F32.one;
  Ok {| header := prev_header ++ " conditional learner -";
        dim_sample := dim_sample;
        num_iter := num_iter;
        batch_size := batch_size;
        sample_size_psgd := sample_size_psgd;
        lr_beta := lr_beta;
        init_weight := w;
        init_weight_device := default_device |}.

(** The arguments [forward] hands to the [SelectorPerceptron] constructor. *)
Record SelectorPerceptron : Type := {
  sp_prev_header : string;
  sp_dim_sample : Z;
  sp_cluster_id : Z;
  sp_cluster_size : Z;
  sp_num_iter : Z;
  sp_lr_beta : float32;
  sp_batch_size : Z
}.

(** [torch.utils.data.Subset]: a dataset and the indices kept from it. *)
Record Subset (dataset : Type) : Type := {
  sub_dataset : dataset;
  sub_indices : list nat
}.
Arguments sub_dataset {dataset} s.
Arguments sub_indices {dataset} s.

(** [len(subset)]. *)
Definition subset_len {dataset} (s : Subset dataset) : nat := length (sub_indices s).

(** What a call changes besides its local variables: the learner, whose
    [init_weight] tensor can be updated in place by whoever holds it, and
    the state of the torch random generator. *)
Record store (rng : Type) : Type := {
  this : learner;
  generator : rng
}.
Arguments Build_store {rng} this generator.
Arguments this {rng} s.
Arguments generator {rng} s.

(** ** The order of float32 values

    [SFcompare] orders the numbers that are not NaN; [SFkey] maps them to
    integer triples whose lexicographic order is that order. *)

Definition not_nan (x : spec_float) : Prop := x <> S754_nan.

(** A zero or a finite number: neither NaN nor an infinity. *)
Definition is_finite (x : spec_float) : Prop :=
  match x with
  | S754_zero _ | S754_finite _ _ _ => True
  | _ => False
  end.

(** A zero or a number of sign [s] with at most 24 digits and an exponent
    between [lo] and [hi]. *)
Definition bounded_float (s : bool) (lo hi : Z) (x : spec_float) : Prop :=
  match x with
  | S754_zero s' => s' = s
  | S754_finite s' m e => s' = s /\ Zdigits2 (Z.pos m) <= 24 /\ lo <= e <= hi
  | _ => False
  end.

(** A positive number with a full mantissa of 24 digits and an exponent
    between [lo] and [hi]. *)
Definition normal_float (lo hi : Z) (x : spec_float) : Prop :=
  match x with
  | S754_finite false m e => 2 ^ 23 <= Z.pos m < 2 ^ 24 /\ lo <= e <= hi
  | _ => False
  end.

(** The mantissa rounding to float32 keeps of [m] at exponent [e], before a
    carry into a 25th digit is renormalised: [m] cut to 24 digits, the last
    one rounded to nearest even from the location [l] of the exact value. *)
Definition round_mantissa (m e : Z) (l : location) : Z :=
  let mrs := (shr_fexp 24 128 m e l).1 in
  round_nearest_even (shr_m mrs) (loc_of_shr_record mrs).

Definition SFkey (x : spec_float) : Z * Z * Z :=
  match x with
  | S754_zero _ => (0, 0, 0)
  | S754_infinity s => (if s then -2 else 2, 0, 0)
  | S754_finite s m e => if s then (-1, - e, - Z.pos m) else (1, e, Z.pos m)
  | S754_nan => (0, 0, 0)
  end.

Definition key_lt (a b : Z * Z * Z) : Prop :=
  a.1.1 < b.1.1 \/ (a.1.1 = b.1.1 /\ (a.1.2 < b.1.2 \/ (a.1.2 = b.1.2 /\ a.2 < b.2))).

(** The one-hot vector of dimension [n]: 1 at index 0 and 0 elsewhere. *)
Definition one_hot (n : nat) : vec := <[0%nat:=F32.one]> (replicate n F32.zero).

(** ** The real number a float stands for *)

Definition bpow (e : Z) : R := powerRZ 2 e.

(** The value of a finite number; 0 for the zeros, and for the infinities
    and NaN, which stand for no real number. *)
Definition F2R (x : spec_float) : R :=
  match x with
  | S754_finite s m e => ((if s then -1 else 1) * (IZR (Z.pos m) * bpow e))%R
  | _ => 0%R
  end.

(** ** A concrete set of collaborators

    Small instances of what the module imports, on which the definitions
    above can be run: the raw data is already a list of labelled samples, a
    cluster is a dense matrix, [Classify] thresholds the dot product at 0,
    the generator is a counter and the permutation it draws is the identity,
    and the trainer returns the initial weight for every classifier. *)
Module Demo.

Definition raw_data : Type := list (bool * list spec_float).
Definition sparse_tensor : Type := list (list spec_float).
Definition to_dense (t : sparse_tensor) : matrix := t.
Definition size0 (t : sparse_tensor) : Z := Z.of_nat (length t).

Definition dataset : Type := list (bool * list spec_float).
Definition TransformedDataset (data : raw_data) (_ : option sparse_tensor) : dataset := data.
Definition ds_len (ds : dataset) : nat := length ds.
Definition ds_getitem_all (ds : dataset) : list (bool * list spec_float) := ds.

Definition dot (w x : vec) : float32 :=
  fold_left (fun acc p => SFadd F32.prec F32.emax acc (F32.mul p.1 p.2)) (zip w x) F32.zero.
Definition decide_sample (w x : vec) : bool := F32.lt F32.zero (dot w x).

Definition rng : Type := nat.
Definition randperm (n : nat) (g : rng) : list nat * rng := (seq 0 n, S g).

Definition data_device (data : raw_data) : device := cpu.

(** A trainer that takes no gradient step: every selector is the initial
    weight, cut or padded to [dim_sample]; the initial weight is left as it
    was. *)
Definition trainer (cfg : SelectorPerceptron) (tr va : Subset dataset) (w : vec) (g : rng)
  : result (matrix * list spec_float * rng) :=
  Ok (replicate (Z.to_nat (sp_cluster_size cfg))
                (resize (Z.to_nat (sp_dim_sample cfg)) F32.zero w),
      w, S g).

(** A trainer that refuses any initial weight that does not start with 1. *)
Definition strict_trainer (cfg : SelectorPerceptron) (tr va : Subset dataset) (w : vec)
    (g : rng) : result (matrix * list spec_float * rng) :=
  match w with
  | x :: _ => if SFeqb x F32.one then trainer cfg tr va w g
              else Raise (ValueError "unexpected initial weight")
  | [] => Raise (ValueError "unexpected initial weight")
  end.

(** A trainer that takes its steps in the tensor it is given as initial
    weight and leaves the zero vector in it. *)
Definition zeroing_trainer (cfg : SelectorPerceptron) (tr va : Subset dataset) (w : vec)
    (g : rng) : result (matrix * list spec_float * rng) :=
  Ok (replicate (Z.to_nat (sp_cluster_size cfg))
                (resize (Z.to_nat (sp_dim_sample cfg)) F32.zero w),
      replicate (length w) F32.zero, S g).

(** The same trainer, refusing any initial weight that does not start
    with 1. *)
Definition strict_zeroing_trainer (cfg : SelectorPerceptron) (tr va : Subset dataset)
    (w : vec) (g : rng) : result (matrix * list spec_float * rng) :=
  match w with
  | x :: _ => if SFeqb x F32.one then zeroing_trainer cfg tr va w g
              else Raise (ValueError "unexpected initial weight")
  | [] => Raise (ValueError "unexpected initial weight")
  end.

Definition half : float64 := S754_finite false 4503599627370496 (-53).

(** The four samples of the specification's scenario. *)
Definition data : raw_data :=
  [(false, [F32.one; F32.zero]); (false, [F32.one; F32.zero]);
   (true, [F32.zero; F32.one]); (true, [F32.zero; F32.one])].

Definition clusters : list sparse_tensor :=
  [[[F32.one; F32.zero]; [F32.zero; F32.one]]; [[F32.zero; F32.one]]].

(** The learner [__init__] builds for [dim_sample = 2], [num_iter = 4],
    [sample_size_psgd = 2], [lr_coeff = 0.5] and [batch_size = 32]. *)
Definition self : learner :=
  {| header := " conditional learner -";
     dim_sample := 2;
     num_iter := 4;
     batch_size := 32;
     sample_size_psgd := 2;
     lr_beta := S754_finite false 11863283 (-26);
     init_weight := [F32.one; F32.zero];
     init_weight_device := cpu |}.

End Demo.

Section ConditionalLearner.

(** *** Collaborators

    What the module imports and does not define: the raw data tensor, the
    sparse classifier clusters, [TransformedDataset], [Classify], the
    selector trainer and the random generator behind [random_split]. *)

Variable raw_data : Type.
Variable data_device : raw_data -> device.
Variable sparse_tensor : Type.
Variable to_dense : sparse_tensor -> matrix.
Variable size0 : sparse_tensor -> Z.

(** A [TransformedDataset]: an opaque view with a length and a full slice
    [ds[:]], returned as one (label, features) pair per sample. *)
Variable dataset : Type.
Variable TransformedDataset : raw_data -> option sparse_tensor -> dataset.
Variable ds_len : dataset -> nat.
Variable ds_getitem_all : dataset -> list (bool * list spec_float).

(** The decision rule [Classify] applies to one weight vector and one
    sample; the rule itself belongs to the collaborator. *)
Variable decide_sample : vec -> vec -> bool.

(** The state of the torch random generator and [torch.randperm]. *)
Variable rng : Type.
Variable randperm : nat -> rng -> list nat * rng.

Abbreviation Subset := (Subset dataset) (only parsing).

(** One call of a [SelectorPerceptron] on its training and validation
    splits and the tensor it is given as initial weight.  It draws
    mini-batches from the generator; it returns one selector per classifier
    of the cluster, the content of the initial weight tensor when it returns
    (the trainer holds the tensor and can update it in place) and the
    generator. *)
Variable selector_learner_call :
  SelectorPerceptron -> Subset -> Subset -> vec -> rng ->
  result (matrix * list spec_float * rng).

Abbreviation store := (store rng) (only parsing).

(** Modelled from the spec: [Classify] of [utils.helpers], which is not part
    of the sources.  Given a matrix of weight vectors and the feature matrix
    [features.T], held here as the list of its columns (the samples), it
    returns the boolean prediction matrix [rows x samples]. *)
Definition Classify (classifier : matrix) (data : list (list spec_float))
  : list (list bool) :=
  map (fun w => map (decide_sample w) data) classifier.

(** [torch.utils.data.random_split(dataset, [a, b])].  Lengths that sum to 1
    are read as fractions of the dataset; the sum of the lengths must be the
    length of the dataset; the two subsets are consecutive slices of one
    random permutation. *)
Definition random_split (ds : dataset) (a b : Z) (g : rng)
  : result (Subset * Subset * rng) :=
  let len := Z.of_nat (ds_len ds) in
  '(a, b) ← (if decide (a + b = 1) then
               if decide (0 <= a <= 1 /\ 0 <= b <= 1) then Ok (len * a, len * b)
               else Raise (ValueError "Fraction is not between 0 and 1")
             else Ok (a, b));
  if decide (a + b = len) then
    let '(indices, g') := randperm (Z.to_nat (a + b)) g in
    Ok (Build_Subset _ ds (py_slice indices (a - a) a),
        Build_Subset _ ds (py_slice indices (a + b - b) (a + b)),
        g')
  else Raise (ValueError "Sum of input lengths does not equal the length of the input dataset!").

(** *** evaluate *)

(** [errors]: true where the row's classifier mispredicts the label. *)
Definition errors_of (eval_dataset : dataset) (classifiers : matrix)
  : list (list bool) :=
  let labels := (ds_getitem_all eval_dataset).*1 in
  let features := (ds_getitem_all eval_dataset).*2 in
  map (fun row => zip_with (fun p y => negb (eqb p y)) row labels)
      (Classify classifiers features).

(** [selections]: true where the row's selector claims the sample. *)
Definition selections_of (eval_dataset : dataset) (selectors : matrix)
  : list (list bool) :=
  Classify selectors (ds_getitem_all eval_dataset).*2.

(** Lines 136-138: the quotient of the two row sums, NaN replaced by 1. *)
Definition conditional_error_rate (eval_dataset : dataset)
    (classifiers selectors : matrix) : result vec :=
  let errors := errors_of eval_dataset classifiers in
  let selections := selections_of eval_dataset selectors in
  prod ← broadcast (zip_with andb) errors selections;
  rate ← broadcast F32.div
           (map (fun row => F32.of_int (count_true row)) prod)
           (map (fun row => F32.of_int (count_true row)) selections);
  Ok (map (fun r => if F32.is_nan r then F32.one else r) rate).

Definition evaluate (eval_dataset : dataset) (classifiers selectors : matrix)
  : result (vec * vec) :=
  rate ← conditional_error_rate eval_dataset classifiers selectors;
  '(min_error, min_index) ← torch_min rate;
  c ← getitem classifiers min_index;
  s ← getitem selectors min_index;
  Ok (c, s).

(** *** forward *)

(** The training call of one loop iteration (lines 83-102).
    [self.init_weight.to(data.device)] is the tensor [self.init_weight]
    itself when it already lives on [data.device], and a copy of it otherwise:
    in the first case what the trainer does to its initial weight is done to
    the learner's. *)
Definition train_selectors (data : raw_data) (i : nat)
    (classifiers : sparse_tensor) (e : store) : result (matrix * store) :=
  let self := this e in
  let dataset := TransformedDataset data (Some classifiers) in
  '(dataset_train, dataset_val, g) ←
    random_split dataset (sample_size_psgd self)
                 (Z.of_nat (ds_len dataset) - sample_size_psgd self) (generator e);
  let selector_learner :=
    {| sp_prev_header := header self ++ ">";
       sp_dim_sample := dim_sample self;
       sp_cluster_id := Z.of_nat i + 1;
       sp_cluster_size := size0 classifiers;
       sp_num_iter := num_iter self;
       sp_lr_beta := lr_beta self;
       sp_batch_size := batch_size self |} in
  '(selectors, w, g) ←
    selector_learner_call selector_learner dataset_train dataset_val
                          (init_weight self) g;
  let self := if decide (data_device data = init_weight_device self)
              then set_init_weight self w else self in
  Ok (selectors, Build_store self g).

(** The state the loop updates: the CandidateTable and the store. *)
Record loop_state : Type := {
  candidate_classifiers : matrix;
  candidate_selectors : matrix;
  env : store
}.

(** The body of the loop over the clusters, at index [i]. *)
Definition forward_body (data : raw_data)
    (eval_dataset : dataset) (i : nat) (classifiers : sparse_tensor)
    (st : loop_state) : result loop_state :=
  '(selectors, e) ← train_selectors data i classifiers (env st);
  '(c, s) ← evaluate eval_dataset (to_dense classifiers) selectors;
  cc ← setrow (candidate_classifiers st) i c;
  cs ← setrow (candidate_selectors st) i s;
  Ok {| candidate_classifiers := cc; candidate_selectors := cs; env := e |}.

(** [for i, classifiers in enumerate(clusters)], from index [i] on. *)
Fixpoint forward_loop (data : raw_data)
    (eval_dataset : dataset) (i : nat) (clusters : list sparse_tensor)
    (st : loop_state) : result loop_state :=
  match clusters with
  | [] => Ok st
  | classifiers :: rest =>
      st ← forward_body data eval_dataset i classifiers st;
      forward_loop data eval_dataset (S i) rest st
  end.

(** [forward], run on the learner and the generator of the store [e]; it
    returns the pair and the store it leaves. *)
Definition forward (data : raw_data)
    (sparse_classifier_clusters : list sparse_tensor) (e : store)
  : result (vec * vec * store) :=
  let num_cluster := length sparse_classifier_clusters in
  cs ← torch_zeros2 num_cluster (dim_sample (this e));
  cc ← torch_zeros2 num_cluster (dim_sample (this e));
  let eval_dataset := TransformedDataset data None in
  st ← forward_loop data eval_dataset 0 sparse_classifier_clusters
         {| candidate_classifiers := cc; candidate_selectors := cs; env := e |};
  '(c, s) ← evaluate eval_dataset (candidate_classifiers st) (candidate_selectors st);
  Ok (c, s, env st).

(** *** The quantities the specification names *)

(** The best pair of one cluster: train its selectors, evaluate them. *)
Definition cluster_best (data : raw_data) (eval_dataset : dataset)
    (i : nat) (classifiers : sparse_tensor) (e : store) : result (vec * vec * store) :=
  '(selectors, e) ← train_selectors data i classifiers e;
  '(c, s) ← evaluate eval_dataset (to_dense classifiers) selectors;
  Ok (c, s, e).

(** The best pairs of the clusters, processed in input order from index [i]. *)
Fixpoint cluster_bests (data : raw_data) (eval_dataset : dataset)
    (i : nat) (clusters : list sparse_tensor) (e : store)
  : result (list (list spec_float * list spec_float) * store) :=
  match clusters with
  | [] => Ok ([], e)
  | classifiers :: rest =>
      '(c, s, e) ← cluster_best data eval_dataset i classifiers e;
      '(bests, e) ← cluster_bests data eval_dataset (S i) rest e;
      Ok ((c, s) :: bests, e)
  end.

(** A trainer that leaves the tensor it is given as initial weight as it
    was: the read-only contract of the specification. *)
Definition read_only
    (call : SelectorPerceptron -> Subset -> Subset -> vec -> rng ->
            result (matrix * list spec_float * rng)) : Prop :=
  forall cfg tr va w g sel w' g',
    call cfg tr va w g = Ok (sel, w', g') -> w' = w.

(** The classifier [c] mispredicts the label of the sample. *)
Definition misclassified (c : vec) (sample : bool * list spec_float) : bool :=
  negb (eqb (decide_sample c sample.2) sample.1).

(** The selector [s] claims the sample. *)
Definition selected (s : vec) (sample : bool * list spec_float) : bool :=
  decide_sample s sample.2.

Definition count_samples (P : bool * list spec_float -> bool)
    (samples : list (bool * list spec_float)) : Z :=
  Z.of_nat (length (filter (fun x => P x = true) samples)).

(** The conditional error rate of one (classifier, selector) row in the
    specification's words: misclassified and selected samples over selected
    samples, and 1 where that quotient is NaN. *)
Definition row_rate (eval_dataset : dataset) (c s : vec) : float32 :=
  let samples := ds_getitem_all eval_dataset in
  let r := F32.div
             (F32.of_int (count_samples (fun x => misclassified c x && selected s x) samples))
             (F32.of_int (count_samples (selected s) samples)) in
  if F32.is_nan r then F32.one else r.

(** [k] is the first position of a minimum of [rate]. *)
Definition first_minimum (rate : vec) (k : nat) : Prop :=
  exists rk, rate !! k = Some rk /\
    forall j rj, rate !! j = Some rj ->
      F32.ge rj rk = true /\ ((j < k)%nat -> F32.lt rk rj = true).

(** The pair errs on none of the samples it selects, and selects some. *)
Definition error_free (eval_dataset : dataset) (c s : vec) : Prop :=
  0 < count_samples (selected s) (ds_getitem_all eval_dataset) /\
  count_samples (fun x => misclassified c x && selected s x)
                (ds_getitem_all eval_dataset) = 0.

(** ** Facts about rounding to float32 *)

Lemma digits2_pos_size p : digits2_pos p = Pos.size p.
Proof. induction p; simpl; congruence. Qed.

Lemma Zdigits2_log2 m : 0 < m -> Zdigits2 m = Z.log2 m + 1.
Proof.
  destruct m as [|p|p]; try lia. intros _. simpl. rewrite digits2_pos_size.
  destruct p; simpl; lia.
Qed.

Lemma Zdigits2_bounds m : 0 < m -> 2 ^ (Zdigits2 m - 1) <= m < 2 ^ Zdigits2 m.
Proof.
  intros Hm. rewrite Zdigits2_log2 by done.
  replace (Z.log2 m + 1 - 1) with (Z.log2 m) by lia.
  replace (Z.log2 m + 1) with (Z.succ (Z.log2 m)) by lia.
  by apply Z.log2_spec.
Qed.

Lemma Zdigits2_le_pow2 m b : 0 < m -> m < 2 ^ b -> Zdigits2 m <= b.
Proof.
  intros Hm Hb. rewrite Zdigits2_log2 by done.
  assert (0 <= b).
  { destruct (Z.le_gt_cases 0 b); [done|]. rewrite Z.pow_neg_r in Hb; lia. }
  apply Z.log2_lt_pow2 in Hb; lia.
Qed.

Lemma shr_1_m mrs : 0 <= shr_m mrs -> shr_m (shr_1 mrs) = shr_m mrs / 2.
Proof.
  destruct mrs as [m r s]; simpl. intros Hm.
  destruct m as [|[p|p|]|]; cbn [shr_m]; try lia; try done.
  - apply Z.div_unique with 1; lia.
  - apply Z.div_unique with 0; lia.
Qed.

Lemma pow2_xO p : 2 ^ Z.pos p~0 = 2 ^ Z.pos p * 2 ^ Z.pos p.
Proof. rewrite Pos2Z.inj_xO, <- Z.pow_add_r by lia. f_equal; lia. Qed.

Lemma pow2_xI p : 2 ^ Z.pos p~1 = 2 * (2 ^ Z.pos p * 2 ^ Z.pos p).
Proof.
  rewrite Pos2Z.inj_xI, <- Z.pow_add_r by lia.
  replace (2 * Z.pos p + 1) with (Z.succ (Z.pos p + Z.pos p)) by lia.
  rewrite Z.pow_succ_r by lia. done.
Qed.

Lemma iter_shr_1_m p : forall mrs, 0 <= shr_m mrs ->
  shr_m (SpecFloat.iter_pos shr_1 p mrs) = shr_m mrs / 2 ^ Zpos p.
Proof.
  assert (Hhalf : forall mrs, 0 <= shr_m mrs -> 0 <= shr_m (shr_1 mrs)).
  { intros mrs H. rewrite shr_1_m by done. apply Z.div_pos; lia. }
  induction p as [p IH|p IH|]; intros mrs Hm; simpl.
  - assert (H1 := Hhalf _ Hm).
    assert (H2 : 0 <= shr_m (SpecFloat.iter_pos shr_1 p (shr_1 mrs))).
    { rewrite IH by done. apply Z.div_pos; lia. }
    rewrite IH, IH, shr_1_m by done.
    rewrite !Z.div_div by lia. by rewrite pow2_xI.
  - assert (H2 : 0 <= shr_m (SpecFloat.iter_pos shr_1 p mrs)).
    { rewrite IH by done. apply Z.div_pos; lia. }
    rewrite IH, IH by done.
    rewrite !Z.div_div by lia. by rewrite pow2_xO.
  - rewrite shr_1_m by done. done.
Qed.

Lemma shr_m_spec mrs e n : 0 <= shr_m mrs ->
  shr_m (shr mrs e n).1 = shr_m mrs / 2 ^ Z.max n 0 /\ (shr mrs e n).2 = e + Z.max n 0.
Proof.
  intros Hm. destruct n as [|p|p]; simpl.
  - rewrite Z.div_1_r. lia.
  - rewrite iter_shr_1_m by done. rewrite Z.max_l by lia. lia.
  - rewrite Z.div_1_r. lia.
Qed.

Lemma shr_record_of_loc_m m l : shr_m (shr_record_of_loc m l) = m.
Proof. by destruct l as [|[]]. Qed.

Lemma round_nearest_even_bounds m l :
  m <= round_nearest_even m l <= m + 1.
Proof. destruct l as [|[]]; simpl; try lia. destruct (Z.even m); lia. Qed.

Lemma binary_round_aux_not_nan prec emax s m e l :
  0 <= m -> binary_round_aux prec emax s m e l <> S754_nan.
Proof.
  intros Hm. unfold binary_round_aux, shr_fexp.
  set (mrs0 := shr_record_of_loc m l).
  set (n := fexp prec emax (Zdigits2 m + e) - e).
  destruct (shr_m_spec mrs0 e n) as [H1 _].
  { unfold mrs0. rewrite shr_record_of_loc_m. done. }
  destruct (shr mrs0 e n) as [mrs' e'] eqn:E1. simpl in H1.
  set (m1 := round_nearest_even (shr_m mrs') (loc_of_shr_record mrs')).
  assert (Hm1 : 0 <= m1).
  { pose proof (round_nearest_even_bounds (shr_m mrs') (loc_of_shr_record mrs')).
    assert (0 <= shr_m mrs').
    { rewrite H1. unfold mrs0. rewrite shr_record_of_loc_m.
      apply Z.div_pos; [done|]. apply Z.pow_pos_nonneg; lia. }
    unfold m1. lia. }
  set (n2 := fexp prec emax (Zdigits2 m1 + e') - e').
  destruct (shr_m_spec (shr_record_of_loc m1 loc_Exact) e' n2) as [H2 _]; [done|].
  destruct (shr (shr_record_of_loc m1 loc_Exact) e' n2) as [mrs'' e''] eqn:E2.
  simpl in H2.
  assert (0 <= shr_m mrs'').
  { rewrite H2. apply Z.div_pos; [done|]. apply Z.pow_pos_nonneg; lia. }
  destruct (shr_m mrs''); [done| |lia].
  by destruct (e'' <=? emax - prec).
Qed.

Lemma Zdigits2_pos m : 0 < m -> 0 < Zdigits2 m.
Proof.
  intros Hm. rewrite Zdigits2_log2 by done. pose proof (Z.log2_nonneg m). lia.
Qed.

(** The first step of rounding: the mantissa is cut to 24 digits. *)
Lemma shr_fexp_spec m e l :
  0 <= m -> -149 <= e ->
  0 <= shr_m (shr_fexp 24 128 m e l).1 <= m /\
  (0 < m -> 0 < shr_m (shr_fexp 24 128 m e l).1) /\
  shr_m (shr_fexp 24 128 m e l).1 < 2 ^ 24 /\
  (shr_fexp 24 128 m e l).2 = e + Z.max 0 (Zdigits2 m - 24).
Proof.
  intros Hm He. unfold shr_fexp.
  set (n := fexp 24 128 (Zdigits2 m + e) - e).
  destruct (shr_m_spec (shr_record_of_loc m l) e n) as [H1 H2].
  { by rewrite shr_record_of_loc_m. }
  rewrite H1, H2, shr_record_of_loc_m.
  destruct (decide (m = 0)) as [->|Hne].
  { replace (Z.max n 0) with 0 by (unfold n, fexp, emin; simpl; lia).
    change (Zdigits2 0) with 0. rewrite Z.pow_0_r, Z.div_1_r.
    change (2 ^ 24) with 16777216. lia. }
  assert (Hpos : 0 < m) by lia.
  pose proof (Zdigits2_pos m Hpos) as HD.
  destruct (Zdigits2_bounds m Hpos) as [Hlo Hhi].
  assert (Hn : Z.max n 0 = Z.max 0 (Zdigits2 m - 24)).
  { unfold n, fexp, emin. lia. }
  rewrite Hn. set (k := Z.max 0 (Zdigits2 m - 24)).
  assert (Hk : 0 < 2 ^ k) by (apply Z.pow_pos_nonneg; lia).
  assert (Hkm : 2 ^ k <= m).
  { etrans; [|exact Hlo]. apply Z.pow_le_mono_r; lia. }
  assert (Hup : m < 2 ^ k * 2 ^ 24).
  { rewrite <- Z.pow_add_r by lia. eapply Z.lt_le_trans; [exact Hhi|].
    apply Z.pow_le_mono_r; lia. }
  split; [split|split; [|split]].
  - apply Z.div_pos; lia.
  - apply Z.div_le_upper_bound; [lia|]. nia.
  - intros _. apply Z.div_str_pos. lia.
  - apply Z.div_lt_upper_bound; lia.
  - lia.
Qed.

(** Rounding to float32 a non-negative mantissa whose exponent leaves room
    below the largest one: a result of the sign asked for, neither NaN nor
    infinite, with an exponent at most one above the one the mantissa is cut
    at; and not a zero when the mantissa is positive. *)
Lemma binary_round_aux_spec s m e l :
  0 <= m -> -149 <= e -> e + Z.max 0 (Zdigits2 m - 24) + 1 <= 104 ->
  bounded_float s e (e + Z.max 0 (Zdigits2 m - 24) + 1)
                (binary_round_aux 24 128 s m e l) /\
  (0 < m -> exists m' e', binary_round_aux 24 128 s m e l = S754_finite s m' e').
Proof.
  intros Hm He Hb. unfold binary_round_aux.
  destruct (shr_fexp_spec m e l Hm He) as (H1 & H1' & H1'' & H1e).
  destruct (shr_fexp 24 128 m e l) as [mrs' e']. cbn [fst snd] in *.
  set (m1 := round_nearest_even (shr_m mrs') (loc_of_shr_record mrs')).
  pose proof (round_nearest_even_bounds (shr_m mrs') (loc_of_shr_record mrs')) as Hr.
  fold m1 in Hr.
  assert (Hm1 : 0 <= m1) by lia.
  assert (Hd1 : Z.max 0 (Zdigits2 m1 - 24) <= 1).
  { destruct (decide (m1 = 0)) as [->|Hne]; [simpl; lia|].
    assert (Zdigits2 m1 <= 25); [|lia].
    apply Zdigits2_le_pow2; [lia|]. change (2 ^ 25) with (2 * 2 ^ 24). lia. }
  destruct (shr_fexp_spec m1 e' loc_Exact Hm1 ltac:(lia)) as (H2 & H2' & H2'' & H2e).
  destruct (shr_fexp 24 128 m1 e' loc_Exact) as [mrs'' e'']. cbn [fst snd] in *.
  destruct (shr_m mrs'') as [|q|q] eqn:Eq; [|  |lia].
  - split; [done|]. intros Hpos. lia.
  - assert (Hle : (e'' <=? 128 - 24) = true) by (apply Z.leb_le; lia).
    rewrite Hle. split; [|by eauto]. cbn [bounded_float].
    split; [done|]. split; [|lia].
    apply Zdigits2_le_pow2; lia.
Qed.

Lemma Pos_iter_xO p d : Z.pos (Pos.iter xO p d) = Z.pos p * 2 ^ Z.pos d.
Proof.
  induction d as [|d IH] using Pos.peano_ind.
  - simpl. lia.
  - rewrite Pos.iter_succ, Pos2Z.inj_xO, IH, Pos2Z.inj_succ, Z.pow_succ_r by lia. lia.
Qed.

(** An int64 count converts to a float32 that is a zero or a positive
    number with an exponent between -23 and 40, and to no zero unless it
    is 0. *)
Lemma of_int_spec n :
  0 <= n < 2 ^ 63 ->
  bounded_float false (-23) 40 (F32.of_int n) /\
  (0 < n -> exists m e, F32.of_int n = S754_finite false m e).
Proof.
  intros [Hn Hb]. unfold F32.of_int, F32.prec, F32.emax.
  destruct n as [|p|p]; [by split; [|lia] | |lia].
  unfold binary_normalize, binary_round.
  assert (Hp : 0 < Z.pos p) by lia.
  pose proof (Zdigits2_bounds (Z.pos p) Hp) as [Hlo Hhi].
  pose proof (Zdigits2_le_pow2 (Z.pos p) 63 Hp Hb) as Hd.
  pose proof (Zdigits2_pos (Z.pos p) Hp) as Hpos.
  change (Z.pos (digits2_pos p)) with (Zdigits2 (Z.pos p)).
  unfold shl_align.
  assert (Hfexp : fexp 24 128 (Zdigits2 (Z.pos p) + 0) = Zdigits2 (Z.pos p) - 24)
    by (unfold fexp, emin; lia).
  rewrite Hfexp, Z.sub_0_r.
  destruct (Zdigits2 (Z.pos p) - 24) as [|d|d] eqn:Ed.
  - destruct (binary_round_aux_spec false (Z.pos p) 0 loc_Exact) as [H1 H2]; [lia..|].
    split; [|by apply H2].
    destruct (binary_round_aux _ _ _ _ _ _); try done.
    cbn [bounded_float] in *. destruct H1 as (-> & ? & ?). repeat split; lia.
  - destruct (binary_round_aux_spec false (Z.pos p) 0 loc_Exact) as [H1 H2]; [lia..|].
    split; [|by apply H2].
    destruct (binary_round_aux _ _ _ _ _ _); try done.
    cbn [bounded_float] in *. destruct H1 as (-> & ? & ?). repeat split; lia.
  - assert (Hmz : Zdigits2 (Z.pos (Pos.iter xO p d)) <= 24).
    { apply Zdigits2_le_pow2; [lia|]. rewrite Pos_iter_xO.
      replace (Z.pos d) with (24 - Zdigits2 (Z.pos p)) by lia.
      replace 24 with (Zdigits2 (Z.pos p) + (24 - Zdigits2 (Z.pos p))) at 2 by lia.
      rewrite Z.pow_add_r by lia.
      apply Z.mul_lt_mono_pos_r; [apply Z.pow_pos_nonneg; lia | done]. }
    destruct (binary_round_aux_spec false (Z.pos (Pos.iter xO p d)) (Z.neg d) loc_Exact)
      as [H1 H2]; [lia..|].
    split; [|by apply H2].
    destruct (binary_round_aux _ _ _ _ _ _); try done.
    cbn [bounded_float] in *. destruct H1 as (-> & ? & ?). repeat split; lia.
Qed.

Lemma of_int_not_nan n : 0 <= n -> not_nan (F32.of_int n).
Proof.
  intros Hn. unfold F32.of_int, binary_normalize, binary_round.
  destruct n as [|p|p]; [done| |lia].
  destruct (shl_align _ _ _) as [mz ez].
  by apply binary_round_aux_not_nan.
Qed.

(** The float32 quotient of two int64 counts, the divisor positive, is a
    zero or a finite number. *)
Lemma div_of_int_finite a b :
  0 <= a < 2 ^ 63 -> 0 < b < 2 ^ 63 -> is_finite (F32.div (F32.of_int a) (F32.of_int b)).
Proof.
  intros Ha Hb.
  destruct (of_int_spec b ltac:(lia)) as [Hbb Hbf].
  destruct (Hbf ltac:(lia)) as (mb & eb & Eb). rewrite Eb in *.
  destruct (of_int_spec a Ha) as [Hab _].
  unfold F32.div, F32.prec, F32.emax, SFdiv.
  destruct (F32.of_int a) as [sa|sa| |sa ma ea]; try done.
  cbn [bounded_float] in *.
  destruct Hab as (-> & Hda & Hea). destruct Hbb as (_ & Hdb & Heb).
  pose proof (Zdigits2_pos (Z.pos ma) ltac:(lia)) as Hda0.
  pose proof (Zdigits2_pos (Z.pos mb) ltac:(lia)) as Hdb0.
  destruct (Zdigits2_bounds (Z.pos ma) ltac:(lia)) as [_ Hahi].
  destruct (Zdigits2_bounds (Z.pos mb) ltac:(lia)) as [Hblo _].
  unfold SFdiv_core_binary.
  set (da := Zdigits2 (Z.pos ma)) in *. set (db := Zdigits2 (Z.pos mb)) in *.
  assert (He' : Z.min (fexp 24 128 (da + ea - (db + eb))) (ea - eb)
                = da + ea - (db + eb) - 24) by (unfold fexp, emin; lia).
  rewrite He'.
  replace (ea - eb - (da + ea - (db + eb) - 24)) with (24 - da + db) by lia.
  destruct (24 - da + db) as [|sh|sh] eqn:Esh; [lia| |lia].
  rewrite Z.shiftl_mul_pow2 by lia.
  assert (Hq : 0 <= Z.pos ma * 2 ^ Z.pos sh / Z.pos mb < 2 ^ 25).
  { assert (0 < 2 ^ Z.pos sh) by (apply Z.pow_pos_nonneg; lia).
    split; [apply Z.div_pos; nia|].
    apply Z.div_lt_upper_bound; [lia|].
    assert (Z.pos ma * 2 ^ Z.pos sh < 2 ^ da * 2 ^ Z.pos sh) by nia.
    assert (2 ^ da * 2 ^ Z.pos sh = 2 ^ (db - 1) * 2 ^ 25).
    { rewrite <- !Z.pow_add_r by lia. f_equal. lia. }
    nia. }
  unfold Z.div in Hq.
  destruct (Z.div_eucl (Z.pos ma * 2 ^ Z.pos sh) (Z.pos mb)) as [q r].
  cbn [fst] in Hq.
  destruct (binary_round_aux_spec (xorb false false) q (da + ea - (db + eb) - 24)
              (new_location (Z.pos mb) r)) as [H1 _]; [lia | lia | |].
  { assert (Z.max 0 (Zdigits2 q - 24) <= 1); [|lia].
    destruct (decide (q = 0)) as [->|]; [simpl; lia|].
    pose proof (Zdigits2_le_pow2 q 25 ltac:(lia) ltac:(lia)). lia. }
  by destruct (binary_round_aux _ _ _ _ _ _).
Qed.

Lemma SFltb_key x y : not_nan x -> not_nan y ->
  SFltb x y = true <-> key_lt (SFkey x) (SFkey y).
Proof.
  intros Hx Hy. unfold SFltb, key_lt.
  destruct x as [sx|sx| |sx mx ex], y as [sy|sy| |sy my ey]; try done;
    try (destruct sx); try (destruct sy); simpl;
    try (split; [done | lia]); try (split; [lia | done]).
  all: change (Pos.compare_cont Eq mx my) with (Z.pos mx ?= Z.pos my).
  all: destruct (Z.compare_spec ex ey);
    destruct (Z.compare_spec (Z.pos mx) (Z.pos my)); simpl;
    split; try done; try lia.
Qed.

Lemma SFleb_key x y : not_nan x -> not_nan y ->
  SFleb x y = true <-> ~ key_lt (SFkey y) (SFkey x).
Proof.
  intros Hx Hy. unfold SFleb, key_lt.
  destruct x as [sx|sx| |sx mx ex], y as [sy|sy| |sy my ey]; try done;
    try (destruct sx); try (destruct sy); simpl;
    try (split; [lia | done]); try (split; [done | lia]).
  all: change (Pos.compare_cont Eq mx my) with (Z.pos mx ?= Z.pos my).
  all: destruct (Z.compare_spec ex ey);
    destruct (Z.compare_spec (Z.pos mx) (Z.pos my)); simpl;
    split; try done; try lia.
Qed.

(** A zero or a finite number is not NaN. *)
Lemma is_finite_not_nan x : is_finite x -> not_nan x.
Proof. by destruct x. Qed.

(** *** The float32 order on numbers that are not NaN *)

Lemma SFleb_refl x : not_nan x -> SFleb x x = true.
Proof. intros Hx. apply SFleb_key; [done..|]. unfold key_lt. lia. Qed.

Lemma SFleb_false_ltb x y : not_nan x -> not_nan y ->
  SFleb x y = false -> SFltb y x = true.
Proof.
  intros Hx Hy H. apply SFltb_key; [done..|].
  destruct (SFleb_key x y Hx Hy) as [_ H2].
  destruct (SFkey x) as [[? ?] ?], (SFkey y) as [[? ?] ?].
  unfold key_lt in *; simpl in *.
  destruct (SFleb x y); [done|].
  apply Decidable.not_not; [|intros Hn; by specialize (H2 Hn)].
  unfold Decidable.decidable. lia.
Qed.

Lemma SFltb_leb_trans x y z : not_nan x -> not_nan y -> not_nan z ->
  SFltb x y = true -> SFleb y z = true -> SFltb x z = true.
Proof.
  intros Hx Hy Hz H1 H2.
  apply SFltb_key in H1; [|done..]. apply SFleb_key in H2; [|done..].
  apply SFltb_key; [done..|].
  destruct (SFkey x) as [[? ?] ?], (SFkey y) as [[? ?] ?], (SFkey z) as [[? ?] ?].
  unfold key_lt in *; simpl in *. lia.
Qed.

Lemma SFltb_leb x y : not_nan x -> not_nan y -> SFltb x y = true -> SFleb x y = true.
Proof.
  intros Hx Hy H1. apply SFltb_key in H1; [|done..]. apply SFleb_key; [done..|].
  destruct (SFkey x) as [[? ?] ?], (SFkey y) as [[? ?] ?].
  unfold key_lt in *; simpl in *. lia.
Qed.

(** ** Facts about the torch primitives *)

Lemma broadcast_same_length {A B C} (f : A -> B -> C) xs ys :
  length xs = length ys -> broadcast f xs ys = Ok (zip_with f xs ys).
Proof. intros H. unfold broadcast. by rewrite decide_True. Qed.

Lemma broadcast_lookup_fmap {A B} (g : A -> B) (l : list A) k :
  broadcast_lookup (map g l) k = g <$> broadcast_lookup l k.
Proof. destruct l as [|x [|y l]]; try done. apply list_lookup_fmap. Qed.

Lemma broadcast_lookup_of_lookup {A} (l : list A) k x :
  l !! k = Some x -> broadcast_lookup l k = Some x.
Proof. destruct l as [|y [|z l]]; try done. by destruct k. Qed.

Lemma broadcast_lookup_elem_of {A} (l : list A) k x :
  broadcast_lookup l k = Some x -> x ∈ l.
Proof.
  destruct l as [|y [|z l]]; simpl; intros H.
  - done.
  - injection H as <-. by left.
  - by eapply list_elem_of_lookup_2.
Qed.

(** Every element of a broadcast result is the operation applied to what the
    two operands contribute at its position. *)
Lemma broadcast_inv {A B C} (f : A -> B -> C) xs ys zs k z :
  broadcast f xs ys = Ok zs -> broadcast_lookup zs k = Some z ->
  exists x y,
    broadcast_lookup xs k = Some x /\ broadcast_lookup ys k = Some y /\ z = f x y.
Proof.
  unfold broadcast. case_decide as Hlen.
  - intros [= <-] Hz.
    destruct xs as [|x [|x' xs]], ys as [|y [|y' ys]]; try done.
    + injection Hz as <-. by exists x, y.
    + cbn [zip_with broadcast_lookup] in *.
      apply (lookup_zip_with_Some f (x :: x' :: xs) (y :: y' :: ys)) in Hz
        as (x0 & y0 & -> & ? & ?).
      by exists x0, y0.
  - destruct xs as [|x [|x' xs]].
    + destruct ys as [|y [|y' ys]]; try done. by intros [= <-].
    + intros [= <-] Hz. destruct ys as [|y [|y' ys]]; try done.
      cbn [broadcast_lookup map] in *.
      change (f x y :: f x y' :: map (f x) ys) with (f x <$> (y :: y' :: ys)) in Hz.
      rewrite list_lookup_fmap in Hz.
      destruct ((y :: y' :: ys) !! k) as [y0|] eqn:Ey; [|done].
      injection Hz as <-. by exists x, y0.
    + destruct ys as [|y [|y' ys]]; try done. intros [= <-] Hz.
      cbn [broadcast_lookup map] in *.
      change (f x y :: f x' y :: map (fun x0 => f x0 y) xs)
        with ((fun x0 => f x0 y) <$> (x :: x' :: xs)) in Hz.
      rewrite list_lookup_fmap in Hz.
      destruct ((x :: x' :: xs) !! k) as [x0|] eqn:Ex; [|done].
      injection Hz as <-. by exists x0, y.
Qed.

Lemma count_true_map {A} (P : A -> bool) (l : list A) :
  count_true (map P l) = Z.of_nat (length (filter (fun x => P x = true) l)).
Proof.
  unfold count_true. f_equal. induction l as [|x l IH]; [done|].
  rewrite filter_cons. simpl. rewrite filter_cons.
  destruct (P x); simpl; repeat case_decide; simpl; congruence.
Qed.

Lemma min_scan_cons m idx i v (t : vec) :
  min_scan m idx i (v :: t) =
  if negb (F32.ge v m)
  then if F32.is_nan v then (v, i) else min_scan v i (S i) t
  else min_scan m idx (S i) t.
Proof. done. Qed.

Lemma is_nan_false x : not_nan x -> F32.is_nan x = false.
Proof. by destruct x. Qed.

(** The scan of [torch.min] keeps the first position of the least value seen
    so far; [pre] is the part of the tensor already scanned. *)
Lemma min_scan_first_minimum (t : vec) : forall (pre : vec) m idx,
  Forall not_nan (pre ++ t) ->
  pre !! idx = Some m ->
  (forall j rj, pre !! j = Some rj ->
     F32.ge rj m = true /\ ((j < idx)%nat -> F32.lt m rj = true)) ->
  (pre ++ t) !! (min_scan m idx (length pre) t).2 = Some (min_scan m idx (length pre) t).1 /\
  forall j rj, (pre ++ t) !! j = Some rj ->
     F32.ge rj (min_scan m idx (length pre) t).1 = true /\
     ((j < (min_scan m idx (length pre) t).2)%nat ->
      F32.lt (min_scan m idx (length pre) t).1 rj = true).
Proof.
  induction t as [|v t IH]; intros pre m idx Hnn Hidx Hinv.
  - simpl. rewrite app_nil_r. done.
  - assert (Hpre : forall j rj, pre !! j = Some rj -> not_nan rj).
    { intros j rj Hj. eapply Forall_lookup_1; [exact Hnn|]. by apply lookup_app_l_Some. }
    assert (Hm : not_nan m) by by eapply Hpre.
    assert (Hv : not_nan v).
    { eapply Forall_lookup_1; [exact Hnn|]. by apply list_lookup_middle. }
    assert (Hlen : (idx < length pre)%nat) by by eapply lookup_lt_Some.
    replace (pre ++ v :: t) with ((pre ++ [v]) ++ t) in * by by rewrite <- app_assoc.
    assert (Hi : S (length pre) = length (pre ++ [v])) by (rewrite length_app; simpl; lia).
    rewrite min_scan_cons, Hi.
    destruct (F32.ge v m) eqn:Ege; cbn [negb].
    + apply IH; [done | by rewrite lookup_app_l |].
      intros j rj Hj. apply lookup_app_Some in Hj as [Hj|[Hj1 Hj2]]; [by apply Hinv|].
      apply list_lookup_singleton_Some in Hj2 as [_ <-].
      split; [done | lia].
    + rewrite (is_nan_false v Hv).
      assert (Hlt : SFltb v m = true) by by apply SFleb_false_ltb.
      apply IH; [done | by rewrite lookup_app_r, Nat.sub_diag |].
      intros j rj Hj. apply lookup_app_Some in Hj as [Hj|[Hj1 Hj2]].
      * destruct (Hinv j rj Hj) as [Hge _]. unfold F32.ge, F32.lt in *.
        assert (Hrj := Hpre j rj Hj).
        assert (SFltb v rj = true) by by apply (SFltb_leb_trans v m rj).
        split; [by apply SFltb_leb | done].
      * apply list_lookup_singleton_Some in Hj2 as [? <-].
        split; [by apply SFleb_refl | lia].
Qed.

Lemma torch_min_first_minimum (t : vec) :
  Forall not_nan t -> t <> [] ->
  exists m k, torch_min t = Ok (m, k) /\ first_minimum t k.
Proof.
  intros Hnn Hne. destruct t as [|x t]; [done|].
  exists (min_scan x 0 0 (x :: t)).1, (min_scan x 0 0 (x :: t)).2.
  split; [unfold torch_min; by destruct (min_scan _ _ _ _)|].
  assert (Hx : not_nan x) by by inversion Hnn.
  rewrite min_scan_cons. unfold F32.ge at 1. rewrite SFleb_refl by done. cbn [negb].
  destruct (min_scan_first_minimum t [x] x 0%nat) as [H1 H2]; [done..| |].
  { intros [|j] rj Hj; [|done]. injection Hj as <-. split; [by apply SFleb_refl | lia]. }
  eexists. split; [exact H1 | exact H2].
Qed.

Lemma first_minimum_constant (t : vec) (x : float32) k :
  not_nan x -> (forall j rj, t !! j = Some rj -> rj = x) -> first_minimum t k -> k = 0%nat.
Proof.
  intros Hx Hall (rk & Hk & Hmin). destruct k as [|k]; [done|].
  assert (is_Some (t !! 0%nat)) as [r0 H0].
  { apply lookup_lt_is_Some. apply lookup_lt_Some in Hk. lia. }
  destruct (Hmin _ _ H0) as [_ Hlt]. specialize (Hlt ltac:(lia)).
  rewrite (Hall _ _ H0), (Hall _ _ Hk) in Hlt.
  unfold F32.lt in Hlt. apply SFltb_key in Hlt; [|done..].
  unfold key_lt in Hlt. lia.
Qed.

(** ** evaluate *)

Lemma errors_of_rows eval_dataset (classifiers : matrix) :
  errors_of eval_dataset classifiers =
  map (fun c => map (misclassified c) (ds_getitem_all eval_dataset)) classifiers.
Proof.
  unfold errors_of, Classify. rewrite map_map. apply map_ext. intros c.
  induction (ds_getitem_all eval_dataset) as [|[y x] l IH]; [done|].
  simpl. by rewrite <- IH.
Qed.

Lemma selections_of_rows eval_dataset (selectors : matrix) :
  selections_of eval_dataset selectors =
  map (fun s => map (selected s) (ds_getitem_all eval_dataset)) selectors.
Proof.
  unfold selections_of, Classify. apply map_ext. intros s.
  induction (ds_getitem_all eval_dataset) as [|[y x] l IH]; [done|].
  simpl. by rewrite <- IH.
Qed.

Lemma zip_with_andb_map {A} (P Q : A -> bool) (l : list A) :
  zip_with andb (map P l) (map Q l) = map (fun x => P x && Q x) l.
Proof. induction l as [|x l IH]; [done|]. simpl. by rewrite IH. Qed.

(** With one selector per classifier no broadcasting takes place, and the
    rates are the specification's quotient row by row. *)
Lemma conditional_error_rate_rows eval_dataset (classifiers selectors : matrix) :
  length classifiers = length selectors ->
  conditional_error_rate eval_dataset classifiers selectors =
  Ok (zip_with (row_rate eval_dataset) classifiers selectors).
Proof.
  intros Hlen. unfold conditional_error_rate.
  rewrite errors_of_rows, selections_of_rows.
  rewrite broadcast_same_length by (by rewrite !length_map).
  cbn [mbind result_bind].
  rewrite broadcast_same_length by (by rewrite !length_map, length_zip_with, !length_map; lia).
  cbn [mbind result_bind]. f_equal.
  revert selectors Hlen.
  induction classifiers as [|c cs IH]; intros [|s ss] Hlen; try done.
  simpl. rewrite IH by (simpl in Hlen; lia). f_equal.
  unfold row_rate, count_samples.
  by rewrite zip_with_andb_map, !count_true_map.
Qed.

(** Whatever the shapes, a rate that is computed is the specification's
    quotient for the classifier and the selector that broadcasting puts in
    its row. *)
Lemma conditional_error_rate_lookup eval_dataset (classifiers selectors : matrix)
    rate k r :
  conditional_error_rate eval_dataset classifiers selectors = Ok rate ->
  rate !! k = Some r ->
  exists c s,
    broadcast_lookup classifiers k = Some c /\
    broadcast_lookup selectors k = Some s /\
    r = row_rate eval_dataset c s.
Proof.
  unfold conditional_error_rate. rewrite errors_of_rows, selections_of_rows.
  intros H Hk.
  destruct (broadcast (zip_with andb) _ _) as [prod|err] eqn:Eprod; [|done].
  cbn [mbind result_bind] in H.
  destruct (broadcast F32.div _ _) as [rate0|err] eqn:Erate; [|done].
  injection H as <-. rewrite list_lookup_fmap in Hk.
  destruct (rate0 !! k) as [r0|] eqn:Er0; [|done]. injection Hk as <-.
  apply broadcast_lookup_of_lookup in Er0.
  destruct (broadcast_inv _ _ _ _ _ _ Erate Er0) as (n & d & Hn & Hd & ->).
  rewrite broadcast_lookup_fmap in Hn, Hd.
  destruct (broadcast_lookup prod k) as [p|] eqn:Ep; [|done]. injection Hn as <-.
  destruct (broadcast_inv _ _ _ _ _ _ Eprod Ep) as (e & sel & He & Hsel & ->).
  rewrite Hsel in Hd. injection Hd as <-.
  rewrite broadcast_lookup_fmap in He, Hsel.
  destruct (broadcast_lookup classifiers k) as [c|]; [|done]. injection He as <-.
  destruct (broadcast_lookup selectors k) as [s|]; [|done]. injection Hsel as <-.
  exists c, s. do 2 (split; [done|]).
  unfold row_rate, count_samples.
  by rewrite zip_with_andb_map, !count_true_map.
Qed.

Lemma conditional_error_rate_not_nan eval_dataset (classifiers selectors : matrix) rate :
  conditional_error_rate eval_dataset classifiers selectors = Ok rate ->
  Forall not_nan rate.
Proof.
  intros H. apply Forall_lookup_2. intros k r Hk.
  destruct (conditional_error_rate_lookup _ _ _ _ _ _ H Hk) as (c & s & _ & _ & ->).
  unfold row_rate. by destruct (F32.div _ _).
Qed.

Lemma count_samples_nonneg P samples : 0 <= count_samples P samples.
Proof. unfold count_samples. lia. Qed.

Lemma count_samples_le_length P samples :
  count_samples P samples <= Z.of_nat (length samples).
Proof. unfold count_samples. pose proof (length_filter (fun x => P x = true) samples). lia. Qed.

Lemma count_samples_and_zero P Q samples :
  count_samples Q samples = 0 -> count_samples (fun x => P x && Q x) samples = 0.
Proof.
  unfold count_samples. intros H.
  assert (filter (fun x => Q x = true) samples = []) as Hnil.
  { apply length_zero_iff_nil. lia. }
  assert (filter (fun x => P x && Q x = true) samples = []) as ->; [|done].
  clear H. induction samples as [|x l IH]; [done|].
  rewrite filter_cons in Hnil. rewrite filter_cons.
  destruct (decide (Q x = true)) as [Hq|Hq]; [done|].
  destruct (decide (P x && Q x = true)) as [Hpq|Hpq]; [|by apply IH].
  apply andb_true_iff in Hpq. tauto.
Qed.

Lemma row_rate_not_nan eval_dataset c s : not_nan (row_rate eval_dataset c s).
Proof. unfold row_rate. by destruct (F32.div _ _). Qed.

Lemma row_rate_zero_selection eval_dataset c s :
  count_samples (selected s) (ds_getitem_all eval_dataset) = 0 ->
  row_rate eval_dataset c s = F32.one.
Proof.
  intros H. unfold row_rate.
  by rewrite (count_samples_and_zero (misclassified c) _ _ H), H.
Qed.

Lemma count_samples_and_le P Q samples :
  count_samples (fun x => P x && Q x) samples <= count_samples Q samples.
Proof.
  unfold count_samples. apply inj_le.
  induction samples as [|x l IH]; [done|].
  rewrite !filter_cons.
  destruct (decide (P x && Q x = true)) as [Hpq|Hpq];
    destruct (decide (Q x = true)) as [Hq|Hq]; simpl; try lia.
  apply andb_true_iff in Hpq. tauto.
Qed.

Lemma row_rate_quotient eval_dataset c s :
  Z.of_nat (length (ds_getitem_all eval_dataset)) < 2 ^ 63 ->
  0 < count_samples (selected s) (ds_getitem_all eval_dataset) ->
  row_rate eval_dataset c s =
  F32.div
    (F32.of_int (count_samples (fun x => misclassified c x && selected s x)
                               (ds_getitem_all eval_dataset)))
    (F32.of_int (count_samples (selected s) (ds_getitem_all eval_dataset))) /\
  is_finite (row_rate eval_dataset c s).
Proof.
  intros Hlen Hsel. unfold row_rate.
  pose proof (count_samples_le_length (selected s) (ds_getitem_all eval_dataset)).
  pose proof (count_samples_and_le (misclassified c) (selected s)
                (ds_getitem_all eval_dataset)).
  pose proof (count_samples_nonneg (fun x => misclassified c x && selected s x)
                (ds_getitem_all eval_dataset)).
  pose proof (div_of_int_finite
                (count_samples (fun x => misclassified c x && selected s x)
                               (ds_getitem_all eval_dataset))
                (count_samples (selected s) (ds_getitem_all eval_dataset))
                ltac:(lia) ltac:(lia)) as Hfin.
  rewrite is_nan_false by by apply is_finite_not_nan. done.
Qed.

(** On a view whose length fits an int64 every rate is a zero or a finite
    number. *)
Lemma row_rate_finite eval_dataset c s :
  Z.of_nat (length (ds_getitem_all eval_dataset)) < 2 ^ 63 ->
  is_finite (row_rate eval_dataset c s).
Proof.
  intros Hlen.
  pose proof (count_samples_nonneg (selected s) (ds_getitem_all eval_dataset)) as H0.
  destruct (decide (count_samples (selected s) (ds_getitem_all eval_dataset) = 0))
    as [Hz|Hnz].
  - by rewrite row_rate_zero_selection.
  - apply row_rate_quotient; [done|lia].
Qed.

Lemma zip_with_rates_not_nan eval_dataset (classifiers selectors : matrix) :
  Forall not_nan (zip_with (row_rate eval_dataset) classifiers selectors).
Proof.
  apply Forall_lookup_2. intros k r Hk.
  apply lookup_zip_with_Some in Hk as (c & s & -> & _ & _).
  apply row_rate_not_nan.
Qed.

(** C1: in every call to [evaluate] whose rates are computed, the rate of a
    row whose selector selects no sample of the evaluation view is exactly 1,
    no rate is NaN (nor, on a view whose length fits an int64, infinite), and
    [torch.min] over the rates, when there is one, returns the first position
    of a minimum; with one selector per classifier the rates are computed,
    one per row. *)
Theorem evaluate_zero_selection_rate_one eval_dataset (classifiers selectors : matrix) :
  (forall rate,
     conditional_error_rate eval_dataset classifiers selectors = Ok rate ->
     (forall k r s,
        rate !! k = Some r ->
        broadcast_lookup selectors k = Some s ->
        count_samples (selected s) (ds_getitem_all eval_dataset) = 0 ->
        r = F32.one) /\
     Forall (fun r => F32.is_nan r = false) rate /\
     (Z.of_nat (length (ds_getitem_all eval_dataset)) < 2 ^ 63 ->
      Forall is_finite rate) /\
     (rate <> [] -> exists m k, torch_min rate = Ok (m, k) /\ first_minimum rate k)) /\
  (length classifiers = length selectors ->
   exists rate,
     conditional_error_rate eval_dataset classifiers selectors = Ok rate /\
     length rate = length classifiers).
Proof.
  split.
  - intros rate Hrate.
    pose proof (conditional_error_rate_not_nan _ _ _ _ Hrate) as Hnn.
    split; [|split; [|split]].
    + intros k r s Hk Hs Hzero.
      destruct (conditional_error_rate_lookup _ _ _ _ _ _ Hrate Hk)
        as (c & s' & _ & Hs' & ->).
      rewrite Hs in Hs'. injection Hs' as <-. by apply row_rate_zero_selection.
    + apply Forall_lookup_2. intros j r Hj. apply is_nan_false.
      by eapply Forall_lookup_1.
    + intros Hfit. apply Forall_lookup_2. intros j r Hj.
      destruct (conditional_error_rate_lookup _ _ _ _ _ _ Hrate Hj)
        as (c & s & _ & _ & ->).
      by apply row_rate_finite.
    + intros Hne. by apply torch_min_first_minimum.
  - intros Hlen. eexists. split; [by apply conditional_error_rate_rows|].
    rewrite length_zip_with. lia.
Qed.

(** C2: on a view whose length fits an int64, in every call to [evaluate]
    whose rates are computed, the rate of a row whose selector selects at
    least one sample is the float32 quotient of the number of samples that
    are misclassified by the row's classifier and selected by its selector, by
    the number of samples its selector selects; with one selector per
    classifier the rates are computed, one per row. *)
Theorem evaluate_rate_is_quotient eval_dataset (classifiers selectors : matrix) :
  Z.of_nat (length (ds_getitem_all eval_dataset)) < 2 ^ 63 ->
  (forall rate k r c s,
     conditional_error_rate eval_dataset classifiers selectors = Ok rate ->
     rate !! k = Some r ->
     broadcast_lookup classifiers k = Some c ->
     broadcast_lookup selectors k = Some s ->
     0 < count_samples (selected s) (ds_getitem_all eval_dataset) ->
     r = F32.div
           (F32.of_int (count_samples (fun x => misclassified c x && selected s x)
                                      (ds_getitem_all eval_dataset)))
           (F32.of_int (count_samples (selected s) (ds_getitem_all eval_dataset)))) /\
  (length classifiers = length selectors ->
   exists rate,
     conditional_error_rate eval_dataset classifiers selectors = Ok rate /\
     length rate = length classifiers).
Proof.
  intros Hfit. split.
  - intros rate k r c s Hrate Hk Hc Hs Hsel.
    destruct (conditional_error_rate_lookup _ _ _ _ _ _ Hrate Hk)
      as (c' & s' & Hc' & Hs' & ->).
    rewrite Hc in Hc'. rewrite Hs in Hs'. injection Hc' as <-. injection Hs' as <-.
    by apply row_rate_quotient.
  - intros Hlen. eexists. split; [by apply conditional_error_rate_rows|].
    rewrite length_zip_with. lia.
Qed.

Lemma evaluate_inv eval_dataset (classifiers selectors : matrix) c s :
  evaluate eval_dataset classifiers selectors = Ok (c, s) ->
  exists rate m k,
    conditional_error_rate eval_dataset classifiers selectors = Ok rate /\
    torch_min rate = Ok (m, k) /\
    classifiers !! k = Some c /\
    selectors !! k = Some s.
Proof.
  unfold evaluate, getitem. intros H.
  destruct (conditional_error_rate _ _ _) as [rate|err]; [|done].
  cbn [mbind result_bind] in H.
  destruct (torch_min rate) as [[m k]|err] eqn:Emin; [|done].
  cbn [mbind result_bind] in H.
  destruct (classifiers !! k) as [c'|] eqn:Ec; [|done]. cbn [mbind result_bind] in H.
  destruct (selectors !! k) as [s'|] eqn:Es; [|done]. injection H as <- <-.
  by exists rate, m, k.
Qed.

(** C3: whenever [evaluate] returns, the pair is the classifier and the
    selector at the first position of a minimum of the rates, and when every
    selector selects no sample every rate is 1 and the pair is row 0; with at
    least one classifier row and one selector per classifier, [evaluate]
    returns. *)
Theorem evaluate_returns_first_minimum eval_dataset (classifiers selectors : matrix) :
  (forall c s,
     evaluate eval_dataset classifiers selectors = Ok (c, s) ->
     exists rate k,
       conditional_error_rate eval_dataset classifiers selectors = Ok rate /\
       classifiers !! k = Some c /\
       selectors !! k = Some s /\
       first_minimum rate k /\
       ((forall s', s' ∈ selectors ->
           count_samples (selected s') (ds_getitem_all eval_dataset) = 0) ->
        (forall j r, rate !! j = Some r -> r = F32.one) /\ k = 0%nat)) /\
  (length classifiers = length selectors ->
   classifiers <> [] ->
   exists c s, evaluate eval_dataset classifiers selectors = Ok (c, s)).
Proof.
  split.
  - intros c s Hev.
    destruct (evaluate_inv _ _ _ _ _ Hev) as (rate & m & k & Hrate & Hmin & Hc & Hs).
    pose proof (conditional_error_rate_not_nan _ _ _ _ Hrate) as Hnn.
    destruct (torch_min_first_minimum rate Hnn) as (m' & k' & Hmin' & Hfirst).
    { intros ->. done. }
    rewrite Hmin in Hmin'. injection Hmin' as <- <-.
    exists rate, k. do 4 (split; [done|]).
    intros Hzero.
    assert (Hall : forall j r, rate !! j = Some r -> r = F32.one).
    { intros j r Hj.
      destruct (conditional_error_rate_lookup _ _ _ _ _ _ Hrate Hj)
        as (c' & s' & _ & Hs' & ->).
      apply row_rate_zero_selection, Hzero. by eapply broadcast_lookup_elem_of. }
    split; [done|].
    eapply (first_minimum_constant _ F32.one k); [done | exact Hall | exact Hfirst].
  - intros Hlen Hne.
    pose proof (conditional_error_rate_rows eval_dataset _ _ Hlen) as Hrate.
    destruct (torch_min_first_minimum (zip_with (row_rate eval_dataset) classifiers selectors))
      as (m & k & Hmin & Hfirst).
    { apply zip_with_rates_not_nan. }
    { destruct classifiers, selectors; done. }
    assert (Hk : (k < length classifiers)%nat).
    { destruct Hfirst as (rk & Hrk & _). apply lookup_lt_Some in Hrk.
      rewrite length_zip_with in Hrk. lia. }
    destruct (lookup_lt_is_Some_2 classifiers k Hk) as [c Hc].
    destruct (lookup_lt_is_Some_2 selectors k ltac:(lia)) as [s Hs].
    exists c, s. unfold evaluate, getitem. rewrite Hrate. cbn [mbind result_bind].
    rewrite Hmin. cbn [mbind result_bind]. by rewrite Hc, Hs.
Qed.

(** ** forward *)

Lemma bind_Ok_inv {A B} (m : result A) (f : A -> result B) b :
  m ≫= f = Ok b -> exists a, m = Ok a /\ f a = Ok b.
Proof. destruct m as [a|e]; [|done]. intros H. by exists a. Qed.

Lemma expand_row_length n (row r : vec) : expand_row n row = Ok r -> length r = n.
Proof.
  unfold expand_row. case_decide; [by intros [= <-]|].
  destruct row as [|x [|? ?]]; try done. intros [= <-]. by rewrite length_replicate.
Qed.

Lemma expand_row_same n (row : vec) : length row = n -> expand_row n row = Ok row.
Proof. intros H. unfold expand_row. by rewrite decide_True. Qed.

Lemma setrow_inv (t t' : matrix) i (row : vec) :
  setrow t i row = Ok t' ->
  exists old r, t !! i = Some old /\ expand_row (length old) row = Ok r /\ t' = <[i:=r]> t.
Proof.
  unfold setrow. destruct (t !! i) as [old|]; [|done].
  intros H. apply bind_Ok_inv in H as (r & Hr & [= <-]). eauto.
Qed.

Lemma evaluate_same_index eval_dataset (classifiers selectors : matrix) c s :
  evaluate eval_dataset classifiers selectors = Ok (c, s) ->
  exists k, classifiers !! k = Some c /\ selectors !! k = Some s.
Proof.
  unfold evaluate. intros H.
  apply bind_Ok_inv in H as (rate & _ & H).
  apply bind_Ok_inv in H as ([m k] & _ & H).
  apply bind_Ok_inv in H as (c' & Hc & H).
  apply bind_Ok_inv in H as (s' & Hs & [= <- <-]).
  unfold getitem in *. exists k.
  destruct (classifiers !! k); [|done]. destruct (selectors !! k); [|done].
  by injection Hc as <-; injection Hs as <-.
Qed.

(** [evaluate] succeeds on a table with at least one row and one selector per
    classifier, and returns the row at the first minimum of the rates. *)
Lemma evaluate_first_minimum eval_dataset (classifiers selectors : matrix) :
  length classifiers = length selectors ->
  classifiers <> [] ->
  exists k c s,
    evaluate eval_dataset classifiers selectors = Ok (c, s) /\
    classifiers !! k = Some c /\
    selectors !! k = Some s /\
    first_minimum (zip_with (row_rate eval_dataset) classifiers selectors) k.
Proof.
  intros Hlen Hne.
  pose proof (conditional_error_rate_rows eval_dataset _ _ Hlen) as Hrate.
  destruct (torch_min_first_minimum (zip_with (row_rate eval_dataset) classifiers selectors))
    as (m & k & Hmin & Hfirst).
  { apply zip_with_rates_not_nan. }
  { destruct classifiers, selectors; done. }
  assert (Hk : (k < length classifiers)%nat).
  { destruct Hfirst as (rk & Hrk & _). apply lookup_lt_Some in Hrk.
    rewrite length_zip_with in Hrk. lia. }
  destruct (lookup_lt_is_Some_2 classifiers k Hk) as [c Hc].
  destruct (lookup_lt_is_Some_2 selectors k ltac:(lia)) as [s Hs].
  exists k, c, s. split; [|done].
  unfold evaluate, getitem. rewrite Hrate. cbn [mbind result_bind].
  rewrite Hmin. cbn [mbind result_bind]. by rewrite Hc, Hs.
Qed.

Lemma train_selectors_inv data i classifiers e selectors e' :
  train_selectors data i classifiers e = Ok (selectors, e') ->
  exists cfg tr va g0 w',
    sp_dim_sample cfg = dim_sample (this e) /\
    selector_learner_call cfg tr va (init_weight (this e)) g0
      = Ok (selectors, w', generator e') /\
    this e' = if decide (data_device data = init_weight_device (this e))
              then set_init_weight (this e) w' else this e.
Proof.
  unfold train_selectors. intros H.
  apply bind_Ok_inv in H as ([[tr va] g0] & _ & H).
  apply bind_Ok_inv in H as ([[sel w'] g1] & Hcall & [= <- <-]).
  eexists _, tr, va, g0, w'. split; [|split; [exact Hcall|done]]. done.
Qed.

(** Only the content of [init_weight] can change in a training call. *)
Lemma train_selectors_dim_sample data i classifiers e selectors e' :
  train_selectors data i classifiers e = Ok (selectors, e') ->
  dim_sample (this e') = dim_sample (this e).
Proof.
  intros H. apply train_selectors_inv in H as (cfg & tr & va & g0 & w' & _ & _ & ->).
  by case_decide.
Qed.

Lemma forward_body_inv data eval_dataset i classifiers st st' :
  forward_body data eval_dataset i classifiers st = Ok st' ->
  exists c s oldc olds rc rs,
    cluster_best data eval_dataset i classifiers (env st) = Ok (c, s, env st') /\
    candidate_classifiers st !! i = Some oldc /\
    candidate_selectors st !! i = Some olds /\
    expand_row (length oldc) c = Ok rc /\
    expand_row (length olds) s = Ok rs /\
    candidate_classifiers st' = <[i:=rc]> (candidate_classifiers st) /\
    candidate_selectors st' = <[i:=rs]> (candidate_selectors st).
Proof.
  unfold forward_body, cluster_best. intros H.
  apply bind_Ok_inv in H as ([selectors e] & -> & H). cbn [mbind result_bind].
  apply bind_Ok_inv in H as ([c s] & -> & H). cbn [mbind result_bind].
  apply bind_Ok_inv in H as (cc & Hcc & H).
  apply bind_Ok_inv in H as (cs & Hcs & [= <-]).
  apply setrow_inv in Hcc as (oldc & rc & ? & ? & ->).
  apply setrow_inv in Hcs as (olds & rs & ? & ? & ->).
  exists c, s, oldc, olds, rc, rs. done.
Qed.

(** The loop from index [i] on: it computes the best pair of each cluster in
    input order, leaves the rows below [i] alone, keeps the shape of the
    table, and leaves the pair of the [j]-th remaining cluster in row [i + j]. *)
Lemma forward_loop_inv data eval_dataset clusters : forall i st st',
  forward_loop data eval_dataset i clusters st = Ok st' ->
  exists bests,
    cluster_bests data eval_dataset i clusters (env st) = Ok (bests, env st') /\
    length bests = length clusters /\
    length (candidate_classifiers st') = length (candidate_classifiers st) /\
    length (candidate_selectors st') = length (candidate_selectors st) /\
    (forall j, (j < i)%nat ->
       candidate_classifiers st' !! j = candidate_classifiers st !! j /\
       candidate_selectors st' !! j = candidate_selectors st !! j) /\
    (forall j c s, bests !! j = Some (c, s) ->
       exists oldc olds rc rs,
         candidate_classifiers st !! (i + j)%nat = Some oldc /\
         candidate_selectors st !! (i + j)%nat = Some olds /\
         expand_row (length oldc) c = Ok rc /\
         expand_row (length olds) s = Ok rs /\
         candidate_classifiers st' !! (i + j)%nat = Some rc /\
         candidate_selectors st' !! (i + j)%nat = Some rs).
Proof.
  induction clusters as [|cl rest IH]; intros i st st' H.
  - injection H as <-. exists []. by repeat split.
  - cbn [forward_loop] in H. apply bind_Ok_inv in H as (st1 & Hbody & Hloop).
    apply forward_body_inv in Hbody
      as (c & s & oldc & olds & rc & rs & Hbest & Hoc & Hos & Hrc & Hrs & Ecc & Ecs).
    destruct (IH _ _ _ Hloop) as (bests & Hbests & Hlen & Hlc & Hls & Hframe & Hrows).
    exists ((c, s) :: bests). cbn [cluster_bests].
    rewrite Hbest. cbn [mbind result_bind]. rewrite Hbests. cbn [mbind result_bind].
    rewrite Ecc, Ecs, !length_insert in *.
    split; [done|]. split; [simpl; lia|]. do 2 (split; [done|]). split.
    + intros j Hj. destruct (Hframe j ltac:(lia)) as [-> ->].
      rewrite !list_lookup_insert_ne by lia. done.
    + intros [|j] c' s' Hj.
      * injection Hj as <- <-. rewrite Nat.add_0_r.
        exists oldc, olds, rc, rs. do 4 (split; [done|]).
        destruct (Hframe i ltac:(lia)) as [-> ->].
        rewrite !list_lookup_insert_eq; [done|by eapply lookup_lt_Some..].
      * cbn [lookup list_lookup] in Hj.
        destruct (Hrows j c' s' Hj) as (oc & os & rc' & rs' & H1 & H2 & H3 & H4 & H5 & H6).
        rewrite !list_lookup_insert_ne in H1, H2 by lia.
        replace (i + S j)%nat with (S i + j)%nat by lia.
        exists oc, os, rc', rs'. done.
Qed.

Lemma setrow_same_length (t : matrix) i (old row : vec) :
  t !! i = Some old -> length row = length old -> setrow t i row = Ok (<[i:=row]> t).
Proof. intros Hi Hl. unfold setrow. rewrite Hi, expand_row_same by done. done. Qed.

Lemma cluster_bests_length data eval_dataset clusters : forall i e bests e',
  cluster_bests data eval_dataset i clusters e = Ok (bests, e') ->
  length bests = length clusters.
Proof.
  induction clusters as [|cl rest IH]; intros i e bests e' H.
  - by injection H as <- <-.
  - cbn [cluster_bests] in H.
    apply bind_Ok_inv in H as ([[c s] e1] & _ & H).
    apply bind_Ok_inv in H as ([bs e2] & Hbs & [= <- <-]).
    simpl. f_equal. by eapply IH.
Qed.

Lemma cluster_bests_dim_sample data eval_dataset clusters : forall i e bests e',
  cluster_bests data eval_dataset i clusters e = Ok (bests, e') ->
  dim_sample (this e') = dim_sample (this e).
Proof.
  induction clusters as [|cl rest IH]; intros i e bests e' H.
  - by injection H as <- <-.
  - cbn [cluster_bests] in H.
    apply bind_Ok_inv in H as ([[c s] e1] & Hbest & H).
    apply bind_Ok_inv in H as ([bs e2] & Hbs & [= <- <-]).
    rewrite (IH _ _ _ _ Hbs). unfold cluster_best in Hbest.
    apply bind_Ok_inv in Hbest as ([sel e0] & Htrain & Hbest).
    apply bind_Ok_inv in Hbest as ([c' s'] & _ & [= _ _ <-]).
    by eapply train_selectors_dim_sample.
Qed.

(** When the best pair of every cluster is computed and has the dimension of
    the rows of the table, the loop succeeds. *)
Lemma forward_loop_of_bests data eval_dataset (D : nat) clusters :
  forall i st bests e',
  cluster_bests data eval_dataset i clusters (env st) = Ok (bests, e') ->
  Forall (fun b => length b.1 = D /\ length b.2 = D) bests ->
  (i + length clusters <= length (candidate_classifiers st))%nat ->
  (i + length clusters <= length (candidate_selectors st))%nat ->
  Forall (fun row => length row = D) (candidate_classifiers st) ->
  Forall (fun row => length row = D) (candidate_selectors st) ->
  exists st', forward_loop data eval_dataset i clusters st = Ok st'.
Proof.
  induction clusters as [|cl rest IH]; intros i st bests e' H Hdim Hlc Hls Hfc Hfs.
  - by eexists.
  - cbn [cluster_bests] in H.
    apply bind_Ok_inv in H as ([[c s] e1] & Hbest & H).
    apply bind_Ok_inv in H as ([bs e2] & Hbs & [= <- <-]).
    apply Forall_cons_1 in Hdim as [[Hc Hs] Hdim]. simpl in Hc, Hs, Hlc, Hls.
    destruct (lookup_lt_is_Some_2 (candidate_classifiers st) i ltac:(lia)) as [oldc Hoc].
    destruct (lookup_lt_is_Some_2 (candidate_selectors st) i ltac:(lia)) as [olds Hos].
    pose proof (Forall_lookup_1 _ _ _ _ Hfc Hoc) as Hloc.
    pose proof (Forall_lookup_1 _ _ _ _ Hfs Hos) as Hlos. simpl in Hloc, Hlos.
    cbn [forward_loop]. unfold forward_body.
    unfold cluster_best in Hbest.
    apply bind_Ok_inv in Hbest as ([selectors e0] & -> & Hbest). cbn [mbind result_bind].
    apply bind_Ok_inv in Hbest as ([c' s'] & -> & [= -> -> ->]). cbn [mbind result_bind].
    rewrite (setrow_same_length (candidate_classifiers st) i oldc c) by (done || lia).
    cbn [mbind result_bind].
    rewrite (setrow_same_length (candidate_selectors st) i olds s) by (done || lia).
    cbn [mbind result_bind].
    eapply IH; cbn [env candidate_classifiers candidate_selectors];
      [exact Hbs | done | rewrite length_insert; lia | rewrite length_insert; lia | |].
    + apply Forall_insert; done.
    + apply Forall_insert; done.
Qed.

(** C4: when the clusters are processed in input order without error and
    their best pairs have dimension [dim_sample], [forward] on a nonempty
    cluster list is the single final [evaluate] over the table that holds
    one best pair per cluster, in cluster order, and it returns a pair of
    vectors of dimension [dim_sample]. *)
Theorem forward_is_final_evaluate data clusters e bests e' :
  clusters <> [] ->
  0 <= dim_sample (this e) ->
  cluster_bests data (TransformedDataset data None) 0 clusters e = Ok (bests, e') ->
  Forall (fun b => length b.1 = Z.to_nat (dim_sample (this e)) /\
                   length b.2 = Z.to_nat (dim_sample (this e))) bests ->
  length bests = length clusters /\
  forward data clusters e =
    ('(c, s) ← evaluate (TransformedDataset data None) bests.*1 bests.*2; Ok (c, s, e')) /\
  exists c s,
    forward data clusters e = Ok (c, s, e') /\
    length c = Z.to_nat (dim_sample (this e)) /\
    length s = Z.to_nat (dim_sample (this e)).
Proof.
  intros Hne HD Hbests Hdim.
  pose proof (cluster_bests_length _ _ _ _ _ _ _ Hbests) as Hlen.
  set (D := Z.to_nat (dim_sample (this e))) in *.
  set (eval_dataset := TransformedDataset data None) in *.
  set (st0 := {| candidate_classifiers := replicate (length clusters) (replicate D F32.zero);
                 candidate_selectors := replicate (length clusters) (replicate D F32.zero);
                 env := e |}).
  destruct (forward_loop_of_bests data eval_dataset D clusters 0 st0 bests e')
    as [st' Hloop]; cbn [st0 env candidate_classifiers candidate_selectors];
    [done | done | rewrite length_replicate; lia | rewrite length_replicate; lia | | |].
  { apply Forall_replicate. by rewrite length_replicate. }
  { apply Forall_replicate. by rewrite length_replicate. }
  destruct (forward_loop_inv _ _ _ _ _ _ Hloop)
    as (bests' & Hb' & _ & Hlc & Hls & _ & Hrows).
  cbn [st0 env candidate_classifiers candidate_selectors] in Hb', Hlc, Hls, Hrows.
  rewrite Hbests in Hb'. injection Hb' as <- He.
  rewrite length_replicate in Hlc, Hls.
  assert (Hcc : candidate_classifiers st' = bests.*1).
  { apply list_eq_same_length with (length clusters); [by rewrite length_fmap | done |].
    intros j x y Hj Hx Hy. rewrite list_lookup_fmap in Hy.
    destruct (bests !! j) as [[c s]|] eqn:Ej; [|done]. injection Hy as <-.
    destruct (Hrows j c s Ej) as (oc & os & rc & rs & H1 & _ & H3 & _ & H5 & _).
    simpl in H1, H5. apply lookup_replicate in H1 as [-> _].
    pose proof (Forall_lookup_1 _ _ _ _ Hdim Ej) as [Hc _]. simpl in Hc.
    rewrite expand_row_same in H3 by (by rewrite length_replicate). congruence. }
  assert (Hcs : candidate_selectors st' = bests.*2).
  { apply list_eq_same_length with (length clusters); [by rewrite length_fmap | done |].
    intros j x y Hj Hx Hy. rewrite list_lookup_fmap in Hy.
    destruct (bests !! j) as [[c s]|] eqn:Ej; [|done]. injection Hy as <-.
    destruct (Hrows j c s Ej) as (oc & os & rc & rs & _ & H2 & _ & H4 & _ & H6).
    simpl in H2, H6. apply lookup_replicate in H2 as [-> _].
    pose proof (Forall_lookup_1 _ _ _ _ Hdim Ej) as [_ Hs]. simpl in Hs.
    rewrite expand_row_same in H4 by (by rewrite length_replicate). congruence. }
  assert (Hfwd : forward data clusters e =
    ('(c, s) ← evaluate eval_dataset bests.*1 bests.*2; Ok (c, s, e'))).
  { unfold forward, torch_zeros2, torch_zeros. rewrite decide_False by lia.
    cbn [mbind result_bind]. fold D. fold eval_dataset. fold st0. rewrite Hloop.
    cbn [mbind result_bind]. by rewrite Hcc, Hcs, He. }
  split; [done|]. split; [done|].
  destruct (evaluate_first_minimum eval_dataset bests.*1 bests.*2)
    as (k & c & s & Hev & Hc & Hs & _).
  { by rewrite !length_fmap. }
  { destruct bests, clusters; done. }
  exists c, s. rewrite Hfwd, Hev. split; [done|].
  rewrite list_lookup_fmap in Hc, Hs.
  destruct (bests !! k) as [b|] eqn:Ek; [|done].
  injection Hc as <-. injection Hs as <-.
  by pose proof (Forall_lookup_1 _ _ _ _ Hdim Ek) as [? ?].
Qed.

Lemma cluster_bests_lookup data eval_dataset clusters :
  forall i e bests e' j c s,
  cluster_bests data eval_dataset i clusters e = Ok (bests, e') ->
  bests !! j = Some (c, s) ->
  exists cl pre e_j e_j',
    clusters !! j = Some cl /\
    cluster_bests data eval_dataset i (take j clusters) e = Ok (pre, e_j) /\
    cluster_best data eval_dataset (i + j) cl e_j = Ok (c, s, e_j').
Proof.
  induction clusters as [|cl rest IH]; intros i e bests e' j c s H Hj.
  - injection H as <- <-. done.
  - cbn [cluster_bests] in H.
    apply bind_Ok_inv in H as ([[c0 s0] e1] & Hbest & H).
    apply bind_Ok_inv in H as ([bs e2] & Hbs & [= <- <-]).
    destruct j as [|j].
    + injection Hj as <- <-. exists cl, [], e, e1. rewrite Nat.add_0_r. done.
    + cbn [lookup list_lookup] in Hj.
      destruct (IH _ _ _ _ _ _ _ Hbs Hj) as (cl' & pre & e_j & e_j' & H1 & H2 & H3).
      exists cl', ((c0, s0) :: pre), e_j, e_j'. split; [done|]. split.
      * cbn [take cluster_bests]. rewrite Hbest. cbn [mbind result_bind].
        rewrite H2. done.
      * by replace (i + S j)%nat with (S i + j)%nat by lia.
Qed.

(** C5: when every classifier row has dimension [dim_sample], and so has
    every selector row a trainer built for that dimension returns, the pair
    [forward] returns is a dense classifier row of some input cluster [i]
    together with the selector that the training of that same cluster
    returned at the same row index [k]. *)
Theorem forward_pair_originates data clusters e c s e' :
  (forall cl row, cl ∈ clusters -> row ∈ to_dense cl ->
     length row = Z.to_nat (dim_sample (this e))) ->
  (forall cfg tr va w g0 sel w' g1 row,
     sp_dim_sample cfg = dim_sample (this e) ->
     selector_learner_call cfg tr va w g0 = Ok (sel, w', g1) -> row ∈ sel ->
     length row = Z.to_nat (dim_sample (this e))) ->
  forward data clusters e = Ok (c, s, e') ->
  exists i cl pre e_i selectors e_i' k,
    clusters !! i = Some cl /\
    cluster_bests data (TransformedDataset data None) 0 (take i clusters) e
      = Ok (pre, e_i) /\
    train_selectors data i cl e_i = Ok (selectors, e_i') /\
    to_dense cl !! k = Some c /\
    selectors !! k = Some s.
Proof.
  intros Hcl Hsel H. unfold forward, torch_zeros2, torch_zeros in H.
  destruct (decide (dim_sample (this e) < 0)); [done|]. cbn [mbind result_bind] in H.
  set (D := Z.to_nat (dim_sample (this e))) in *.
  set (eval_dataset := TransformedDataset data None) in *.
  apply bind_Ok_inv in H as (st' & Hloop & H).
  apply bind_Ok_inv in H as ([c' s'] & Hev & [= -> -> <-]).
  apply evaluate_same_index in Hev as (i & Hc & Hs).
  destruct (forward_loop_inv _ _ _ _ _ _ Hloop)
    as (bests & Hbests & Hlen & Hlc & _ & _ & Hrows).
  cbn [env candidate_classifiers candidate_selectors] in *.
  rewrite length_replicate in Hlc.
  assert (is_Some (bests !! i)) as [[c0 s0] Hb].
  { apply lookup_lt_is_Some. apply lookup_lt_Some in Hc. lia. }
  destruct (Hrows i c0 s0 Hb) as (oc & os & rc & rs & H1 & H2 & H3 & H4 & H5 & H6).
  simpl in H1, H2, H5, H6.
  apply lookup_replicate in H1 as [-> _]. apply lookup_replicate in H2 as [-> _].
  rewrite length_replicate in H3, H4.
  destruct (cluster_bests_lookup _ _ _ _ _ _ _ _ _ _ Hbests Hb)
    as (cl & pre & e_i & e_i' & Hi & Hpre & Hbest).
  unfold cluster_best in Hbest. simpl in Hbest.
  apply bind_Ok_inv in Hbest as ([selectors e1] & Htrain & Hbest).
  apply bind_Ok_inv in Hbest as ([c1 s1] & Hev & [= -> -> ->]).
  apply evaluate_same_index in Hev as (k & Hk1 & Hk2).
  assert (length c0 = D).
  { eapply Hcl; by eapply list_elem_of_lookup_2. }
  assert (length s0 = D).
  { destruct (train_selectors_inv _ _ _ _ _ _ Htrain)
      as (cfg & tr & va & g0 & w' & Hcfg & Hcall & _).
    eapply Hsel; [|exact Hcall|by eapply list_elem_of_lookup_2].
    rewrite Hcfg. by eapply cluster_bests_dim_sample. }
  rewrite expand_row_same in H3, H4 by done.
  assert (c = c0) by congruence. assert (s = s0) by congruence. subst c s.
  exists i, cl, pre, e_i, selectors, e_i', k. done.
Qed.


Lemma py_slice_range {A} (l : list A) lo hi :
  0 <= lo <= hi -> hi <= Z.of_nat (length l) ->
  py_slice l lo hi = take (Z.to_nat (hi - lo)) (drop (Z.to_nat lo) l).
Proof.
  intros H1 H2. unfold py_slice, py_clip.
  rewrite !decide_False by lia. by rewrite !Z.min_l by lia.
Qed.

(** The split of a view of length [L] at [0 <= a <= L]. *)
Lemma random_split_sizes ds a g :
  (forall n g0, length (randperm n g0).1 = n) ->
  0 <= a <= Z.of_nat (ds_len ds) ->
  exists tr va g',
    random_split ds a (Z.of_nat (ds_len ds) - a) g = Ok (tr, va, g') /\
    Z.of_nat (subset_len tr) = a /\
    Z.of_nat (subset_len va) = Z.of_nat (ds_len ds) - a /\
    sub_indices tr ++ sub_indices va = (randperm (ds_len ds) g).1.
Proof.
  intros Hperm Ha. set (L := Z.of_nat (ds_len ds)) in *.
  assert (Hfrac : (if decide (a + (L - a) = 1)
                   then if decide (0 <= a <= 1 /\ 0 <= L - a <= 1)
                        then Ok (L * a, L * (L - a))
                        else Raise (ValueError "Fraction is not between 0 and 1")
                   else Ok (a, L - a)) = Ok (a, L - a)).
  { case_decide; [|done]. rewrite decide_True by lia. f_equal. f_equal; nia. }
  unfold random_split. fold L. rewrite Hfrac. cbn [mbind result_bind].
  rewrite decide_True by lia.
  replace (Z.to_nat (a + (L - a))) with (ds_len ds) by lia.
  specialize (Hperm (ds_len ds) g).
  destruct (randperm (ds_len ds) g) as [indices g'] eqn:E. simpl in Hperm.
  do 3 eexists. split; [done|]. unfold subset_len. cbn [sub_indices].
  rewrite !py_slice_range by lia.
  replace (a - (a - a)) with a by lia. replace (Z.to_nat (a - a)) with 0%nat by lia.
  replace (a + (L - a) - (a + (L - a) - (L - a))) with (L - a) by lia.
  replace (a + (L - a) - (L - a)) with a by lia.
  rewrite drop_0, !length_take, !length_drop.
  split; [lia|]. split; [lia|].
  rewrite (take_ge (drop _ _)) by (rewrite length_drop; lia).
  by rewrite take_drop.
Qed.

(** C8: for a cluster view of length [L] and [0 <= sample_size_psgd <= L],
    the split in [forward] succeeds, the training split has exactly
    [sample_size_psgd] samples and the validation split exactly
    [L - sample_size_psgd], the trainer is called on these two splits, and
    for [sample_size_psgd = L] the validation split is empty. *)
Theorem forward_split_sizes data i classifiers e :
  (forall n g0, length (randperm n g0).1 = n) ->
  0 <= sample_size_psgd (this e)
    <= Z.of_nat (ds_len (TransformedDataset data (Some classifiers))) ->
  exists tr va g' cfg,
    random_split (TransformedDataset data (Some classifiers)) (sample_size_psgd (this e))
      (Z.of_nat (ds_len (TransformedDataset data (Some classifiers)))
       - sample_size_psgd (this e)) (generator e) = Ok (tr, va, g') /\
    Z.of_nat (subset_len tr) = sample_size_psgd (this e) /\
    Z.of_nat (subset_len va) =
      Z.of_nat (ds_len (TransformedDataset data (Some classifiers)))
      - sample_size_psgd (this e) /\
    train_selectors data i classifiers e =
      ('(selectors, w, g) ← selector_learner_call cfg tr va (init_weight (this e)) g';
       Ok (selectors,
           Build_store (if decide (data_device data = init_weight_device (this e))
                        then set_init_weight (this e) w else this e) g)) /\
    (sample_size_psgd (this e)
       = Z.of_nat (ds_len (TransformedDataset data (Some classifiers))) ->
     sub_indices va = []).
Proof.
  intros Hperm Ha.
  destruct (random_split_sizes _ _ (generator e) Hperm Ha)
    as (tr & va & g' & Hsplit & Htr & Hva & _).
  exists tr, va, g'. eexists. split; [done|]. do 2 (split; [done|]). split.
  - unfold train_selectors. rewrite Hsplit. cbn [mbind result_bind]. reflexivity.
  - intros Heq. apply length_zero_iff_nil. unfold subset_len in Hva. lia.
Qed.


(** ** Rounding to nearest, in full *)

Lemma iter_pos_nat {A} (f : A -> A) p : forall x,
  SpecFloat.iter_pos f p x = Nat.iter (Pos.to_nat p) f x.
Proof.
  induction p as [p IH|p IH|]; intros x; cbn [SpecFloat.iter_pos].
  - rewrite !IH, Pos2Nat.inj_xI, <- Nat.iter_add, <- Nat.iter_succ_r.
    f_equal. lia.
  - rewrite !IH, Pos2Nat.inj_xO, <- Nat.iter_add. f_equal. lia.
  - done.
Qed.

Lemma shr_1_record m r s : 0 <= m ->
  shr_1 {| shr_m := m; shr_r := r; shr_s := s |} =
  {| shr_m := m / 2; shr_r := Z.odd m; shr_s := r || s |}.
Proof.
  intros Hm. destruct m as [|[p|p|]|]; cbn [shr_1]; try lia; f_equal.
  - rewrite Pos2Z.inj_xI. apply Z.div_unique with 1; lia.
  - rewrite Pos2Z.inj_xO. apply Z.div_unique with 0; lia.
Qed.

(** [j + 1] steps of the shift from an exact start: the quotient by
    [2 ^ (j + 1)], the round bit (digit [j]) and the sticky bit (whether a
    digit below [j] is set). *)
Lemma iter_shr_1_exact n j : 0 <= n ->
  Nat.iter (S j) shr_1 {| shr_m := n; shr_r := false; shr_s := false |} =
  {| shr_m := n / 2 ^ Z.of_nat (S j);
     shr_r := Z.odd (n / 2 ^ Z.of_nat j);
     shr_s := negb (n mod 2 ^ Z.of_nat j =? 0) |}.
Proof.
  intros Hn. induction j as [|j IH].
  - cbn [Nat.iter]. rewrite shr_1_record by done.
    change (2 ^ Z.of_nat 1) with 2. change (2 ^ Z.of_nat 0) with 1.
    by rewrite Z.div_1_r, Z.mod_1_r.
  - rewrite Nat.iter_succ, IH.
    assert (Hp : 0 < 2 ^ Z.of_nat j) by (apply Z.pow_pos_nonneg; lia).
    assert (Hp1 : 2 ^ Z.of_nat (S j) = 2 ^ Z.of_nat j * 2).
    { rewrite Nat2Z.inj_succ, Z.pow_succ_r by lia. lia. }
    assert (Hp2 : 2 ^ Z.of_nat (S (S j)) = 2 ^ Z.of_nat (S j) * 2).
    { rewrite (Nat2Z.inj_succ (S j)), Z.pow_succ_r by lia. lia. }
    rewrite shr_1_record by (apply Z.div_pos; lia).
    f_equal.
    + rewrite Hp2, <- Z.div_div by lia. done.
    + rewrite Hp1, Z.rem_mul_r by lia. rewrite Zmod_odd.
      pose proof (Z.mod_pos_bound n (2 ^ Z.of_nat j) Hp) as Hb.
      destruct (Z.odd (n / 2 ^ Z.of_nat j)); cbn [orb].
      * symmetry. apply negb_true_iff, Z.eqb_neq. lia.
      * by rewrite Z.mul_0_r, Z.add_0_r.
Qed.

Lemma Zdigits2_eq m b : 2 ^ (b - 1) <= m < 2 ^ b -> 0 < m -> Zdigits2 m = b.
Proof.
  intros [Hlo Hhi] Hm.
  destruct (Zdigits2_bounds m Hm) as [Dlo Dhi].
  pose proof (Zdigits2_pos m Hm) as Hd.
  assert (Hb : 0 < b).
  { destruct (Z.lt_ge_cases 0 b) as [|Hb0]; [done|].
    assert (2 ^ b <= 2 ^ 0) by (apply Z.pow_le_mono_r; lia).
    change (2 ^ 0) with 1 in *. lia. }
  destruct (Z.lt_trichotomy (Zdigits2 m) b) as [Hlt|[Heq|Hgt]]; [|done|].
  - assert (2 ^ Zdigits2 m <= 2 ^ (b - 1)) by (apply Z.pow_le_mono_r; lia). lia.
  - assert (2 ^ b <= 2 ^ (Zdigits2 m - 1)) by (apply Z.pow_le_mono_r; lia). lia.
Qed.

(** The number of digits the first step of rounding drops from a mantissa
    of at least 24 digits. *)
Lemma fexp_shift m e : 2 ^ 23 <= m -> -149 <= e ->
  fexp 24 128 (Zdigits2 m + e) - e = Zdigits2 m - 24 /\ 0 <= Zdigits2 m - 24.
Proof.
  intros Hm He.
  assert (24 <= Zdigits2 m).
  { destruct (Z.le_gt_cases 24 (Zdigits2 m)) as [|Hlt]; [done|].
    destruct (Zdigits2_bounds m ltac:(lia)) as [_ Hhi].
    assert (2 ^ Zdigits2 m <= 2 ^ 23) by (apply Z.pow_le_mono_r; lia). lia. }
  unfold fexp, emin. lia.
Qed.

Lemma shr_fexp_normal m e l : 2 ^ 23 <= m -> -149 <= e ->
  shr_m (shr_fexp 24 128 m e l).1 = m / 2 ^ (Zdigits2 m - 24) /\
  (shr_fexp 24 128 m e l).2 = e + (Zdigits2 m - 24) /\
  2 ^ 23 <= m / 2 ^ (Zdigits2 m - 24) < 2 ^ 24.
Proof.
  intros Hm He. destruct (fexp_shift m e Hm He) as [Hk Hk0].
  unfold shr_fexp. rewrite Hk.
  destruct (shr_m_spec (shr_record_of_loc m l) e (Zdigits2 m - 24)) as [H1 H2].
  { rewrite shr_record_of_loc_m. lia. }
  rewrite H1, H2, shr_record_of_loc_m, Z.max_l by lia.
  split; [done|]. split; [done|].
  destruct (Zdigits2_bounds m ltac:(lia)) as [Hlo Hhi].
  set (k := Zdigits2 m - 24) in *.
  assert (Hp : 0 < 2 ^ k) by (apply Z.pow_pos_nonneg; lia).
  assert (E1 : 2 ^ (Zdigits2 m - 1) = 2 ^ k * 2 ^ 23).
  { rewrite <- Z.pow_add_r by lia. f_equal. lia. }
  assert (E2 : 2 ^ Zdigits2 m = 2 ^ k * 2 ^ 24).
  { rewrite <- Z.pow_add_r by lia. f_equal. lia. }
  split.
  - apply Z.div_le_lower_bound; lia.
  - apply Z.div_lt_upper_bound; lia.
Qed.

Lemma round_mantissa_bounds m e l : 2 ^ 23 <= m -> -149 <= e ->
  m / 2 ^ (Zdigits2 m - 24) <= round_mantissa m e l <= m / 2 ^ (Zdigits2 m - 24) + 1.
Proof.
  intros Hm He. destruct (shr_fexp_normal m e l Hm He) as (H1 & _ & _).
  unfold round_mantissa. rewrite <- H1. apply round_nearest_even_bounds.
Qed.

(** Rounding to nearest from an exact start: the mantissa goes up only from
    the upper half of its interval and stays only in the lower half. *)
Lemma round_mantissa_exact m e : 2 ^ 23 <= m -> -149 <= e ->
  (round_mantissa m e loc_Exact = m / 2 ^ (Zdigits2 m - 24) + 1 ->
   2 ^ (Zdigits2 m - 24) <= 2 * (m mod 2 ^ (Zdigits2 m - 24))) /\
  (round_mantissa m e loc_Exact = m / 2 ^ (Zdigits2 m - 24) ->
   2 * (m mod 2 ^ (Zdigits2 m - 24)) <= 2 ^ (Zdigits2 m - 24)).
Proof.
  intros Hm He. destruct (fexp_shift m e Hm He) as [Hk Hk0].
  unfold round_mantissa, shr_fexp. rewrite Hk.
  destruct (Zdigits2 m - 24) as [|p|p] eqn:Ek; [| |lia].
  - cbn [shr fst shr_record_of_loc shr_m loc_of_shr_record round_nearest_even].
    rewrite Z.pow_0_r, Z.div_1_r, Z.mod_1_r. lia.
  - cbn [shr fst shr_record_of_loc]. rewrite iter_pos_nat.
    destruct (Pos2Nat.is_succ p) as [j Hj]. rewrite Hj.
    rewrite iter_shr_1_exact by lia.
    assert (Ep : Z.pos p = Z.of_nat (S j)) by lia. rewrite Ep.
    assert (Hp : 0 < 2 ^ Z.of_nat j) by (apply Z.pow_pos_nonneg; lia).
    assert (Hp1 : 2 ^ Z.of_nat (S j) = 2 ^ Z.of_nat j * 2).
    { rewrite Nat2Z.inj_succ, Z.pow_succ_r by lia. lia. }
    pose proof (Z.mod_pos_bound m (2 ^ Z.of_nat j) Hp) as Hb.
    assert (Hrem : m mod 2 ^ Z.of_nat (S j) =
                   m mod 2 ^ Z.of_nat j
                   + 2 ^ Z.of_nat j * (if Z.odd (m / 2 ^ Z.of_nat j) then 1 else 0)).
    { rewrite Hp1, Z.rem_mul_r by lia. by rewrite Zmod_odd. }
    rewrite Hrem, Hp1.
    destruct (Z.odd (m / 2 ^ Z.of_nat j));
      destruct (Z.eqb_spec (m mod 2 ^ Z.of_nat j) 0) as [E0|E0];
      cbn [negb shr_m loc_of_shr_record round_nearest_even];
      try destruct (Z.even _); lia.
Qed.

(** What rounding returns on a mantissa of at least 24 digits: the rounded
    mantissa at the exponent of the cut, or [2 ^ 23] one exponent higher
    when rounding carried into a 25th digit. *)
Lemma binary_round_aux_normal s m e l :
  2 ^ 23 <= m -> -149 <= e -> e + (Zdigits2 m - 24) + 1 <= 104 ->
  binary_round_aux 24 128 s m e l =
  if decide (round_mantissa m e l = 2 ^ 24)
  then S754_finite s 8388608 (e + (Zdigits2 m - 24) + 1)
  else S754_finite s (Z.to_pos (round_mantissa m e l)) (e + (Zdigits2 m - 24)).
Proof.
  intros Hm He Hb.
  destruct (shr_fexp_normal m e l Hm He) as (H1 & H2 & H3).
  pose proof (round_mantissa_bounds m e l Hm He) as Hr.
  unfold binary_round_aux. unfold round_mantissa in *.
  destruct (shr_fexp 24 128 m e l) as [mrs' e']. cbn [fst snd] in *. subst e'.
  set (r := round_nearest_even (shr_m mrs') (loc_of_shr_record mrs')) in *.
  set (k := Zdigits2 m - 24) in *.
  assert (Hr23 : 2 ^ 23 <= r) by lia.
  destruct (shr_fexp_normal r (e + k) loc_Exact Hr23 ltac:(pose proof (fexp_shift m e Hm He); lia))
    as (G1 & G2 & G3).
  destruct (shr_fexp 24 128 r (e + k) loc_Exact) as [mrs'' e'']. cbn [fst snd] in *.
  rewrite G1, G2.
  case_decide as Hcarry.
  - rewrite Hcarry. change (Zdigits2 (2 ^ 24)) with 25.
    change (2 ^ 24 / 2 ^ (25 - 24)) with (Z.pos 8388608).
    cbn match. replace (e + k + (25 - 24) <=? 128 - 24) with true; [done|].
    symmetry. apply Z.leb_le. lia.
  - assert (Hd : Zdigits2 r = 24).
    { apply Zdigits2_eq; [|lia]. change (2 ^ (24 - 1)) with (2 ^ 23). lia. }
    rewrite Hd. change (24 - 24) with 0. rewrite Z.pow_0_r, Z.div_1_r, Z.add_0_r.
    destruct r as [|q|q] eqn:Er; [lia| |lia].
    cbn match. replace (e + k <=? 128 - 24) with true; [done|].
    symmetry. apply Z.leb_le. lia.
Qed.

(** [F32.of_int] rounds the integer itself, shifted left to 24 digits when
    it has fewer. *)
Lemma of_int_round n : 0 < n < 2 ^ 63 ->
  F32.of_int n =
    binary_round_aux 24 128 false (n * 2 ^ Z.max 0 (24 - Zdigits2 n))
                     (- Z.max 0 (24 - Zdigits2 n)) loc_Exact /\
  Zdigits2 (n * 2 ^ Z.max 0 (24 - Zdigits2 n)) = Z.max (Zdigits2 n) 24 /\
  1 <= Zdigits2 n <= 63.
Proof.
  intros [Hn Hb]. destruct n as [|p|p]; try lia.
  pose proof (Zdigits2_bounds (Z.pos p) Hn) as [Hlo Hhi].
  pose proof (Zdigits2_le_pow2 (Z.pos p) 63 Hn Hb) as Hd.
  pose proof (Zdigits2_pos (Z.pos p) Hn) as Hpos.
  set (d := Zdigits2 (Z.pos p)) in *.
  assert (Hdig : Zdigits2 (Z.pos p * 2 ^ Z.max 0 (24 - d)) = Z.max d 24).
  { set (sh := Z.max 0 (24 - d)).
    assert (0 < 2 ^ sh) by (apply Z.pow_pos_nonneg; lia).
    apply Zdigits2_eq; [|nia].
    replace (Z.max d 24 - 1) with (d - 1 + sh) by lia.
    replace (Z.max d 24) with (d + sh) by lia.
    rewrite !Z.pow_add_r by lia. nia. }
  split; [|split; [done|lia]].
  unfold F32.of_int, F32.prec, F32.emax, binary_normalize, binary_round, shl_align.
  change (Z.pos (digits2_pos p)) with d.
  assert (Hfexp : fexp 24 128 (d + 0) = d - 24) by (unfold fexp, emin; lia).
  rewrite Hfexp, Z.sub_0_r.
  destruct (d - 24) as [|q|q] eqn:Ed.
  - replace (Z.max 0 (24 - d)) with 0 by lia. by rewrite Z.pow_0_r, Z.mul_1_r.
  - replace (Z.max 0 (24 - d)) with 0 by lia. by rewrite Z.pow_0_r, Z.mul_1_r.
  - replace (Z.max 0 (24 - d)) with (Z.pos q) by lia.
    by rewrite Pos_iter_xO.
Qed.

(** The float32 of a positive int64, in full: with [d] the number of digits
    of [n], [M] the integer brought to at least 24 digits and [r] its
    rounded mantissa, it is [r * 2 ^ (d - 24)], written with a mantissa of
    exactly 24 digits. *)
Lemma of_int_cases n : 0 < n < 2 ^ 63 ->
  let d := Zdigits2 n in
  let sh := Z.max 0 (24 - d) in
  let k := Z.max 0 (d - 24) in
  let r := round_mantissa (n * 2 ^ sh) (- sh) loc_Exact in
  1 <= d <= 63 /\
  2 ^ 23 <= n * 2 ^ sh / 2 ^ k < 2 ^ 24 /\
  n * 2 ^ sh / 2 ^ k <= r <= n * 2 ^ sh / 2 ^ k + 1 /\
  (r = n * 2 ^ sh / 2 ^ k + 1 -> 2 ^ k <= 2 * ((n * 2 ^ sh) mod 2 ^ k)) /\
  (r = n * 2 ^ sh / 2 ^ k -> 2 * ((n * 2 ^ sh) mod 2 ^ k) <= 2 ^ k) /\
  F32.of_int n = if decide (r = 2 ^ 24)
                 then S754_finite false 8388608 (d - 23)
                 else S754_finite false (Z.to_pos r) (d - 24).
Proof.
  intros Hn. destruct (of_int_round n Hn) as (Hround & Hdig & Hd).
  intros d sh k r. fold d sh in Hround, Hdig. 
  set (M := n * 2 ^ sh) in *.
  assert (Hsh : 0 < 2 ^ sh) by (apply Z.pow_pos_nonneg; lia).
  assert (HM : 2 ^ 23 <= M).
  { destruct (Zdigits2_bounds M ltac:(nia)) as [Hlo _]. rewrite Hdig in Hlo.
    assert (2 ^ 23 <= 2 ^ (Z.max d 24 - 1)) by (apply Z.pow_le_mono_r; lia). lia. }
  assert (Hk : Zdigits2 M - 24 = k) by lia.
  destruct (shr_fexp_normal M (- sh) loc_Exact HM ltac:(lia)) as (_ & _ & H3).
  pose proof (round_mantissa_bounds M (- sh) loc_Exact HM ltac:(lia)) as H4.
  destruct (round_mantissa_exact M (- sh) HM ltac:(lia)) as [H5 H6].
  rewrite Hk in *. fold r in H4, H5, H6.
  split; [done|]. split; [done|]. split; [done|]. split; [done|]. split; [done|].
  rewrite Hround, binary_round_aux_normal by lia. fold r. rewrite Hk.
  replace (- sh + k + 1) with (d - 23) by lia.
  replace (- sh + k) with (d - 24) by lia. done.
Qed.

Lemma of_int_normal n : 0 < n < 2 ^ 63 -> normal_float (-23) 40 (F32.of_int n).
Proof.
  intros Hn. destruct (of_int_cases n Hn) as (Hd & Hlo & Hr & _ & _ & ->).
  case_decide as Hc; cbn [normal_float].
  - change (Z.pos 8388608) with (2 ^ 23). change (2 ^ 24) with (2 * 2 ^ 23). lia.
  - rewrite Z2Pos.id by lia. lia.
Qed.

Lemma Zdigits2_mono a b : 0 < a <= b -> Zdigits2 a <= Zdigits2 b.
Proof.
  intros H. rewrite !Zdigits2_log2 by lia. pose proof (Z.log2_le_mono a b). lia.
Qed.

Lemma normal_float_not_nan lo hi x : normal_float lo hi x -> not_nan x.
Proof. by destruct x. Qed.

(** The conversion of int64 counts to float32 keeps their order. *)
Lemma of_int_mono a b : 0 < a -> a <= b -> b < 2 ^ 63 ->
  SFleb (F32.of_int a) (F32.of_int b) = true.
Proof.
  intros Ha Hab Hb.
  apply SFleb_key.
  { apply (normal_float_not_nan (-23) 40), of_int_normal. lia. }
  { apply (normal_float_not_nan (-23) 40), of_int_normal. lia. }
  pose proof (of_int_cases a ltac:(lia)) as Ca. cbv zeta in Ca.
  destruct Ca as (Hda & Hloa & Hra & Hupa & Hdna & ->).
  pose proof (of_int_cases b ltac:(lia)) as Cb. cbv zeta in Cb.
  destruct Cb as (Hdb & Hlob & Hrb & Hupb & Hdnb & ->).
  pose proof (Zdigits2_mono a b ltac:(lia)) as Hdd.
  destruct (decide (Zdigits2 a = Zdigits2 b)) as [Heq|Hne].
  - rewrite <- Heq in *.
    set (sh := Z.max 0 (24 - Zdigits2 a)) in *.
    set (k := Z.max 0 (Zdigits2 a - 24)) in *.
    assert (Hsh : 0 < 2 ^ sh) by (apply Z.pow_pos_nonneg; lia).
    assert (Hk : 0 < 2 ^ k) by (apply Z.pow_pos_nonneg; lia).
    assert (HM : a * 2 ^ sh <= b * 2 ^ sh) by nia.
    set (Ma := a * 2 ^ sh) in *. set (Mb := b * 2 ^ sh) in *.
    pose proof (Z.div_le_mono Ma Mb (2 ^ k) Hk HM) as Hlo.
    pose proof (Z.div_mod Ma (2 ^ k) ltac:(lia)) as Da.
    pose proof (Z.div_mod Mb (2 ^ k) ltac:(lia)) as Db.
    set (ra := round_mantissa Ma (- sh) loc_Exact) in *.
    set (rb := round_mantissa Mb (- sh) loc_Exact) in *.
    assert (Hr : ra <= rb).
    { destruct (decide (Ma / 2 ^ k = Mb / 2 ^ k)) as [Hsame|Hdiff]; [|lia].
      destruct (decide (ra <= rb)) as [|Hgt]; [done|]. exfalso.
      assert (H1 : ra = Ma / 2 ^ k + 1) by lia.
      assert (H2 : rb = Mb / 2 ^ k) by lia.
      specialize (Hupa H1). specialize (Hdnb H2).
      rewrite Hsame in Da.
      assert (Ma = Mb) by lia.
      unfold ra, rb in Hgt. replace Mb with Ma in Hgt. lia. }
    repeat case_decide; cbn [SFkey]; unfold key_lt; cbn [fst snd];
      rewrite ?Z2Pos.id by lia; lia.
  - repeat case_decide; cbn [SFkey]; unfold key_lt; cbn [fst snd];
      rewrite ?Z2Pos.id by lia; change (Z.pos 8388608) with (2 ^ 23); lia.
Qed.

(** The float32 quotient of two positive numbers with full mantissas, the
    first at most the second, is at most 1 (and again a positive number with
    a full mantissa). *)
Lemma div_normal_le_one x y :
  normal_float (-23) 40 x -> normal_float (-23) 40 y -> SFleb x y = true ->
  SFleb (F32.div x y) F32.one = true /\ normal_float (-87) (-23) (F32.div x y).
Proof.
  intros Hx Hy Hle.
  apply SFleb_key in Hle; [|by eapply normal_float_not_nan..].
  destruct x as [| | |[] ma ea]; try done. destruct y as [| | |[] mb eb]; try done.
  cbn [normal_float SFkey] in *. unfold key_lt in Hle. cbn [fst snd] in Hle.
  destruct Hx as [Hma Hea]. destruct Hy as [Hmb Heb].
  assert (Hlex : ea < eb \/ (ea = eb /\ Z.pos ma <= Z.pos mb)) by lia. clear Hle.
  assert (Hda : Zdigits2 (Z.pos ma) = 24) by (apply Zdigits2_eq; [done|lia]).
  assert (Hdb : Zdigits2 (Z.pos mb) = 24) by (apply Zdigits2_eq; [done|lia]).
  unfold F32.div, F32.prec, F32.emax, SFdiv, SFdiv_core_binary.
  rewrite Hda, Hdb.
  assert (He' : Z.min (fexp 24 128 (24 + ea - (24 + eb))) (ea - eb) = ea - eb - 24)
    by (unfold fexp, emin; lia).
  rewrite He'. replace (ea - eb - (ea - eb - 24)) with 24 by lia.
  rewrite Z.shiftl_mul_pow2 by lia.
  pose proof (Z_div_mod (Z.pos ma * 2 ^ 24) (Z.pos mb) ltac:(lia)) as Hqr.
  destruct (Z.div_eucl (Z.pos ma * 2 ^ 24) (Z.pos mb)) as [q r].
  destruct Hqr as [Hq Hr].
  change (2 ^ (24 - 1)) with (2 ^ 23) in *.
  assert (Hq23 : 2 ^ 23 <= q) by nia.
  assert (Hq25 : q < 2 ^ 25) by nia.
  set (e := ea - eb - 24) in *. cbn [xorb].
  pose proof (Zdigits2_le_pow2 q 25 ltac:(lia) Hq25) as Hdq.
  destruct (fexp_shift q e Hq23 ltac:(lia)) as [_ Hdq0].
  rewrite binary_round_aux_normal by lia.
  pose proof (round_mantissa_bounds q e (new_location (Z.pos mb) r) Hq23 ltac:(lia)) as Hrm.
  destruct (shr_fexp_normal q e (new_location (Z.pos mb) r) Hq23 ltac:(lia)) as (_ & _ & Hlo).
  set (k := Zdigits2 q - 24) in *.
  set (rr := round_mantissa q e (new_location (Z.pos mb) r)) in *.
  assert (Hone : (rr = 2 ^ 24 -> e + k + 1 <= -23) /\
                 (rr <> 2 ^ 24 -> e + k <= -23 /\ (e + k = -23 -> rr = 2 ^ 23))).
  { destruct Hlex as [Hlt|[-> Hm]]; [lia|].
    assert (Hq24 : q <= 2 ^ 24) by nia.
    destruct (decide (q = 2 ^ 24)) as [->|Hne].
    - assert (Hr0 : r = 0) by nia.
      assert (Hl : new_location (Z.pos mb) r = loc_Exact).
      { rewrite Hr0. unfold new_location, new_location_even, new_location_odd.
        by destruct (Z.even _). }
      unfold rr, k in *. rewrite Hl in *.
      destruct (round_mantissa_exact (2 ^ 24) e ltac:(lia) ltac:(lia)) as [Hup _].
      change (Zdigits2 (2 ^ 24)) with 25 in *.
      change (2 ^ 24 / 2 ^ (25 - 24)) with (2 ^ 23) in *.
      change (2 ^ 24 mod 2 ^ (25 - 24)) with 0 in Hup.
      change (2 ^ (25 - 24)) with 2 in Hup.
      assert (Hrr : round_mantissa (2 ^ 24) e loc_Exact = 2 ^ 23).
      { destruct (decide (round_mantissa (2 ^ 24) e loc_Exact = 2 ^ 23 + 1)) as [Hc|Hc];
          [specialize (Hup Hc); lia | lia]. }
      rewrite Hrr. split; [intros Habs; discriminate Habs|]. intros _. unfold e. lia.
    - assert (Hd24 : Zdigits2 q = 24) by (apply Zdigits2_eq; [|lia]; lia).
      unfold k in *. rewrite Hd24 in *. unfold e. lia. }
  destruct Hone as [Hexp Hman].
  case_decide as Hc.
  - specialize (Hexp Hc). split.
    + apply SFleb_key; [done..|]. cbn [SFkey F32.one]. unfold key_lt. cbn [fst snd]. lia.
    + cbn [normal_float]. change (Z.pos 8388608) with (2 ^ 23).
      change (2 ^ 24) with (2 * 2 ^ 23). lia.
  - assert (Hpos : 0 < rr) by lia.
    destruct (Hman Hc) as [Hexp' Hman'].
    split.
    + apply SFleb_key; [done..|]. cbn [SFkey F32.one]. unfold key_lt. cbn [fst snd].
      rewrite Z2Pos.id by lia. change (Z.pos 8388608) with (2 ^ 23). lia.
    + cbn [normal_float]. rewrite Z2Pos.id by lia. lia.
Qed.

(** ** The range of the conditional error rates *)

(** The three shapes of a conditional error rate on a view whose length fits
    an int64: 1 when the selector selects nothing, +0 when it selects some
    samples and the classifier errs on none of them, and otherwise a
    positive number with a full mantissa that is at most 1. *)
Lemma row_rate_cases eval_dataset c s :
  Z.of_nat (length (ds_getitem_all eval_dataset)) < 2 ^ 63 ->
  (count_samples (selected s) (ds_getitem_all eval_dataset) = 0 /\
   row_rate eval_dataset c s = F32.one) \/
  (error_free eval_dataset c s /\ row_rate eval_dataset c s = S754_zero false) \/
  (0 < count_samples (fun x => misclassified c x && selected s x)
                     (ds_getitem_all eval_dataset) /\
   normal_float (-87) (-23) (row_rate eval_dataset c s) /\
   SFleb (row_rate eval_dataset c s) F32.one = true).
Proof.
  intros Hfit. unfold error_free.
  pose proof (count_samples_le_length (selected s) (ds_getitem_all eval_dataset)) as Hb.
  pose proof (count_samples_and_le (misclassified c) (selected s)
                (ds_getitem_all eval_dataset)) as Hab.
  pose proof (count_samples_nonneg (fun x => misclassified c x && selected s x)
                (ds_getitem_all eval_dataset)) as Ha.
  destruct (decide (count_samples (selected s) (ds_getitem_all eval_dataset) = 0))
    as [Hz|Hnz]; [left; split; [done|by apply row_rate_zero_selection]|].
  right. unfold row_rate.
  set (a := count_samples (fun x => misclassified c x && selected s x)
                          (ds_getitem_all eval_dataset)) in *.
  set (b := count_samples (selected s) (ds_getitem_all eval_dataset)) in *.
  pose proof (of_int_normal b ltac:(lia)) as Nb.
  destruct (decide (a = 0)) as [Ha0|Ha0].
  - left. split; [lia|]. rewrite Ha0.
    destruct (F32.of_int b) as [| | |[] mb eb]; done.
  - right. split; [lia|].
    destruct (div_normal_le_one (F32.of_int a) (F32.of_int b)) as [Hle Hn];
      [apply of_int_normal; lia | done | apply of_int_mono; lia |].
    rewrite is_nan_false by (by eapply normal_float_not_nan). done.
Qed.

(** X7: on a view whose length fits an int64, every conditional error rate that
    [evaluate] computes lies between 0 and 1 in the float32 order. *)
Theorem evaluate_rates_in_unit_interval eval_dataset (classifiers selectors : matrix) rate :
  Z.of_nat (length (ds_getitem_all eval_dataset)) < 2 ^ 63 ->
  conditional_error_rate eval_dataset classifiers selectors = Ok rate ->
  Forall (fun r => F32.ge r F32.zero = true /\ F32.ge F32.one r = true) rate.
Proof.
  intros Hfit Hrate. apply Forall_lookup_2. intros k r Hk.
  destruct (conditional_error_rate_lookup _ _ _ _ _ _ Hrate Hk) as (c & s & _ & _ & ->).
  unfold F32.ge.
  destruct (row_rate_cases eval_dataset c s Hfit) as [[_ ->]|[[_ ->]|(_ & Hn & Hle)]].
  - done.
  - done.
  - split; [|done]. by destruct (row_rate eval_dataset c s) as [| | |[] m e].
Qed.

(** X8: when some row makes no error on the samples it selects (and selects at
    least one), [evaluate] returns the first such row. *)
Theorem evaluate_returns_first_error_free eval_dataset (classifiers selectors : matrix)
    c s j cj sj :
  Z.of_nat (length (ds_getitem_all eval_dataset)) < 2 ^ 63 ->
  length classifiers = length selectors ->
  evaluate eval_dataset classifiers selectors = Ok (c, s) ->
  classifiers !! j = Some cj -> selectors !! j = Some sj ->
  error_free eval_dataset cj sj ->
  exists k,
    (k <= j)%nat /\ classifiers !! k = Some c /\ selectors !! k = Some s /\
    error_free eval_dataset c s /\
    forall i ci si, (i < k)%nat ->
      classifiers !! i = Some ci -> selectors !! i = Some si ->
      ~ error_free eval_dataset ci si.
Proof.
  intros Hfit Hlen Hev Hcj Hsj Hfree.
  destruct (evaluate_inv _ _ _ _ _ Hev) as (rate & m & k & Hrate & Hmin & Hc & Hs).
  rewrite conditional_error_rate_rows in Hrate by done. injection Hrate as <-.
  destruct (torch_min_first_minimum (zip_with (row_rate eval_dataset) classifiers selectors))
    as (m' & k' & Hmin' & rk & Hrk & Hfirst).
  { apply zip_with_rates_not_nan. }
  { intros Hnil. by rewrite Hnil in Hmin. }
  rewrite Hmin in Hmin'. injection Hmin' as <- <-.
  assert (Hlook : forall i ci si, classifiers !! i = Some ci -> selectors !! i = Some si ->
            zip_with (row_rate eval_dataset) classifiers selectors !! i
              = Some (row_rate eval_dataset ci si)).
  { intros i ci si Hci Hsi. apply lookup_zip_with_Some. by exists ci, si. }
  rewrite (Hlook _ _ _ Hc Hs) in Hrk. injection Hrk as <-.
  assert (Hzero : forall ci si, error_free eval_dataset ci si ->
            row_rate eval_dataset ci si = S754_zero false).
  { intros ci si [Hb Ha].
    destruct (row_rate_cases eval_dataset ci si Hfit) as [[Hz _]|[[_ ->]|(Hpos & _)]];
      [lia | done | lia]. }
  destruct (Hfirst j _ (Hlook _ _ _ Hcj Hsj)) as [Hge Hlt].
  rewrite (Hzero _ _ Hfree) in Hge, Hlt. unfold F32.ge, F32.lt in *.
  assert (Hks : error_free eval_dataset c s /\ row_rate eval_dataset c s = S754_zero false).
  { destruct (row_rate_cases eval_dataset c s Hfit) as [[_ E]|[H|(_ & Hn & _)]].
    - rewrite E in Hge. done.
    - done.
    - by destruct (row_rate eval_dataset c s) as [| | |[] mr er]. }
  destruct Hks as [Hfree_k Ek]. rewrite Ek in *.
  exists k. split.
  { destruct (decide (k <= j)%nat) as [|Hgt]; [done|].
    specialize (Hlt ltac:(lia)). done. }
  do 3 (split; [done|]).
  intros i ci si Hi Hci Hsi Hfree_i.
  destruct (Hfirst i _ (Hlook _ _ _ Hci Hsi)) as [_ Hlt_i].
  specialize (Hlt_i Hi). rewrite (Hzero _ _ Hfree_i) in Hlt_i. done.
Qed.

(** ** Further properties of the constructor, [evaluate] and [forward] *)

(** The slices [random_split] takes of the permutation, for the two lengths
    [forward] passes: the first [py_clip L s] indices and the rest. *)
Lemma py_slice_prefix {A} (l : list A) s :
  py_slice l (s - s) s = take (Z.to_nat (py_clip (Z.of_nat (length l)) s)) l.
Proof.
  unfold py_slice. replace (s - s) with 0 by lia.
  assert (H0 : py_clip (Z.of_nat (length l)) 0 = 0).
  { unfold py_clip. rewrite decide_False by lia. lia. }
  rewrite H0, Z.sub_0_r. by rewrite drop_0.
Qed.

Lemma py_clip_range len i : 0 <= len -> 0 <= py_clip len i <= len.
Proof. intros H. unfold py_clip. case_decide; lia. Qed.

Lemma py_slice_suffix {A} (l : list A) s b :
  s + b = Z.of_nat (length l) ->
  py_slice l (s + b - b) (s + b) = drop (Z.to_nat (py_clip (Z.of_nat (length l)) s)) l.
Proof.
  intros Hsum. unfold py_slice. replace (s + b - b) with s by lia. rewrite Hsum.
  pose proof (py_clip_range (Z.of_nat (length l)) s ltac:(lia)) as Hs.
  assert (HL : py_clip (Z.of_nat (length l)) (Z.of_nat (length l)) = Z.of_nat (length l)).
  { unfold py_clip. rewrite decide_False by lia. lia. }
  rewrite HL. apply take_ge. rewrite length_drop. lia.
Qed.

(** X2: the split [forward] asks for never fails on a view of length other than
    1, whatever [sample_size_psgd] is: the two lengths it passes always sum
    to the length of the view.  The training split takes the first
    [min(s, L)] indices of the permutation (all but the last [-s] for a
    negative [s]) and the validation split the rest, so a
    [sample_size_psgd] above [L] silently trains on the whole view.  On a
    view of length 1 the lengths sum to 1 and are read as fractions: any
    [sample_size_psgd] other than 0 and 1 is refused. *)
Theorem forward_split_any_size ds s g :
  (forall n g0, length (randperm n g0).1 = n) ->
  (Z.of_nat (ds_len ds) <> 1 \/ 0 <= s <= 1 ->
   exists tr va,
     random_split ds s (Z.of_nat (ds_len ds) - s) g
       = Ok (tr, va, (randperm (ds_len ds) g).2) /\
     sub_indices tr ++ sub_indices va = (randperm (ds_len ds) g).1 /\
     Z.of_nat (subset_len tr) = py_clip (Z.of_nat (ds_len ds)) s /\
     (Z.of_nat (ds_len ds) <= s -> sub_indices va = [])) /\
  (Z.of_nat (ds_len ds) = 1 -> ~ 0 <= s <= 1 ->
   random_split ds s (Z.of_nat (ds_len ds) - s) g
     = Raise (ValueError "Fraction is not between 0 and 1")).
Proof.
  intros Hperm. set (L := Z.of_nat (ds_len ds)). split.
  - intros Hs.
    assert (Hfrac : (if decide (s + (L - s) = 1)
                     then if decide (0 <= s <= 1 /\ 0 <= L - s <= 1)
                          then Ok (L * s, L * (L - s))
                          else Raise (ValueError "Fraction is not between 0 and 1")
                     else Ok (s, L - s)) = Ok (s, L - s)).
    { case_decide; [|done]. rewrite decide_True by lia. f_equal. f_equal; nia. }
    unfold random_split. fold L. rewrite Hfrac. cbn [mbind result_bind].
    rewrite decide_True by lia.
    replace (Z.to_nat (s + (L - s))) with (ds_len ds) by lia.
    specialize (Hperm (ds_len ds) g).
    destruct (randperm (ds_len ds) g) as [indices g'] eqn:E. simpl in Hperm.
    do 2 eexists. split; [done|]. unfold subset_len. cbn [sub_indices fst snd].
    rewrite py_slice_prefix, py_slice_suffix by lia. rewrite Hperm. fold L.
    pose proof (py_clip_range L s ltac:(lia)) as Hclip.
    split; [apply take_drop|]. split.
    + rewrite length_take. lia.
    + intros Hge. apply drop_ge. unfold py_clip. rewrite decide_False by lia. lia.
  - intros HL Hs. unfold random_split. fold L.
    rewrite decide_True by lia. by rewrite decide_False by lia.
Qed.

(** The loop over a concatenation is the loop over the first part followed
    by the loop over the second, at the index the first part ends. *)
Lemma forward_loop_app data eval_dataset pre : forall rest i st,
  forward_loop data eval_dataset i (pre ++ rest) st =
  (st1 ← forward_loop data eval_dataset i pre st;
   forward_loop data eval_dataset (i + length pre) rest st1).
Proof.
  induction pre as [|cl pre IH]; intros rest i st.
  - cbn [app forward_loop mbind result_bind length]. by rewrite Nat.add_0_r.
  - cbn [app forward_loop length].
    destruct (forward_body data eval_dataset i cl st) as [st1|err]; [|done].
    cbn [mbind result_bind]. rewrite IH. by replace (S i + length pre)%nat
      with (i + S (length pre))%nat by lia.
Qed.

(** An iteration raises what the training or the evaluation of its cluster
    raises. *)
Lemma forward_body_raise data eval_dataset i classifiers st ex :
  cluster_best data eval_dataset i classifiers (env st) = Raise ex ->
  forward_body data eval_dataset i classifiers st = Raise ex.
Proof.
  unfold cluster_best, forward_body.
  destruct (train_selectors _ _ _ _) as [[selectors e1]|err];
    cbn [mbind result_bind]; [|by intros [= ->]].
  destruct (evaluate _ _ _) as [[c s]|err]; cbn [mbind result_bind];
    [done|by intros [= ->]].
Qed.

(** The tables [forward] allocates. *)
Lemma forward_unfold data clusters e :
  0 <= dim_sample (this e) ->
  forward data clusters e =
  (st ← forward_loop data (TransformedDataset data None) 0 clusters
         {| candidate_classifiers :=
              replicate (length clusters)
                        (replicate (Z.to_nat (dim_sample (this e))) F32.zero);
            candidate_selectors :=
              replicate (length clusters)
                        (replicate (Z.to_nat (dim_sample (this e))) F32.zero);
            env := e |};
   '(c, s) ← evaluate (TransformedDataset data None)
               (candidate_classifiers st) (candidate_selectors st);
   Ok (c, s, env st)).
Proof.
  intros HD. unfold forward, torch_zeros2, torch_zeros.
  by rewrite decide_False by lia.
Qed.

(** X3: [forward] stops at the first cluster whose training or evaluation
    raises: when the clusters before it yield best pairs of dimension
    [dim_sample], the exception of that cluster is the exception of
    [forward], whatever clusters follow it. *)
Theorem forward_first_failure data pre cl rest e bests e1 ex :
  0 <= dim_sample (this e) ->
  cluster_bests data (TransformedDataset data None) 0 pre e = Ok (bests, e1) ->
  Forall (fun b => length b.1 = Z.to_nat (dim_sample (this e)) /\
                   length b.2 = Z.to_nat (dim_sample (this e))) bests ->
  cluster_best data (TransformedDataset data None) (length pre) cl e1 = Raise ex ->
  forward data (pre ++ cl :: rest) e = Raise ex.
Proof.
  intros HD Hbests Hdim Hfail. rewrite forward_unfold by done.
  set (D := Z.to_nat (dim_sample (this e))) in *.
  set (ev := TransformedDataset data None) in *.
  set (st0 := {| candidate_classifiers := _; candidate_selectors := _; env := e |}).
  rewrite forward_loop_app.
  destruct (forward_loop_of_bests data ev D pre 0 st0 bests e1) as [st1 Hloop];
    cbn [st0 env candidate_classifiers candidate_selectors];
    [done | done | rewrite length_replicate, length_app; lia
     | rewrite length_replicate, length_app; lia | | |].
  { apply Forall_replicate. by rewrite length_replicate. }
  { apply Forall_replicate. by rewrite length_replicate. }
  rewrite Hloop. cbn [mbind result_bind forward_loop].
  destruct (forward_loop_inv _ _ _ _ _ _ Hloop) as (bests' & Hb' & _).
  cbn [st0 env] in Hb'. rewrite Hbests in Hb'. injection Hb' as _ He.
  rewrite (forward_body_raise data ev (0 + length pre) cl st1 ex); [done|].
  by rewrite <- He.
Qed.

(** X4: whenever [forward] returns, the cluster list was not empty, every
    cluster was trained and evaluated (in input order, the store threaded
    from one to the next), and both vectors returned have dimension
    [dim_sample], which the learner keeps. *)
Theorem forward_returns_dim_sample data clusters e c s e' :
  forward data clusters e = Ok (c, s, e') ->
  clusters <> [] /\
  0 <= dim_sample (this e) /\
  length c = Z.to_nat (dim_sample (this e)) /\
  length s = Z.to_nat (dim_sample (this e)) /\
  dim_sample (this e') = dim_sample (this e) /\
  exists bests,
    cluster_bests data (TransformedDataset data None) 0 clusters e = Ok (bests, e') /\
    length bests = length clusters.
Proof.
  intros H.
  assert (HD : 0 <= dim_sample (this e)).
  { unfold forward, torch_zeros2, torch_zeros in H.
    destruct (decide (dim_sample (this e) < 0)); [done|lia]. }
  rewrite forward_unfold in H by done.
  set (D := Z.to_nat (dim_sample (this e))) in *.
  apply bind_Ok_inv in H as (st' & Hloop & H).
  apply bind_Ok_inv in H as ([c' s'] & Hev & [= -> -> <-]).
  apply evaluate_same_index in Hev as (k & Hc & Hs).
  destruct (forward_loop_inv _ _ _ _ _ _ Hloop)
    as (bests & Hbests & Hlen & Hlc & _ & _ & Hrows).
  cbn [env candidate_classifiers candidate_selectors] in *.
  rewrite length_replicate in Hlc.
  assert (Hk : (k < length clusters)%nat).
  { apply lookup_lt_Some in Hc. lia. }
  assert (is_Some (bests !! k)) as [[c0 s0] Hb].
  { apply lookup_lt_is_Some. lia. }
  destruct (Hrows k c0 s0 Hb) as (oc & os & rc & rs & H1 & H2 & H3 & H4 & H5 & H6).
  simpl in H1, H2, H5, H6.
  apply lookup_replicate in H1 as [-> _]. apply lookup_replicate in H2 as [-> _].
  rewrite length_replicate in H3, H4.
  apply expand_row_length in H3, H4.
  split; [intros ->; simpl in Hk; lia|]. split; [done|].
  split; [congruence|]. split; [congruence|].
  split; [by eapply cluster_bests_dim_sample|].
  by exists bests.
Qed.

(** X5: how [evaluate] fails on ill-shaped tables, and what it returns when the
    two tables have different numbers of rows: a shape error when the
    numbers of rows differ and neither is 1; the error of [torch.min] when
    broadcasting leaves no row; and, when one table has a single row that
    is broadcast against the other, only ever row 0 of both (the index of
    the minimum must exist in the one-row table). *)
Theorem evaluate_shape_errors eval_dataset (classifiers selectors : matrix) :
  (length classifiers <> length selectors ->
   length classifiers <> 1%nat -> length selectors <> 1%nat ->
   evaluate eval_dataset classifiers selectors
     = Raise (RuntimeError "The size of tensor a must match the size of tensor b")) /\
  ((classifiers = [] /\ (length selectors <= 1)%nat) \/
   (selectors = [] /\ (length classifiers <= 1)%nat) ->
   evaluate eval_dataset classifiers selectors
     = Raise (IndexError "min(): Expected reduction dim 0 to have non-zero size.")) /\
  (forall c s,
     length classifiers <> length selectors ->
     evaluate eval_dataset classifiers selectors = Ok (c, s) ->
     classifiers !! 0%nat = Some c /\ selectors !! 0%nat = Some s).
Proof.
  split; [|split].
  - intros Hne Hc Hs. unfold evaluate, conditional_error_rate, errors_of, selections_of,
      Classify, broadcast.
    rewrite decide_False by (by rewrite !length_map).
    destruct classifiers as [|c1 [|c2 cs]], selectors as [|s1 [|s2 ss]]; done.
  - intros [[-> Hs]|[-> Hc]].
    + by destruct selectors as [|s1 [|s2 ss]]; [| |simpl in Hs; lia].
    + by destruct classifiers as [|c1 [|c2 cs]]; [| |simpl in Hc; lia].
  - intros c s Hne Hev.
    destruct (evaluate_inv _ _ _ _ _ Hev) as (rate & m & k & Hrate & _ & Hc & Hs).
    assert (Hone : length classifiers = 1%nat \/ length selectors = 1%nat).
    { destruct (decide (length classifiers = 1%nat)) as [|Hc1]; [by left|].
      destruct (decide (length selectors = 1%nat)) as [|Hs1]; [by right|].
      exfalso. revert Hrate.
      unfold conditional_error_rate, errors_of, selections_of, Classify, broadcast.
      rewrite decide_False by (by rewrite !length_map).
      destruct classifiers as [|c1 [|c2 cs]], selectors as [|s1 [|s2 ss]]; done. }
    apply lookup_lt_Some in Hc as Hkc. apply lookup_lt_Some in Hs as Hks.
    assert (k = 0%nat) as -> by lia. done.
Qed.

(** X6: on a single cluster [forward] returns the best pair of that cluster: the
    final [evaluate] over a table of one row gives that row back. *)
Theorem forward_single_cluster data cl e c s e' :
  0 <= dim_sample (this e) ->
  cluster_best data (TransformedDataset data None) 0 cl e = Ok (c, s, e') ->
  length c = Z.to_nat (dim_sample (this e)) ->
  length s = Z.to_nat (dim_sample (this e)) ->
  forward data [cl] e = Ok (c, s, e').
Proof.
  intros HD Hbest Hc Hs. rewrite forward_unfold by done.
  cbn [forward_loop length replicate]. unfold forward_body.
  unfold cluster_best in Hbest.
  apply bind_Ok_inv in Hbest as ([selectors e0] & Htrain & Hbest).
  apply bind_Ok_inv in Hbest as ([c' s'] & Hev & [= -> -> ->]).
  cbn [env candidate_classifiers candidate_selectors].
  rewrite Htrain. cbn [mbind result_bind]. rewrite Hev. cbn [mbind result_bind].
  unfold setrow. cbn [lookup list_lookup].
  rewrite !expand_row_same by (by rewrite length_replicate).
  cbn [mbind result_bind list_insert insert candidate_classifiers candidate_selectors env].
  unfold evaluate. rewrite conditional_error_rate_rows by done.
  cbn [zip_with mbind result_bind torch_min].
  rewrite min_scan_cons. unfold F32.ge.
  rewrite SFleb_refl by apply row_rate_not_nan. done.
Qed.

(** ** The pair [forward] returns is a global minimum *)

Lemma SFleb_trans x y z : not_nan x -> not_nan y -> not_nan z ->
  SFleb x y = true -> SFleb y z = true -> SFleb x z = true.
Proof.
  intros Hx Hy Hz H1 H2.
  apply SFleb_key in H1; [|done..]. apply SFleb_key in H2; [|done..].
  apply SFleb_key; [done..|].
  destruct (SFkey x) as [[? ?] ?], (SFkey y) as [[? ?] ?], (SFkey z) as [[? ?] ?].
  unfold key_lt in *; simpl in *. lia.
Qed.

(** Broadcasting leaves at least as many rates as there are rows present in
    both tables. *)
Lemma conditional_error_rate_length eval_dataset (classifiers selectors : matrix) rate :
  conditional_error_rate eval_dataset classifiers selectors = Ok rate ->
  (Nat.min (length classifiers) (length selectors) <= length rate)%nat.
Proof.
  unfold conditional_error_rate, errors_of, selections_of, Classify. intros H.
  apply bind_Ok_inv in H as (prod & Hprod & H).
  apply bind_Ok_inv in H as (rate0 & Hrate & [= <-]).
  rewrite length_map.
  assert (Hp : (Nat.min (length classifiers) (length selectors) <= length prod)%nat /\
               (length selectors <= 1 \/ length selectors <= length prod)%nat).
  { revert Hprod. unfold broadcast. rewrite !length_map. case_decide as Hl.
    - intros [= <-]. rewrite length_zip_with, !length_map. lia.
    - destruct classifiers as [|c1 [|c2 cs]], selectors as [|s1 [|s2 ss]];
        try done; intros [= <-]; cbn [map length] in *; rewrite ?length_map; lia. }
  revert Hrate. unfold broadcast. rewrite !length_map. case_decide as Hl.
  - intros [= <-]. rewrite length_zip_with, !length_map. lia.
  - destruct prod as [|p1 [|p2 ps]], selectors as [|s1 [|s2 ss]];
      try done; intros [= <-]; cbn [map length] in *; rewrite ?length_map; lia.
Qed.

(** The pair [evaluate] returns has a rate no larger than that of any row
    present in both tables. *)
Lemma evaluate_minimal eval_dataset (classifiers selectors : matrix) c s j cj sj :
  evaluate eval_dataset classifiers selectors = Ok (c, s) ->
  classifiers !! j = Some cj -> selectors !! j = Some sj ->
  F32.ge (row_rate eval_dataset cj sj) (row_rate eval_dataset c s) = true.
Proof.
  intros Hev Hcj Hsj.
  destruct (evaluate_inv _ _ _ _ _ Hev) as (rate & m & k & Hrate & Hmin & Hc & Hs).
  pose proof (conditional_error_rate_not_nan _ _ _ _ Hrate) as Hnn.
  destruct (torch_min_first_minimum rate Hnn) as (m' & k' & Hmin' & rk & Hrk & Hfirst).
  { intros ->. done. }
  rewrite Hmin in Hmin'. injection Hmin' as <- <-.
  destruct (conditional_error_rate_lookup _ _ _ _ _ _ Hrate Hrk)
    as (c' & s' & Hc' & Hs' & ->).
  rewrite (broadcast_lookup_of_lookup _ _ _ Hc) in Hc'.
  rewrite (broadcast_lookup_of_lookup _ _ _ Hs) in Hs'.
  injection Hc' as <-. injection Hs' as <-.
  assert (is_Some (rate !! j)) as [rj Hrj].
  { apply lookup_lt_is_Some.
    pose proof (conditional_error_rate_length _ _ _ _ Hrate).
    apply lookup_lt_Some in Hcj, Hsj. lia. }
  destruct (Hfirst j rj Hrj) as [Hge _].
  destruct (conditional_error_rate_lookup _ _ _ _ _ _ Hrate Hrj)
    as (c' & s' & Hc' & Hs' & ->).
  rewrite (broadcast_lookup_of_lookup _ _ _ Hcj) in Hc'.
  rewrite (broadcast_lookup_of_lookup _ _ _ Hsj) in Hs'.
  injection Hc' as <-. injection Hs' as <-. done.
Qed.

(** The best pair of a cluster has the dimension of the cluster's rows. *)
Lemma cluster_best_dims data eval_dataset (D : nat) i cl e c s e' :
  (forall row, row ∈ to_dense cl -> length row = D) ->
  (forall cfg tr va w g0 sel w' g1 row,
     sp_dim_sample cfg = dim_sample (this e) ->
     selector_learner_call cfg tr va w g0 = Ok (sel, w', g1) -> row ∈ sel ->
     length row = D) ->
  cluster_best data eval_dataset i cl e = Ok (c, s, e') ->
  length c = D /\ length s = D.
Proof.
  intros Hcl Hsel Hbest. unfold cluster_best in Hbest.
  apply bind_Ok_inv in Hbest as ([selectors e1] & Htrain & Hbest).
  apply bind_Ok_inv in Hbest as ([c1 s1] & Hev & [= -> -> ->]).
  apply evaluate_same_index in Hev as (k & Hk1 & Hk2).
  split; [eapply Hcl; by eapply list_elem_of_lookup_2|].
  destruct (train_selectors_inv _ _ _ _ _ _ Htrain)
    as (cfg & tr & va & g0 & w' & Hcfg & Hcall & _).
  eapply Hsel; [exact Hcfg | exact Hcall | by eapply list_elem_of_lookup_2].
Qed.

Lemma cluster_bests_dims data eval_dataset (D : nat) dim clusters : forall i e bests e',
  dim_sample (this e) = dim ->
  (forall cl row, cl ∈ clusters -> row ∈ to_dense cl -> length row = D) ->
  (forall cfg tr va w g0 sel w' g1 row,
     sp_dim_sample cfg = dim ->
     selector_learner_call cfg tr va w g0 = Ok (sel, w', g1) -> row ∈ sel ->
     length row = D) ->
  cluster_bests data eval_dataset i clusters e = Ok (bests, e') ->
  Forall (fun b => length b.1 = D /\ length b.2 = D) bests.
Proof.
  induction clusters as [|cl rest IH]; intros i e bests e' Hdim Hcl Hsel H.
  - injection H as <- <-. constructor.
  - cbn [cluster_bests] in H.
    apply bind_Ok_inv in H as ([[c s] e1] & Hbest & H).
    apply bind_Ok_inv in H as ([bs e2] & Hbs & [= <- <-]).
    constructor.
    + eapply (cluster_best_dims data eval_dataset D i cl e); [| |exact Hbest].
      * intros row Hrow. eapply Hcl; [by left|done].
      * intros cfg tr va w g0 sel w' g1 row Hcfg. apply Hsel. by rewrite Hcfg.
    + eapply (IH (S i) e1); [| | |exact Hbs].
      * rewrite <- Hdim. unfold cluster_best in Hbest.
        apply bind_Ok_inv in Hbest as ([sel e0] & Htrain & Hbest).
        apply bind_Ok_inv in Hbest as ([c' s'] & _ & [= _ _ <-]).
        by eapply train_selectors_dim_sample.
      * intros cl' row Hcl'. apply Hcl. by right.
      * done.
Qed.

(** When the rows of the clusters and of the trained selectors have
    dimension [dim_sample], a run of [forward] that returns is the final
    [evaluate] over the best pairs of the clusters. *)
Lemma forward_inv data clusters e c s e' :
  (forall cl row, cl ∈ clusters -> row ∈ to_dense cl ->
     length row = Z.to_nat (dim_sample (this e))) ->
  (forall cfg tr va w g0 sel w' g1 row,
     sp_dim_sample cfg = dim_sample (this e) ->
     selector_learner_call cfg tr va w g0 = Ok (sel, w', g1) -> row ∈ sel ->
     length row = Z.to_nat (dim_sample (this e))) ->
  forward data clusters e = Ok (c, s, e') ->
  exists bests,
    cluster_bests data (TransformedDataset data None) 0 clusters e = Ok (bests, e') /\
    evaluate (TransformedDataset data None) bests.*1 bests.*2 = Ok (c, s).
Proof.
  intros Hcl Hsel H.
  assert (HD : 0 <= dim_sample (this e)).
  { unfold forward, torch_zeros2, torch_zeros in H.
    destruct (decide (dim_sample (this e) < 0)); [done|lia]. }
  rewrite forward_unfold in H by done.
  set (D := Z.to_nat (dim_sample (this e))) in *.
  set (ev := TransformedDataset data None) in *.
  apply bind_Ok_inv in H as (st' & Hloop & H).
  apply bind_Ok_inv in H as ([c' s'] & Hev & [= -> -> <-]).
  destruct (forward_loop_inv _ _ _ _ _ _ Hloop)
    as (bests & Hbests & Hlen & Hlc & Hls & _ & Hrows).
  cbn [env candidate_classifiers candidate_selectors] in *.
  rewrite length_replicate in Hlc, Hls.
  pose proof (cluster_bests_dims data ev D (dim_sample (this e)) clusters 0 e bests
                (env st') eq_refl Hcl Hsel Hbests) as Hdim.
  exists bests. split; [done|].
  assert (Hcc : candidate_classifiers st' = bests.*1).
  { apply list_eq_same_length with (length clusters); [by rewrite length_fmap | done |].
    intros j x y Hj Hx Hy. rewrite list_lookup_fmap in Hy.
    destruct (bests !! j) as [[c0 s0]|] eqn:Ej; [|done]. injection Hy as <-.
    destruct (Hrows j c0 s0 Ej) as (oc & os & rc & rs & H1 & _ & H3 & _ & H5 & _).
    simpl in H1, H5. apply lookup_replicate in H1 as [-> _].
    pose proof (Forall_lookup_1 _ _ _ _ Hdim Ej) as [Hc0 _]. simpl in Hc0.
    rewrite expand_row_same in H3 by (by rewrite length_replicate). congruence. }
  assert (Hcs : candidate_selectors st' = bests.*2).
  { apply list_eq_same_length with (length clusters); [by rewrite length_fmap | done |].
    intros j x y Hj Hx Hy. rewrite list_lookup_fmap in Hy.
    destruct (bests !! j) as [[c0 s0]|] eqn:Ej; [|done]. injection Hy as <-.
    destruct (Hrows j c0 s0 Ej) as (oc & os & rc & rs & _ & H2 & _ & H4 & _ & H6).
    simpl in H2, H6. apply lookup_replicate in H2 as [-> _].
    pose proof (Forall_lookup_1 _ _ _ _ Hdim Ej) as [_ Hs0]. simpl in Hs0.
    rewrite expand_row_same in H4 by (by rewrite length_replicate). congruence. }
  by rewrite <- Hcc, <- Hcs.
Qed.

(** X9: the pair [forward] returns minimises the conditional error rate over
    every row of every cluster: whichever cluster [i] and row [j] one takes,
    the rate of the classifier in that row with the selector trained for it
    is at least the rate of the pair returned.  In particular, on a view
    whose length fits an int64, the pair returned errs on none of the
    samples it selects as soon as some row of some cluster does so. *)
Theorem forward_pair_is_global_minimum data clusters e c s e' :
  (forall cl row, cl ∈ clusters -> row ∈ to_dense cl ->
     length row = Z.to_nat (dim_sample (this e))) ->
  (forall cfg tr va w g0 sel w' g1 row,
     sp_dim_sample cfg = dim_sample (this e) ->
     selector_learner_call cfg tr va w g0 = Ok (sel, w', g1) -> row ∈ sel ->
     length row = Z.to_nat (dim_sample (this e))) ->
  forward data clusters e = Ok (c, s, e') ->
  forall i cl pre e_i selectors e_i' j cj sj,
    clusters !! i = Some cl ->
    cluster_bests data (TransformedDataset data None) 0 (take i clusters) e
      = Ok (pre, e_i) ->
    train_selectors data i cl e_i = Ok (selectors, e_i') ->
    to_dense cl !! j = Some cj -> selectors !! j = Some sj ->
    F32.ge (row_rate (TransformedDataset data None) cj sj)
           (row_rate (TransformedDataset data None) c s) = true /\
    (Z.of_nat (length (ds_getitem_all (TransformedDataset data None))) < 2 ^ 63 ->
     error_free (TransformedDataset data None) cj sj ->
     error_free (TransformedDataset data None) c s).
Proof.
  intros Hcl Hsel H i cl pre e_i selectors e_i' j cj sj Hi Hpre Htrain Hcj Hsj.
  destruct (forward_inv _ _ _ _ _ _ Hcl Hsel H) as (bests & Hbests & Hev).
  set (ev := TransformedDataset data None) in *.
  pose proof (cluster_bests_length _ _ _ _ _ _ _ Hbests) as Hlen.
  assert (is_Some (bests !! i)) as [[ci si] Hb].
  { apply lookup_lt_is_Some. apply lookup_lt_Some in Hi. lia. }
  destruct (cluster_bests_lookup _ _ _ _ _ _ _ _ _ _ Hbests Hb)
    as (cl' & pre' & e_j & e_j' & Hi' & Hpre' & Hbest).
  rewrite Hi in Hi'. injection Hi' as <-.
  rewrite Hpre in Hpre'. injection Hpre' as <- <-.
  unfold cluster_best in Hbest. cbn [Nat.add] in Hbest. rewrite Htrain in Hbest.
  cbn [mbind result_bind] in Hbest.
  apply bind_Ok_inv in Hbest as ([c1 s1] & Hev_i & [= -> -> _]).
  pose proof (evaluate_minimal _ _ _ _ _ _ _ _ Hev_i Hcj Hsj) as H1.
  assert (H2 : F32.ge (row_rate ev ci si) (row_rate ev c s) = true).
  { eapply evaluate_minimal; [exact Hev| |]; rewrite list_lookup_fmap, Hb; done. }
  unfold F32.ge in *.
  assert (Hge : SFleb (row_rate ev c s) (row_rate ev cj sj) = true).
  { eapply SFleb_trans; [apply row_rate_not_nan.. | exact H2 | exact H1]. }
  split; [done|]. intros Hfit [Hb0 Ha0].
  destruct (row_rate_cases ev cj sj Hfit) as [[Hz _]|[[_ Ej]|(Hpos & _)]]; [lia| |lia].
  rewrite Ej in Hge.
  destruct (row_rate_cases ev c s Hfit) as [[_ E]|[[Hfree _]|(_ & Hn & _)]].
  - rewrite E in Hge. done.
  - done.
  - by destruct (row_rate ev c s) as [| | |[] mr er].
Qed.

(** ** [evaluate] reads the samples through counts only *)

Lemma broadcast_map {A B A' B' C D} (F : A' -> B' -> C)
    (f : A -> A') (g : B -> B') (h : C -> D) (xs : list A) (ys : list B) :
  (r ← broadcast F (map f xs) (map g ys); Ok (map h r)) =
  broadcast (fun x y => h (F (f x) (g y))) xs ys.
Proof.
  unfold broadcast. rewrite !length_map. case_decide as Hlen.
  - cbn [mbind result_bind]. f_equal. clear Hlen. revert ys.
    induction xs as [|x xs IH]; intros [|y ys]; try done.
    simpl. by rewrite IH.
  - destruct xs as [|x [|x' xs]], ys as [|y [|y' ys]]; try done;
      cbn [map mbind result_bind]; f_equal; f_equal; f_equal; by rewrite !map_map.
Qed.

Lemma broadcast_ext {A B C} (f g : A -> B -> C) (xs : list A) (ys : list B) :
  (forall x y, f x y = g x y) -> broadcast f xs ys = broadcast g xs ys.
Proof.
  intros H. unfold broadcast. case_decide as Hlen.
  - f_equal. clear Hlen. revert ys. induction xs as [|x xs IH]; intros [|y ys]; try done.
    simpl. by rewrite H, IH.
  - destruct xs as [|x [|x' xs]], ys as [|y [|y' ys]]; try done;
      f_equal; cbn [map]; rewrite ?H; f_equal; rewrite ?H; f_equal;
      apply map_ext; intros; apply H.
Qed.

(** The rates, whatever the shapes, as a function of the counts of samples:
    the numerators are broadcast over the two tables, and divided by the
    number of samples each selector selects. *)
Lemma conditional_error_rate_counts eval_dataset (classifiers selectors : matrix) :
  conditional_error_rate eval_dataset classifiers selectors =
  (nums ← broadcast
            (fun c s => F32.of_int
               (count_samples (fun x => misclassified c x && selected s x)
                              (ds_getitem_all eval_dataset)))
            classifiers selectors;
   rate ← broadcast F32.div nums
            (map (fun s => F32.of_int
                    (count_samples (selected s) (ds_getitem_all eval_dataset)))
                 selectors);
   Ok (map (fun r => if F32.is_nan r then F32.one else r) rate)).
Proof.
  unfold conditional_error_rate. rewrite errors_of_rows, selections_of_rows.
  pose proof (broadcast_map (zip_with andb)
                (fun c => map (misclassified c) (ds_getitem_all eval_dataset))
                (fun s => map (selected s) (ds_getitem_all eval_dataset))
                (fun row => F32.of_int (count_true row)) classifiers selectors) as Hb.
  rewrite (broadcast_ext _
             (fun c s => F32.of_int
                (count_samples (fun x => misclassified c x && selected s x)
                               (ds_getitem_all eval_dataset)))) in Hb.
  2:{ intros c s. unfold count_samples. by rewrite zip_with_andb_map, count_true_map. }
  rewrite <- Hb.
  destruct (broadcast (zip_with andb) _ _) as [prod|err]; cbn [mbind result_bind]; [|done].
  rewrite map_map.
  rewrite (map_ext (fun s => F32.of_int (count_true (map (selected s)
                                            (ds_getitem_all eval_dataset))))
                   (fun s => F32.of_int (count_samples (selected s)
                                            (ds_getitem_all eval_dataset)))); [done|].
  intros s. unfold count_samples. by rewrite count_true_map.
Qed.

Lemma count_samples_perm P (l1 l2 : list (bool * list spec_float)) :
  l1 ≡ₚ l2 -> count_samples P l1 = count_samples P l2.
Proof. intros H. unfold count_samples. by rewrite H. Qed.

(** X10: [evaluate] depends on the samples of the evaluation view through counts
    only: on two views that hold the same samples in a different order it
    computes the same rates and returns the same pair (or raises the same
    exception). *)
Theorem evaluate_sample_order ds1 ds2 (classifiers selectors : matrix) :
  ds_getitem_all ds1 ≡ₚ ds_getitem_all ds2 ->
  conditional_error_rate ds1 classifiers selectors
    = conditional_error_rate ds2 classifiers selectors /\
  evaluate ds1 classifiers selectors = evaluate ds2 classifiers selectors.
Proof.
  intros Hperm.
  assert (Hrate : conditional_error_rate ds1 classifiers selectors
                  = conditional_error_rate ds2 classifiers selectors).
  { rewrite !conditional_error_rate_counts.
    rewrite (broadcast_ext _
               (fun c s => F32.of_int
                  (count_samples (fun x => misclassified c x && selected s x)
                                 (ds_getitem_all ds2)))).
    2:{ intros c s. by rewrite (count_samples_perm _ _ _ Hperm). }
    rewrite (map_ext (fun s => F32.of_int (count_samples (selected s) (ds_getitem_all ds1)))
                     (fun s => F32.of_int (count_samples (selected s) (ds_getitem_all ds2)))).
    2:{ intros s. by rewrite (count_samples_perm _ _ _ Hperm). }
    done. }
  split; [done|]. unfold evaluate. by rewrite Hrate.
Qed.

Lemma broadcast_ext_elem {A B C} (f g : A -> B -> C) (xs : list A) (ys : list B) :
  (forall x y, x ∈ xs -> y ∈ ys -> f x y = g x y) ->
  broadcast f xs ys = broadcast g xs ys.
Proof.
  intros H. unfold broadcast. case_decide as Hlen.
  - f_equal. clear Hlen. revert ys H.
    induction xs as [|x xs IH]; intros [|y ys] H; try done.
    simpl. rewrite H by (by left). rewrite IH; [done|].
    intros x' y' Hx' Hy'. apply H; by right.
  - destruct xs as [|x [|x' xs]], ys as [|y [|y' ys]]; try done; f_equal.
    + apply map_ext_in. intros b Hb. apply H; [by left|]. by apply list_elem_of_In.
    + apply map_ext_in. intros a Ha. apply H; [|by left]. by apply list_elem_of_In.
Qed.

Lemma count_samples_app_unselected P (l extra : list (bool * list spec_float)) :
  (forall x, x ∈ extra -> P x = false) ->
  count_samples P (l ++ extra) = count_samples P l.
Proof.
  intros H. unfold count_samples. rewrite list.filter_app, length_app.
  assert (filter (fun x => P x = true) extra = []) as ->; [|simpl; lia].
  induction extra as [|x extra IH]; [done|].
  rewrite filter_cons, decide_False.
  - apply IH. intros y Hy. apply H. by right.
  - rewrite (H x) by (by left). done.
Qed.

(** X11: a sample that none of the selectors selects has no influence: adding
    such samples to the evaluation view changes neither the rates nor the
    pair [evaluate] returns. *)
Theorem evaluate_ignores_unselected ds1 ds2 extra (classifiers selectors : matrix) :
  ds_getitem_all ds2 = ds_getitem_all ds1 ++ extra ->
  (forall s x, s ∈ selectors -> x ∈ extra -> selected s x = false) ->
  conditional_error_rate ds1 classifiers selectors
    = conditional_error_rate ds2 classifiers selectors /\
  evaluate ds1 classifiers selectors = evaluate ds2 classifiers selectors.
Proof.
  intros Happ Hun.
  assert (Hrate : conditional_error_rate ds1 classifiers selectors
                  = conditional_error_rate ds2 classifiers selectors).
  { rewrite !conditional_error_rate_counts, Happ.
    rewrite (broadcast_ext_elem _
               (fun c s => F32.of_int
                  (count_samples (fun x => misclassified c x && selected s x)
                                 (ds_getitem_all ds1 ++ extra))) classifiers selectors).
    2:{ intros c s _ Hs. rewrite count_samples_app_unselected; [done|].
        intros x Hx. rewrite (Hun s x Hs Hx). apply andb_false_r. }
    assert (Hden : map (fun s => F32.of_int (count_samples (selected s) (ds_getitem_all ds1)))
                       selectors
                 = map (fun s => F32.of_int
                          (count_samples (selected s) (ds_getitem_all ds1 ++ extra)))
                       selectors).
    { apply map_ext_in. intros s Hs. rewrite count_samples_app_unselected; [done|].
      intros x Hx. apply Hun; [|done]. by apply list_elem_of_In. }
    by rewrite Hden. }
  split; [done|]. unfold evaluate. by rewrite Hrate.
Qed.

(** ** The initial weight on the device of the data *)

Lemma cluster_bests_app data eval_dataset pre : forall rest i e,
  cluster_bests data eval_dataset i (pre ++ rest) e =
  ('(b1, e1) ← cluster_bests data eval_dataset i pre e;
   '(b2, e2) ← cluster_bests data eval_dataset (i + length pre) rest e1;
   Ok (b1 ++ b2, e2)).
Proof.
  induction pre as [|cl pre IH]; intros rest i e.
  - cbn [app cluster_bests mbind result_bind length]. rewrite Nat.add_0_r.
    by destruct (cluster_bests _ _ _ _ _) as [[b2 e2]|err].
  - cbn [app cluster_bests length].
    destruct (cluster_best data eval_dataset i cl e) as [[[c s] e1]|err]; [|done].
    cbn [mbind result_bind]. rewrite IH.
    replace (S i + length pre)%nat with (i + S (length pre))%nat by lia.
    destruct (cluster_bests data eval_dataset (S i) pre e1) as [[b1 e2]|err]; [|done].
    cbn [mbind result_bind].
    by destruct (cluster_bests _ _ _ rest e2) as [[b2 e3]|err].
Qed.

Lemma train_selectors_device data i classifiers e selectors e' :
  train_selectors data i classifiers e = Ok (selectors, e') ->
  init_weight_device (this e') = init_weight_device (this e).
Proof.
  intros H. apply train_selectors_inv in H as (cfg & tr & va & g0 & w' & _ & _ & ->).
  by case_decide.
Qed.

Lemma cluster_bests_device data eval_dataset clusters : forall i e bests e',
  cluster_bests data eval_dataset i clusters e = Ok (bests, e') ->
  init_weight_device (this e') = init_weight_device (this e).
Proof.
  induction clusters as [|cl rest IH]; intros i e bests e' H.
  - by injection H as <- <-.
  - cbn [cluster_bests] in H.
    apply bind_Ok_inv in H as ([[c s] e1] & Hbest & H).
    apply bind_Ok_inv in H as ([bs e2] & Hbs & [= <- <-]).
    rewrite (IH _ _ _ _ Hbs). unfold cluster_best in Hbest.
    apply bind_Ok_inv in Hbest as ([sel e0] & Htrain & Hbest).
    apply bind_Ok_inv in Hbest as ([c' s'] & _ & [= _ _ <-]).
    by eapply train_selectors_device.
Qed.

(** X12: when the data lives on the device of [init_weight], every training call
    is handed the learner's tensor itself: the call for a cluster starts from
    what the calls before it left in the tensor, and the learner [forward]
    leaves holds what the last call left.  On another device every call gets
    a copy and the learner is left as it was. *)
Theorem forward_init_weight_alias data clusters cl e c s e' :
  forward data (clusters ++ [cl]) e = Ok (c, s, e') ->
  exists bests e1 cfg tr va g0 sel w',
    cluster_bests data (TransformedDataset data None) 0 clusters e = Ok (bests, e1) /\
    selector_learner_call cfg tr va (init_weight (this e1)) g0
      = Ok (sel, w', generator e') /\
    (data_device data = init_weight_device (this e) -> init_weight (this e') = w') /\
    (data_device data <> init_weight_device (this e) -> this e' = this e1) /\
    (clusters = [] -> e1 = e).
Proof.
  intros H.
  assert (HD : 0 <= dim_sample (this e)).
  { unfold forward, torch_zeros2, torch_zeros in H.
    destruct (decide (dim_sample (this e) < 0)); [done|lia]. }
  rewrite forward_unfold in H by done.
  apply bind_Ok_inv in H as (st' & Hloop & H).
  apply bind_Ok_inv in H as ([c' s'] & _ & [= _ _ <-]).
  destruct (forward_loop_inv _ _ _ _ _ _ Hloop) as (bests & Hbests & _).
  cbn [env] in Hbests. rewrite cluster_bests_app in Hbests.
  apply bind_Ok_inv in Hbests as ([b1 e1] & Hpre & Hbests).
  apply bind_Ok_inv in Hbests as ([b2 e2] & Hlast & [= _ <-]).
  cbn [cluster_bests] in Hlast.
  apply bind_Ok_inv in Hlast as ([[c0 s0] e3] & Hbest & [= _ <-]).
  unfold cluster_best in Hbest.
  apply bind_Ok_inv in Hbest as ([sel e0] & Htrain & Hbest).
  apply bind_Ok_inv in Hbest as ([c1 s1] & _ & [= _ _ <-]).
  pose proof (cluster_bests_device _ _ _ _ _ _ _ Hpre) as Hdev.
  destruct (train_selectors_inv _ _ _ _ _ _ Htrain)
    as (cfg & tr & va & g0 & w' & _ & Hcall & Hthis).
  exists b1, e1, cfg, tr, va, g0, sel, w'.
  split; [done|]. split; [done|]. rewrite Hthis, Hdev.
  split; [|split].
  - intros Heq. by rewrite decide_True.
  - intros Hne. by rewrite decide_False.
  - intros ->. by injection Hpre as _ <-.
Qed.

(** ** The step size for a negative iteration count *)






(** ** The accuracy of the step size

    The constructor computes [lr_coeff * sqrt (1 / (num_iter * dim_sample))]
    in five rounded steps: the Python quotient (binary64), its storage in a
    float32 tensor, the float32 square root, the conversion of the Python
    float [lr_coeff] to float32 and the float32 product.  Each step returns
    a normal number within [2 ^ (1 - prec)] of the exact result of that
    step, as long as the magnitudes stay in the normal range. *)

(** A number that is at least [2 ^ b] has more than [b] digits. *)
Lemma Zdigits2_ge m b : 0 <= b -> 2 ^ b <= m -> b + 1 <= Zdigits2 m.
Proof.
  intros Hb Hm. assert (Hp : 0 < 2 ^ b) by (apply Z.pow_pos_nonneg; lia).
  destruct (Zdigits2_bounds m ltac:(lia)) as [_ Hhi].
  destruct (Z.le_gt_cases (b + 1) (Zdigits2 m)) as [|Hlt]; [done|].
  assert (2 ^ Zdigits2 m <= 2 ^ b) by (apply Z.pow_le_mono_r; lia). lia.
Qed.

(** The first step of rounding to [prec] digits, on a mantissa of at least
    [prec] digits whose cut does not fall below the least exponent: the
    digits beyond the [prec] leading ones are dropped. *)
Lemma shr_fexp_cut prec emax m e l :
  0 < prec -> 2 ^ (prec - 1) <= m -> 3 - emax - prec <= e + (Zdigits2 m - prec) ->
  shr_m (shr_fexp prec emax m e l).1 = m / 2 ^ (Zdigits2 m - prec) /\
  (shr_fexp prec emax m e l).2 = e + (Zdigits2 m - prec) /\
  2 ^ (prec - 1) <= m / 2 ^ (Zdigits2 m - prec) < 2 ^ prec /\
  0 <= Zdigits2 m - prec.
Proof.
  intros Hprec Hm He.
  pose proof (Zdigits2_ge m (prec - 1) ltac:(lia) Hm) as Hd.
  assert (Hp0 : 0 < 2 ^ (prec - 1)) by (apply Z.pow_pos_nonneg; lia).
  assert (Hk : fexp prec emax (Zdigits2 m + e) - e = Zdigits2 m - prec)
    by (unfold fexp, emin; lia).
  unfold shr_fexp. rewrite Hk.
  destruct (shr_m_spec (shr_record_of_loc m l) e (Zdigits2 m - prec)) as [H1 H2].
  { rewrite shr_record_of_loc_m. lia. }
  rewrite H1, H2, shr_record_of_loc_m, Z.max_l by lia.
  split; [done|]. split; [done|]. split; [|lia].
  destruct (Zdigits2_bounds m ltac:(lia)) as [Hlo Hhi].
  set (k := Zdigits2 m - prec) in *.
  assert (Hp : 0 < 2 ^ k) by (apply Z.pow_pos_nonneg; lia).
  assert (E1 : 2 ^ (Zdigits2 m - 1) = 2 ^ k * 2 ^ (prec - 1)).
  { rewrite <- Z.pow_add_r by lia. f_equal. lia. }
  assert (E2 : 2 ^ Zdigits2 m = 2 ^ k * 2 ^ prec).
  { rewrite <- Z.pow_add_r by lia. f_equal. lia. }
  split.
  - apply Z.div_le_lower_bound; lia.
  - apply Z.div_lt_upper_bound; lia.
Qed.

(** What rounding then returns: the mantissa cut to [prec] digits or its
    successor, at the exponent of the cut; a carry into a further digit is
    renormalised one exponent higher. *)
Lemma binary_round_aux_cut prec emax s m e l :
  0 < prec -> 2 ^ (prec - 1) <= m ->
  3 - emax - prec <= e + (Zdigits2 m - prec) ->
  e + (Zdigits2 m - prec) + 1 <= emax - prec ->
  exists r,
    m / 2 ^ (Zdigits2 m - prec) <= r <= m / 2 ^ (Zdigits2 m - prec) + 1 /\
    binary_round_aux prec emax s m e l =
      if decide (r = 2 ^ prec)
      then S754_finite s (Z.to_pos (2 ^ (prec - 1))) (e + (Zdigits2 m - prec) + 1)
      else S754_finite s (Z.to_pos r) (e + (Zdigits2 m - prec)).
Proof.
  intros Hprec Hm He Hb.
  destruct (shr_fexp_cut prec emax m e l Hprec Hm He) as (H1 & H2 & H3 & Hk0).
  unfold binary_round_aux.
  destruct (shr_fexp prec emax m e l) as [mrs' e']. cbn [fst snd] in *. subst e'.
  pose proof (round_nearest_even_bounds (shr_m mrs') (loc_of_shr_record mrs')) as Hr.
  set (r := round_nearest_even (shr_m mrs') (loc_of_shr_record mrs')) in *.
  set (k := Zdigits2 m - prec) in *.
  exists r. split; [lia|].
  assert (Hp0 : 0 < 2 ^ (prec - 1)) by (apply Z.pow_pos_nonneg; lia).
  assert (Hpp : 2 ^ prec = 2 * 2 ^ (prec - 1)).
  { rewrite <- Z.pow_succ_r by lia. f_equal. lia. }
  assert (Hr0 : 2 ^ (prec - 1) <= r) by lia.
  pose proof (Zdigits2_ge r (prec - 1) ltac:(lia) Hr0) as Hdr.
  destruct (shr_fexp_cut prec emax r (e + k) loc_Exact Hprec Hr0 ltac:(lia))
    as (G1 & G2 & G3 & _).
  destruct (shr_fexp prec emax r (e + k) loc_Exact) as [mrs'' e'']. cbn [fst snd] in *.
  rewrite G1, G2.
  case_decide as Hcarry.
  - assert (Hd : Zdigits2 r = prec + 1).
    { apply Zdigits2_eq; [|lia]. replace (prec + 1 - 1) with prec by lia.
      assert (2 ^ (prec + 1) = 2 * 2 ^ prec); [|lia].
      replace (prec + 1) with (Z.succ prec) by lia. apply Z.pow_succ_r. lia. }
    rewrite Hd. replace (prec + 1 - prec) with 1 by lia.
    rewrite Hcarry, Hpp. change (2 ^ 1) with 2.
    rewrite Z.mul_comm, Z.div_mul by lia.
    destruct (2 ^ (prec - 1)) as [|q|q] eqn:Eq; [lia| |lia].
    cbn [Z.to_pos]. replace (e + k + 1 <=? emax - prec) with true; [done|].
    symmetry. apply Z.leb_le. lia.
  - assert (Hd : Zdigits2 r = prec).
    { apply Zdigits2_eq; lia. }
    rewrite Hd. replace (prec - prec) with 0 by lia.
    rewrite Z.pow_0_r, Z.div_1_r, Z.add_0_r.
    destruct r as [|q|q] eqn:Er; [lia| |lia].
    cbn [Z.to_pos]. replace (e + k <=? emax - prec) with true; [done|].
    symmetry. apply Z.leb_le. lia.
Qed.

(** Powers of two on the reals. *)
Lemma bpow_pos e : (0 < bpow e)%R.
Proof. apply powerRZ_lt. lra. Qed.

Lemma bpow_add a b : bpow (a + b) = (bpow a * bpow b)%R.
Proof. apply powerRZ_add. lra. Qed.

Lemma bpow_IZR k : 0 <= k -> bpow k = IZR (2 ^ k).
Proof.
  intros Hk. unfold bpow. rewrite <- (Z2Nat.id k Hk) at 1.
  rewrite <- pow_powerRZ, pow_IZR. by rewrite Z2Nat.id.
Qed.

Lemma bpow_opp_r a : (bpow a * bpow (- a) = 1)%R.
Proof. rewrite <- bpow_add. replace (a + - a) with 0 by lia. done. Qed.

(** The value rounding returns for a mantissa of at least [prec] digits that
    stands for a real [X] between it and its successor: a normal number
    within [2 ^ (1 - prec)] of [X], relatively. *)
Lemma binary_round_aux_rel prec emax s m e l (X : R) :
  0 < prec -> 2 ^ (prec - 1) <= m ->
  3 - emax - prec <= e + (Zdigits2 m - prec) ->
  e + (Zdigits2 m - prec) + 1 <= emax - prec ->
  (IZR m <= X <= IZR m + 1)%R ->
  exists m' e',
    binary_round_aux prec emax s m e l = S754_finite s m' e' /\
    2 ^ (prec - 1) <= Z.pos m' < 2 ^ prec /\
    e + (Zdigits2 m - prec) <= e' <= e + (Zdigits2 m - prec) + 1 /\
    (Rabs (IZR (Z.pos m') * bpow e' - X * bpow e) <= bpow (1 - prec) * (X * bpow e))%R.
Proof.
  intros Hprec Hm He Hb HX.
  destruct (binary_round_aux_cut prec emax s m e l Hprec Hm He Hb) as (r & Hr & Heq).
  destruct (shr_fexp_cut prec emax m e l Hprec Hm He) as (_ & _ & Hlo & Hk0).
  set (k := Zdigits2 m - prec) in *. set (lo := m / 2 ^ k) in *.
  assert (Hp : 0 < 2 ^ k) by (apply Z.pow_pos_nonneg; lia).
  assert (Hp0 : 0 < 2 ^ (prec - 1)) by (apply Z.pow_pos_nonneg; lia).
  assert (Hpp : 2 ^ prec = 2 * 2 ^ (prec - 1)).
  { rewrite <- Z.pow_succ_r by lia. f_equal. lia. }
  assert (Hdm : 2 ^ k * lo <= m) by (apply Z.mul_div_le; lia).
  assert (Hdm' : m < 2 ^ k * Z.succ lo) by (apply Z.mul_succ_div_gt; lia).
  assert (Hmk : 2 ^ (prec - 1) * 2 ^ k <= m).
  { destruct (Zdigits2_bounds m ltac:(lia)) as [Hdlo _].
    rewrite <- Z.pow_add_r by lia.
    replace (prec - 1 + k) with (Zdigits2 m - 1) by lia. done. }
  (* the value, in both cases, is [r] at the exponent of the cut *)
  assert (Hval : exists m' e',
    binary_round_aux prec emax s m e l = S754_finite s m' e' /\
    2 ^ (prec - 1) <= Z.pos m' < 2 ^ prec /\ e + k <= e' <= e + k + 1 /\
    (IZR (Z.pos m') * bpow e' = IZR r * bpow k * bpow e)%R).
  { rewrite Heq. case_decide as Hcarry.
    - exists (Z.to_pos (2 ^ (prec - 1))), (e + k + 1).
      rewrite Z2Pos.id by lia. split; [done|]. split; [lia|]. split; [lia|].
      rewrite Hcarry, Hpp, mult_IZR.
      replace (e + k + 1) with (1 + (k + e)) by lia.
      rewrite !bpow_add. replace (bpow 1) with 2%R by (unfold bpow; simpl; lra). lra.
    - exists (Z.to_pos r), (e + k).
      rewrite Z2Pos.id by lia. split; [done|]. split; [lia|]. split; [lia|].
      replace (e + k) with (k + e) by lia. rewrite bpow_add. lra. }
  destruct Hval as (m' & e' & Hres & Hm' & He' & Hv).
  exists m', e'. split; [done|]. split; [done|]. split; [done|].
  rewrite Hv, (bpow_IZR k) by lia.
  set (T := IZR (2 ^ k)). set (E := bpow e). set (beta := bpow (1 - prec)).
  assert (HT : (0 < T)%R) by (apply IZR_lt; lia).
  assert (HE : (0 < E)%R) by apply bpow_pos.
  assert (Hbeta : (0 < beta)%R) by apply bpow_pos.
  assert (H1 : (IZR m + 1 <= IZR r * T + T)%R).
  { unfold T. rewrite <- mult_IZR, <- !plus_IZR. apply IZR_le. nia. }
  assert (H2 : (IZR r * T <= IZR m + T)%R).
  { unfold T. rewrite <- mult_IZR, <- !plus_IZR. apply IZR_le. nia. }
  assert (H3 : (T <= beta * X)%R).
  { assert (Hb1 : (beta * IZR (2 ^ (prec - 1)) = 1)%R).
    { unfold beta. rewrite <- bpow_IZR by lia. rewrite Rmult_comm.
      replace (1 - prec) with (- (prec - 1)) by lia. apply bpow_opp_r. }
    replace T with (beta * (IZR (2 ^ (prec - 1)) * T))%R
      by (rewrite <- Rmult_assoc, Hb1; lra).
    apply Rmult_le_compat_l; [lra|].
    etrans; [|exact (proj1 HX)].
    unfold T. rewrite <- mult_IZR. by apply IZR_le. }
  replace (IZR r * T * E - X * E)%R with ((IZR r * T - X) * E)%R by lra.
  rewrite Rabs_mult, (Rabs_pos_eq E) by lra.
  rewrite <- Rmult_assoc. apply Rmult_le_compat_r; [lra|].
  apply Rabs_le. lra.
Qed.

(** A real quotient lies between the integer quotient and its successor. *)
Lemma Rdiv_between (a q p : R) :
  (0 < p -> q * p <= a <= (q + 1) * p -> q <= a / p <= q + 1)%R.
Proof.
  intros Hp [H1 H2].
  assert (E : (a / p * p = a)%R) by (unfold Rdiv; rewrite Rmult_assoc, Rinv_l; lra).
  split; apply (Rmult_le_reg_r p); lra.
Qed.

(** The Python quotient [1 / p]: a normal binary64 number within [2 ^ -52]
    of the real quotient, relatively. *)
Lemma truediv_one_rel p : 0 < p < 2 ^ 126 ->
  exists m e,
    F64.div (F64.exact 1) (F64.exact p) = S754_finite false m e /\
    2 ^ 52 <= Z.pos m < 2 ^ 53 /\
    - 52 - Zdigits2 p <= e <= - 50 - Zdigits2 p /\
    1 <= Zdigits2 p <= 126 /\
    (Rabs (IZR (Z.pos m) * bpow e - / IZR p) <= bpow (-52) * / IZR p)%R.
Proof.
  intros [Hp Hb]. destruct p as [|pp|pp]; try lia.
  pose proof (Zdigits2_bounds (Z.pos pp) Hp) as [Hlo Hhi].
  pose proof (Zdigits2_le_pow2 (Z.pos pp) 126 Hp Hb) as Hdp.
  pose proof (Zdigits2_pos (Z.pos pp) Hp) as Hdp0.
  cbn [F64.exact]. unfold F64.div, F64.prec, F64.emax, SFdiv, SFdiv_core_binary.
  change (Zdigits2 1) with 1. set (dp := Zdigits2 (Z.pos pp)) in *.
  assert (He' : Z.min (fexp 53 1024 (1 + 0 - (dp + 0))) (0 - 0) = - 52 - dp)
    by (unfold fexp, emin; lia).
  rewrite He'. replace (0 - 0 - (- 52 - dp)) with (52 + dp) by lia.
  destruct (52 + dp) as [|sh|sh] eqn:Esh; [lia| |lia].
  rewrite Z.shiftl_mul_pow2, Z.mul_1_l by lia.
  assert (Hsh : 2 ^ Z.pos sh = 2 ^ 53 * 2 ^ (dp - 1)).
  { rewrite <- Esh, <- Z.pow_add_r by lia. f_equal. lia. }
  assert (Hsh' : 2 ^ Z.pos sh = 2 ^ 52 * 2 ^ dp).
  { rewrite <- Esh, <- Z.pow_add_r by lia. f_equal. }
  pose proof (Z_div_mod (2 ^ Z.pos sh) (Z.pos pp) ltac:(lia)) as Hdm.
  destruct (Z.div_eucl (2 ^ Z.pos sh) (Z.pos pp)) as [q r]. destruct Hdm as [Hdm Hr].
  cbn [xorb].
  assert (H52 : 0 < 2 ^ 52) by done. assert (H53 : 0 < 2 ^ 53) by done.
  assert (Hq : 2 ^ 52 <= q <= 2 ^ 53) by nia.
  pose proof (Zdigits2_ge q 52 ltac:(lia) ltac:(lia)) as Hdq.
  pose proof (Zdigits2_le_pow2 q 54 ltac:(lia) ltac:(change (2 ^ 54) with (2 * 2 ^ 53); lia))
    as Hdq'.
  destruct (binary_round_aux_rel 53 1024 false q (- 52 - dp) (new_location (Z.pos pp) r)
              (IZR (2 ^ Z.pos sh) / IZR (Z.pos pp)))
    as (m & e & Hres & Hm & He & Hv);
    [lia | change (2 ^ (53 - 1)) with (2 ^ 52); lia | lia | lia | |].
  { apply Rdiv_between; [by apply IZR_lt|].
    rewrite <- !mult_IZR, <- plus_IZR, <- mult_IZR. split; apply IZR_le; nia. }
  exists m, e. split; [done|]. split; [done|]. split; [lia|]. split; [lia|].
  assert (HP : (0 < IZR (Z.pos pp))%R) by (by apply IZR_lt).
  assert (E : (IZR (2 ^ Z.pos sh) / IZR (Z.pos pp) * bpow (- 52 - dp) = / IZR (Z.pos pp))%R).
  { rewrite <- bpow_IZR, <- Esh by lia. unfold Rdiv.
    replace (- 52 - dp) with (- (52 + dp)) by lia.
    rewrite Rmult_assoc, (Rmult_comm (/ _)), <- Rmult_assoc, bpow_opp_r. lra. }
  by rewrite E in Hv.
Qed.

(** A number of the normal float32 range stored into a float32 tensor: a
    normal float32 number within [2 ^ -23] of it, relatively. *)
Lemma of_f64_rel s m e :
  -125 <= Zdigits2 (Z.pos m) + e <= 127 ->
  exists m' e',
    F32.of_f64 (S754_finite s m e) = S754_finite s m' e' /\
    2 ^ 23 <= Z.pos m' < 2 ^ 24 /\
    Zdigits2 (Z.pos m) + e - 24 <= e' <= Zdigits2 (Z.pos m) + e - 23 /\
    (Rabs (IZR (Z.pos m') * bpow e' - IZR (Z.pos m) * bpow e)
       <= bpow (-23) * (IZR (Z.pos m) * bpow e))%R.
Proof.
  intros Hmag. cbn [F32.of_f64]. unfold binary_round, F32.prec, F32.emax.
  change (Z.pos (digits2_pos m)) with (Zdigits2 (Z.pos m)).
  destruct (Zdigits2_bounds (Z.pos m) ltac:(lia)) as [Hlo Hhi].
  pose proof (Zdigits2_pos (Z.pos m) ltac:(lia)) as Hd0.
  set (d := Zdigits2 (Z.pos m)) in *.
  assert (Hf : fexp 24 128 (d + e) = d + e - 24) by (unfold fexp, emin; lia).
  rewrite Hf. unfold shl_align.
  destruct (d + e - 24 - e) as [|k|k] eqn:Ek.
  1,2: assert (H23 : 2 ^ 23 <= Z.pos m)
         by (etrans; [|exact Hlo]; apply Z.pow_le_mono_r; lia).
  1,2: destruct (binary_round_aux_rel 24 128 s (Z.pos m) e loc_Exact (IZR (Z.pos m)))
         as (m' & e' & Hres & Hm' & He' & Hv);
         [lia | exact H23 | fold d; lia | fold d; lia | lra |];
       exists m', e'; fold d in He'; (split; [done|]); (split; [done|]); (split; [lia|]);
       exact Hv.
  assert (Hk : Z.pos k = 24 - d) by lia.
  assert (Hp : 0 < 2 ^ Z.pos k) by (apply Z.pow_pos_nonneg; lia).
  assert (HM : 2 ^ 23 <= Z.pos m * 2 ^ Z.pos k < 2 ^ 24).
  { assert (E23 : 2 ^ 23 = 2 ^ (d - 1) * 2 ^ Z.pos k).
    { rewrite <- Z.pow_add_r by lia. f_equal. lia. }
    assert (E24 : 2 ^ 24 = 2 ^ d * 2 ^ Z.pos k).
    { rewrite <- Z.pow_add_r by lia. f_equal. lia. }
    rewrite E23, E24. nia. }
  assert (HdM : Zdigits2 (Z.pos m * 2 ^ Z.pos k) = 24) by (apply Zdigits2_eq; [done|lia]).
  rewrite Pos_iter_xO.
  destruct (binary_round_aux_rel 24 128 s (Z.pos m * 2 ^ Z.pos k) (d + e - 24) loc_Exact
              (IZR (Z.pos m * 2 ^ Z.pos k)))
    as (m' & e' & Hres & Hm' & He' & Hv); rewrite ?HdM; [lia | lia | lia | lia | lra |].
  rewrite HdM in He'.
  exists m', e'. split; [done|]. split; [done|]. split; [lia|].
  assert (E : (IZR (Z.pos m * 2 ^ Z.pos k) * bpow (d + e - 24) = IZR (Z.pos m) * bpow e)%R).
  { rewrite mult_IZR, <- bpow_IZR by lia.
    replace e with (Z.pos k + (d + e - 24)) at 2 by lia. rewrite bpow_add. lra. }
  by rewrite E in Hv.
Qed.

(** The integer square root the float32 square root is computed from: the
    mantissa is shifted by 23 or 24 digits, whichever leaves an even
    exponent. *)
Lemma sqrt_core_shift m e :
  2 ^ 23 <= Z.pos m < 2 ^ 24 -> -149 <= e ->
  exists s e',
    (s = 23 \/ s = 24) /\ e = s + 2 * e' /\ e / 2 - 12 <= e' <= e / 2 - 11 /\
    SFsqrt_core_binary 24 128 (Z.pos m) e =
      (let (q, r) := Z.sqrtrem (Z.pos m * 2 ^ s) in
       (q, e', if r =? 0 then loc_Exact else loc_Inexact (if r <=? q then Lt else Gt))).
Proof.
  intros Hm He. unfold SFsqrt_core_binary.
  rewrite (Zdigits2_eq (Z.pos m) 24) by (change (2 ^ (24 - 1)) with (2 ^ 23); lia).
  rewrite !Z.div2_div.
  pose proof (Z.div_mod e 2 ltac:(lia)) as Hdiv.
  pose proof (Z.mod_pos_bound e 2 ltac:(lia)) as Hmod.
  set (j := e / 2) in *.
  destruct (decide (e mod 2 = 0)) as [Hpar|Hpar].
  - assert (E25 : (24 + e + 1) / 2 = j + 12).
    { symmetry. apply (Z.div_unique _ _ _ 1); lia. }
    exists 24, (j - 12). split; [by right|]. split; [lia|]. split; [lia|].
    rewrite E25.
    replace (Z.min (fexp 24 128 (j + 12)) j) with (j - 12) by (unfold fexp, emin; lia).
    replace (e - 2 * (j - 12)) with 24 by lia. cbn match.
    by rewrite Z.shiftl_mul_pow2 by lia.
  - assert (E25 : (24 + e + 1) / 2 = j + 13).
    { symmetry. apply (Z.div_unique _ _ _ 0); lia. }
    exists 23, (j - 11). split; [by left|]. split; [lia|]. split; [lia|].
    rewrite E25.
    replace (Z.min (fexp 24 128 (j + 13)) j) with (j - 11) by (unfold fexp, emin; lia).
    replace (e - 2 * (j - 11)) with 23 by lia. cbn match.
    by rewrite Z.shiftl_mul_pow2 by lia.
Qed.

(** The float32 square root of a normal number: a normal number within
    [2 ^ -23] of the real square root, relatively. *)
Lemma sqrt_rel m e :
  2 ^ 23 <= Z.pos m < 2 ^ 24 -> -149 <= e <= 104 ->
  exists m' e',
    F32.sqrt (S754_finite false m e) = S754_finite false m' e' /\
    2 ^ 23 <= Z.pos m' < 2 ^ 24 /\
    e / 2 - 12 <= e' <= e / 2 - 10 /\
    (Rabs (IZR (Z.pos m') * bpow e' - sqrt (IZR (Z.pos m) * bpow e))
       <= bpow (-23) * sqrt (IZR (Z.pos m) * bpow e))%R.
Proof.
  intros Hm He. unfold F32.sqrt, F32.prec, F32.emax. cbn [SFsqrt].
  destruct (sqrt_core_shift m e Hm ltac:(lia)) as (s & e1 & Hs & Hes & He1 & ->).
  pose proof (Z.div_mod e 2 ltac:(lia)) as Hdiv.
  pose proof (Z.mod_pos_bound e 2 ltac:(lia)) as Hmod.
  assert (HM : 2 ^ 46 <= Z.pos m * 2 ^ s < 2 ^ 48).
  { change (2 ^ 46) with (2 ^ 23 * 2 ^ 23). change (2 ^ 48) with (2 ^ 24 * 2 ^ 24).
    destruct Hs as [-> | ->]; lia. }
  assert (Hs0 : 0 <= s) by lia.
  pose proof (Z.sqrtrem_spec (Z.pos m * 2 ^ s) ltac:(lia)) as Hsq.
  destruct (Z.sqrtrem (Z.pos m * 2 ^ s)) as [q r]. destruct Hsq as [Hsq Hr].
  assert (Hq24 : q < 2 ^ 24).
  { destruct (Z.lt_ge_cases q (2 ^ 24)) as [|Hge]; [done|].
    assert (2 ^ 24 * 2 ^ 24 <= q * q) by nia.
    change (2 ^ 48) with (2 ^ 24 * 2 ^ 24) in HM. lia. }
  assert (Hq23 : 2 ^ 23 <= q).
  { destruct (Z.le_gt_cases (2 ^ 23) q) as [|Hlt]; [done|].
    assert ((q + 1) * (q + 1) <= 2 ^ 23 * 2 ^ 23) by nia.
    change (2 ^ 46) with (2 ^ 23 * 2 ^ 23) in HM. lia. }
  assert (Hdq : Zdigits2 q = 24)
    by (apply Zdigits2_eq; [change (2 ^ (24 - 1)) with (2 ^ 23)|]; lia).
  set (l := if r =? 0 then loc_Exact else loc_Inexact (if r <=? q then Lt else Gt)).
  destruct (binary_round_aux_rel 24 128 false q e1 l (sqrt (IZR (Z.pos m * 2 ^ s))))
    as (m' & e' & Hres & Hm' & He' & Hv); rewrite ?Hdq;
    [lia | change (2 ^ (24 - 1)) with (2 ^ 23); lia | lia | lia | |].
  { assert (Hq0 : (0 <= IZR q)%R) by (apply IZR_le; lia).
    split.
    - rewrite <- (sqrt_square (IZR q)) at 1 by done. apply sqrt_le_1_alt.
      rewrite <- mult_IZR. apply IZR_le. lia.
    - rewrite <- (sqrt_square (IZR q + 1)) by lra. apply sqrt_le_1_alt.
      rewrite <- plus_IZR, <- mult_IZR. apply IZR_le. lia. }
  rewrite Hdq in He'.
  exists m', e'. split; [done|]. split; [done|]. split; [lia|].
  assert (E : (sqrt (IZR (Z.pos m * 2 ^ s)) * bpow e1 = sqrt (IZR (Z.pos m) * bpow e))%R).
  { pose proof (bpow_pos e1) as Hb1.
    rewrite <- (sqrt_square (bpow e1)) at 1 by lra.
    rewrite <- sqrt_mult_alt by (apply IZR_le; lia). f_equal.
    rewrite mult_IZR, <- bpow_IZR by lia.
    replace e with (s + (e1 + e1)) at 1 by lia. rewrite !bpow_add. lra. }
  by rewrite E in Hv.
Qed.

(** The float32 product of two normal numbers whose product is in the
    normal range: a normal number within [2 ^ -23] of the real product,
    relatively. *)
Lemma mul_rel s mx ex my ey :
  2 ^ 23 <= Z.pos mx < 2 ^ 24 -> 2 ^ 23 <= Z.pos my < 2 ^ 24 ->
  -172 <= ex + ey <= 79 ->
  exists m' e',
    F32.mul (S754_finite s mx ex) (S754_finite false my ey) = S754_finite s m' e' /\
    2 ^ 23 <= Z.pos m' < 2 ^ 24 /\
    (Rabs (IZR (Z.pos m') * bpow e' - IZR (Z.pos mx) * bpow ex * (IZR (Z.pos my) * bpow ey))
       <= bpow (-23) * (IZR (Z.pos mx) * bpow ex * (IZR (Z.pos my) * bpow ey)))%R.
Proof.
  intros Hx Hy He. unfold F32.mul, F32.prec, F32.emax. cbn [SFmul].
  rewrite xorb_false_r, Pos2Z.inj_mul.
  assert (HM : 2 ^ 46 <= Z.pos mx * Z.pos my < 2 ^ 48).
  { change (2 ^ 46) with (2 ^ 23 * 2 ^ 23). change (2 ^ 48) with (2 ^ 24 * 2 ^ 24). nia. }
  pose proof (Zdigits2_ge (Z.pos mx * Z.pos my) 46 ltac:(lia) (proj1 HM)) as Hd1.
  pose proof (Zdigits2_le_pow2 (Z.pos mx * Z.pos my) 48 ltac:(lia) (proj2 HM)) as Hd2.
  destruct (binary_round_aux_rel 24 128 s (Z.pos mx * Z.pos my) (ex + ey) loc_Exact
              (IZR (Z.pos mx * Z.pos my)))
    as (m' & e' & Hres & Hm' & He' & Hv);
    [lia | change (2 ^ (24 - 1)) with (2 ^ 23); lia | lia | lia | lra |].
  exists m', e'. split; [done|]. split; [done|].
  assert (E : (IZR (Z.pos mx * Z.pos my) * bpow (ex + ey)
               = IZR (Z.pos mx) * bpow ex * (IZR (Z.pos my) * bpow ey))%R).
  { rewrite mult_IZR, bpow_add. lra. }
  by rewrite E in Hv.
Qed.

(** The negative powers of two, as inverses of integers. *)
Lemma bpow_neg k : 0 <= k -> bpow (- k) = (/ IZR (2 ^ k))%R.
Proof. intros Hk. rewrite <- bpow_IZR by done. apply powerRZ_neg'. Qed.

(** A relative error bound, as an interval. *)
Lemma Rabs_rel_inv (x y eta : R) :
  (Rabs (y - x) <= eta * x -> (1 - eta) * x <= y <= (1 + eta) * x)%R.
Proof. unfold Rabs. destruct (Rcase_abs (y - x)); lra. Qed.

(** Five roundings in a row, on the reals: the quotient (binary64), its
    conversion, the square root, the conversion of the coefficient and the
    product (float32). *)
Lemma step_size_error (A L v1 v2 v3 c z : R) :
  (0 <= A -> 0 <= L ->
   Rabs (v1 - A) <= / 4503599627370496 * A ->
   Rabs (v2 - v1) <= / 8388608 * v1 ->
   Rabs (v3 - sqrt v2) <= / 8388608 * sqrt v2 ->
   Rabs (c - L) <= / 8388608 * L ->
   Rabs (z - c * v3) <= / 8388608 * (c * v3) ->
   Rabs (z - L * sqrt A) <= / 1048576 * (L * sqrt A))%R.
Proof.
  intros HA HL H1 H2 H3 H4 H5.
  apply Rabs_rel_inv in H1, H2, H3, H4, H5.
  pose proof (sqrt_pos A) as HS. set (S := sqrt A) in *.
  assert (Hlo : ((1 - / 8388608) * S <= sqrt v2)%R).
  { unfold S. rewrite <- (sqrt_square (1 - / 8388608)) by lra.
    rewrite <- sqrt_mult_alt by nra. apply sqrt_le_1_alt. lra. }
  assert (Hhi : (sqrt v2 <= (1 + / 8388608) * S)%R).
  { unfold S. rewrite <- (sqrt_square (1 + / 8388608)) by lra.
    rewrite <- sqrt_mult_alt by nra. apply sqrt_le_1_alt. lra. }
  assert (Hv3 : ((1 - / 8388608) * (1 - / 8388608) * S <= v3
                 <= (1 + / 8388608) * (1 + / 8388608) * S)%R) by lra.
  assert (Hc : ((1 - / 8388608) * L <= c <= (1 + / 8388608) * L)%R) by lra.
  assert (Hprod : ((1 - / 8388608) * (1 - / 8388608) * (1 - / 8388608) * (L * S) <= c * v3
                   <= (1 + / 8388608) * (1 + / 8388608) * (1 + / 8388608) * (L * S))%R).
  { split.
    - replace ((1 - / 8388608) * (1 - / 8388608) * (1 - / 8388608) * (L * S))%R
        with (((1 - / 8388608) * L) * ((1 - / 8388608) * (1 - / 8388608) * S))%R by ring.
      apply Rmult_le_compat; [nra | nra | lra | lra].
    - replace ((1 + / 8388608) * (1 + / 8388608) * (1 + / 8388608) * (L * S))%R
        with (((1 + / 8388608) * L) * ((1 + / 8388608) * (1 + / 8388608) * S))%R by ring.
      apply Rmult_le_compat; [nra | nra | lra | lra]. }
  assert (HW : (0 <= L * S)%R) by (apply Rmult_le_pos; lra).
  set (W := (L * S)%R) in *. set (cv := (c * v3)%R) in *.
  apply Rabs_le. lra.
Qed.

(** [Ok] is injective. *)
Lemma Ok_inj {A} (a b : A) : Ok a = Ok b -> a = b.
Proof. by intros [=]. Qed.

(** The step size of a learner the constructor has returned. *)
Lemma init_lr_beta_inv dev prev_header D N S lr_coeff B self :
  __init__ dev prev_header D N S lr_coeff B = Ok self ->
  lr_beta self =
    F32.mul (F32.of_f64 lr_coeff)
            (F32.sqrt (F32.of_f64 (F64.div (F64.exact 1) (F64.exact (N * D))))).
Proof.
  unfold __init__, py_truediv.
  destruct (decide (N * D = 0)); [done|]. cbn [mbind result_bind].
  destruct (torch_zeros D) as [w|]; [|done]. cbn [mbind result_bind].
  destruct (setitem w 0 F32.one) as [w'|]; [|done]. cbn [mbind result_bind].
  intros H. apply Ok_inj in H. by rewrite <- H.
Qed.

(** C10, as far as it holds: for positive [num_iter] and [dim_sample] whose
    product is below [2 ^ 126], and a coefficient [lr_coeff] that is finite
    with [2 ^ -62 <= |lr_coeff| < 2 ^ 123], the step size of a learner the
    constructor has returned is a finite float32 number, and the real
    number it stands for is the real number
    [lr_coeff * sqrt (1 / (num_iter * dim_sample))] up to the five roundings
    of the computation: the relative error is at most [2 ^ -20]. *)
Theorem init_lr_beta_accuracy dev prev_header D N S s m e B self :
  0 < N -> 0 < D -> N * D < 2 ^ 126 ->
  -61 <= Zdigits2 (Z.pos m) + e <= 123 ->
  __init__ dev prev_header D N S (S754_finite s m e) B = Ok self ->
  is_finite (lr_beta self) /\
  (Rabs (F2R (lr_beta self) - F2R (S754_finite s m e) * sqrt (1 / IZR (N * D)))
     <= bpow (-20) * Rabs (F2R (S754_finite s m e) * sqrt (1 / IZR (N * D))))%R.
Proof.
  intros HN HD HP Hmag Hinit. rewrite (init_lr_beta_inv _ _ _ _ _ _ _ _ Hinit).
  clear Hinit.
  assert (HP0 : 0 < N * D) by nia.
  destruct (truediv_one_rel (N * D) ltac:(lia)) as (m1 & e1 & -> & Hm1 & He1 & Hdp & Hv1).
  assert (Hd1 : Zdigits2 (Z.pos m1) = 53)
    by (apply Zdigits2_eq; [change (2 ^ (53 - 1)) with (2 ^ 52)|]; lia).
  destruct (of_f64_rel false m1 e1 ltac:(lia)) as (m2 & e2 & -> & Hm2 & He2 & Hv2).
  rewrite Hd1 in He2.
  destruct (sqrt_rel m2 e2 Hm2 ltac:(lia)) as (m3 & e3 & -> & Hm3 & He3 & Hv3).
  pose proof (Z.div_mod e2 2 ltac:(lia)) as Hdiv.
  pose proof (Z.mod_pos_bound e2 2 ltac:(lia)) as Hmod.
  destruct (of_f64_rel s m e ltac:(lia)) as (mc & ec & -> & Hmc & Hec & Hvc).
  destruct (mul_rel s mc ec m3 e3 Hmc Hm3 ltac:(lia)) as (mz & ez & -> & Hmz & Hvz).
  split; [done|].
  assert (E20 : bpow (-20) = (/ 1048576)%R) by exact (bpow_neg 20 ltac:(lia)).
  assert (E23 : bpow (-23) = (/ 8388608)%R) by exact (bpow_neg 23 ltac:(lia)).
  assert (E52 : bpow (-52) = (/ 4503599627370496)%R) by exact (bpow_neg 52 ltac:(lia)).
  rewrite E23 in Hv2, Hv3, Hvc, Hvz. rewrite E52 in Hv1. rewrite E20.
  assert (HA : (0 <= / IZR (N * D))%R).
  { apply Rlt_le, Rinv_0_lt_compat, IZR_lt. lia. }
  assert (HL : (0 <= IZR (Z.pos m) * bpow e)%R).
  { apply Rmult_le_pos; [apply IZR_le; lia | apply Rlt_le, bpow_pos]. }
  pose proof (step_size_error _ _ _ _ _ _ _ HA HL Hv1 Hv2 Hv3 Hvc Hvz) as Hall.
  replace (1 / IZR (N * D))%R with (/ IZR (N * D))%R by lra.
  pose proof (sqrt_pos (/ IZR (N * D))) as HS.
  assert (HW : (0 <= IZR (Z.pos m) * bpow e * sqrt (/ IZR (N * D)))%R)
    by (by apply Rmult_le_pos).
  cbn [F2R]. destruct s.
  - replace (-1 * (IZR (Z.pos mz) * bpow ez)
             - -1 * (IZR (Z.pos m) * bpow e) * sqrt (/ IZR (N * D)))%R
      with (- (IZR (Z.pos mz) * bpow ez - IZR (Z.pos m) * bpow e * sqrt (/ IZR (N * D))))%R
      by lra.
    replace (-1 * (IZR (Z.pos m) * bpow e) * sqrt (/ IZR (N * D)))%R
      with (- (IZR (Z.pos m) * bpow e * sqrt (/ IZR (N * D))))%R by lra.
    by rewrite !Rabs_Ropp, (Rabs_pos_eq _ HW).
  - rewrite !Rmult_1_l. by rewrite (Rabs_pos_eq _ HW).
Qed.

End ConditionalLearner.

(** ** The seed of the training runs *)

Section Seed.

Variable raw_data : Type.
Variable data_device : raw_data -> device.
Variable sparse_tensor : Type.
Variable to_dense : sparse_tensor -> matrix.
Variable size0 : sparse_tensor -> Z.
Variable dataset : Type.
Variable TransformedDataset : raw_data -> option sparse_tensor -> dataset.
Variable ds_len : dataset -> nat.
Variable ds_getitem_all : dataset -> list (bool * list spec_float).
Variable decide_sample : vec -> vec -> bool.
Variable rng : Type.
Variable randperm : nat -> rng -> list nat * rng.

(** Two selector trainers that [forward] may be run with. *)
Variable trainer1 trainer2 :
  SelectorPerceptron -> Subset dataset -> Subset dataset -> vec -> rng ->
  result (matrix * list spec_float * rng).

Lemma init_inv dev prev_header D N S lr_coeff B self :
  __init__ dev prev_header D N S lr_coeff B = Ok self ->
  0 < D /\ dim_sample self = D /\ init_weight self = one_hot (Z.to_nat D) /\
  init_weight_device self = dev.
Proof.
  unfold __init__. intros H.
  apply bind_Ok_inv in H as (q & _ & H).
  apply bind_Ok_inv in H as (w & Hw & H).
  apply bind_Ok_inv in H as (w' & Hw' & [= <-]).
  unfold torch_zeros in Hw. case_decide; [done|]. injection Hw as <-.
  unfold setitem in Hw'. case_decide as Hlen; [|done]. injection Hw' as <-.
  rewrite length_replicate in Hlen. cbn [dim_sample init_weight init_weight_device].
  split; [lia|done].
Qed.

Lemma one_hot_length n : length (one_hot n) = n.
Proof. unfold one_hot. by rewrite length_insert, length_replicate. Qed.

Lemma one_hot_head n : (0 < n)%nat -> one_hot n !! 0%nat = Some F32.one.
Proof. intros H. apply list_lookup_insert_eq. by rewrite length_replicate. Qed.

Lemma one_hot_tail n j : (0 < j < n)%nat -> one_hot n !! j = Some F32.zero.
Proof.
  intros H. unfold one_hot. rewrite list_lookup_insert_ne by lia.
  apply lookup_replicate. split; [done|lia].
Qed.

(** A training call leaves the learner as it was when the trainer got a copy
    of the initial weight, or got the tensor itself and did not update it. *)
Lemma train_selectors_keeps_learner data i classifiers e selectors e' :
  data_device data <> init_weight_device (this e) \/ read_only dataset rng trainer1 ->
  train_selectors raw_data data_device sparse_tensor size0 dataset TransformedDataset
    ds_len rng randperm trainer1 data i classifiers e = Ok (selectors, e') ->
  this e' = this e.
Proof.
  intros Hro H.
  apply train_selectors_inv in H as (cfg & tr & va & g0 & w' & _ & Hcall & ->).
  case_decide as Hdev; [|done].
  destruct Hro as [Hne|Hro]; [done|].
  rewrite (Hro _ _ _ _ _ _ _ _ Hcall). by destruct (this e).
Qed.

Lemma train_selectors_ext data i classifiers e :
  (forall cfg tr va g0,
     trainer1 cfg tr va (init_weight (this e)) g0 =
     trainer2 cfg tr va (init_weight (this e)) g0) ->
  train_selectors raw_data data_device sparse_tensor size0 dataset TransformedDataset
    ds_len rng randperm trainer1 data i classifiers e =
  train_selectors raw_data data_device sparse_tensor size0 dataset TransformedDataset
    ds_len rng randperm trainer2 data i classifiers e.
Proof.
  intros Hext. unfold train_selectors.
  destruct (random_split _ _ _ _ _ _ _ _) as [[[tr va] g0]|err]; [|done].
  cbn [mbind result_bind]. by rewrite Hext.
Qed.

(** Along the loop the learner stays as it was, so every training call
    starts from the same initial weight, and two trainers that agree on it
    drive the loop to the same state. *)
Lemma forward_loop_seed data eval_dataset clusters : forall i st,
  data_device data <> init_weight_device (this (env _ st))
    \/ read_only dataset rng trainer1 ->
  (forall cfg tr va g0,
     trainer1 cfg tr va (init_weight (this (env _ st))) g0 =
     trainer2 cfg tr va (init_weight (this (env _ st))) g0) ->
  forward_loop raw_data data_device sparse_tensor to_dense size0 dataset
    TransformedDataset ds_len ds_getitem_all decide_sample rng randperm trainer1
    data eval_dataset i clusters st =
  forward_loop raw_data data_device sparse_tensor to_dense size0 dataset
    TransformedDataset ds_len ds_getitem_all decide_sample rng randperm trainer2
    data eval_dataset i clusters st /\
  forall st',
    forward_loop raw_data data_device sparse_tensor to_dense size0 dataset
      TransformedDataset ds_len ds_getitem_all decide_sample rng randperm trainer1
      data eval_dataset i clusters st = Ok st' ->
    this (env _ st') = this (env _ st).
Proof.
  induction clusters as [|cl rest IH]; intros i st Hro Hext.
  - split; [done|]. by intros st' [= <-].
  - cbn [forward_loop]. unfold forward_body.
    rewrite <- (train_selectors_ext data i cl (env _ st) Hext).
    destruct (train_selectors _ _ _ _ _ _ _ _ _ trainer1 _ _ _ _)
      as [[sel e1]|err] eqn:Etrain; [|done].
    pose proof (train_selectors_keeps_learner _ _ _ _ _ _ Hro Etrain) as Hthis.
    cbn [mbind result_bind].
    destruct (evaluate _ _ _ _ _ _) as [[c s]|err]; [|done]. cbn [mbind result_bind].
    destruct (setrow _ _ c) as [cc|err]; [|done]. cbn [mbind result_bind].
    destruct (setrow _ _ s) as [cs|err]; [|done]. cbn [mbind result_bind].
    set (st1 := Build_loop_state rng cc cs e1).
    destruct (IH (S i) st1) as [IH1 IH2].
    { cbn [st1 env]. by rewrite Hthis. }
    { cbn [st1 env]. by rewrite Hthis. }
    split; [done|]. intros st' Hst'. rewrite (IH2 st' Hst'). done.
Qed.

(** C7: the weight vector a constructed learner holds is the one-hot vector
    of dimension [dim_sample] (1 at index 0, 0 elsewhere).  When each
    training run gets a copy of it (the data lives on another device) or
    gets the tensor itself and leaves it as it was (the trainer's read-only
    contract), [forward] returns the learner unchanged, and that one-hot
    vector is the only initial weight a training run ever receives: two
    trainers that agree on that seed make [forward] return the same result
    on every cluster list and generator. *)
Theorem init_weight_is_fixed_seed dev prev_header D N S lr_coeff B self data :
  __init__ dev prev_header D N S lr_coeff B = Ok self ->
  data_device data <> init_weight_device self \/ read_only dataset rng trainer1 ->
  (forall cfg tr va g0,
     trainer1 cfg tr va (one_hot (Z.to_nat D)) g0 =
     trainer2 cfg tr va (one_hot (Z.to_nat D)) g0) ->
  init_weight self = one_hot (Z.to_nat D) /\
  length (init_weight self) = Z.to_nat D /\
  init_weight self !! 0%nat = Some F32.one /\
  (forall j, (0 < j < Z.to_nat D)%nat -> init_weight self !! j = Some F32.zero) /\
  forall clusters g,
    forward raw_data data_device sparse_tensor to_dense size0 dataset TransformedDataset
      ds_len ds_getitem_all decide_sample rng randperm trainer1 data clusters
      (Build_store self g) =
    forward raw_data data_device sparse_tensor to_dense size0 dataset TransformedDataset
      ds_len ds_getitem_all decide_sample rng randperm trainer2 data clusters
      (Build_store self g) /\
    forall c s e',
      forward raw_data data_device sparse_tensor to_dense size0 dataset
        TransformedDataset ds_len ds_getitem_all decide_sample rng randperm trainer1
        data clusters (Build_store self g) = Ok (c, s, e') ->
      this e' = self.
Proof.
  intros Hinit Hro Hext. apply init_inv in Hinit as (HD & _ & Hw & _).
  rewrite Hw. split; [done|].
  split; [apply one_hot_length|].
  split; [apply one_hot_head; lia|].
  split; [apply one_hot_tail|].
  - intros clusters g. unfold forward. cbn [this].
    destruct (torch_zeros2 _ _) as [t|err]; [|done]. cbn [mbind result_bind].
    set (st0 := Build_loop_state rng t t (Build_store self g)).
    destruct (forward_loop_seed data (TransformedDataset data None) clusters 0%nat st0)
      as [H1 H2]; [done | cbn [st0 env this]; by rewrite Hw |].
    rewrite <- H1. split; [done|].
    intros c s e' H. apply bind_Ok_inv in H as (st' & Hloop & H).
    apply bind_Ok_inv in H as ([c' s'] & _ & [= _ _ <-]).
    by rewrite (H2 st' Hloop).
Qed.

End Seed.

(** ** The theorems on the concrete collaborators *)

Abbreviation demo_rates :=
  (conditional_error_rate Demo.dataset Demo.ds_getitem_all Demo.decide_sample).
Abbreviation demo_evaluate :=
  (evaluate Demo.dataset Demo.ds_getitem_all Demo.decide_sample).
Abbreviation demo_forward :=
  (forward Demo.raw_data Demo.data_device Demo.sparse_tensor Demo.to_dense Demo.size0
     Demo.dataset Demo.TransformedDataset Demo.ds_len Demo.ds_getitem_all
     Demo.decide_sample Demo.rng Demo.randperm).
Abbreviation demo_forward_body :=
  (forward_body Demo.raw_data Demo.data_device Demo.sparse_tensor Demo.to_dense
     Demo.size0 Demo.dataset Demo.TransformedDataset Demo.ds_len Demo.ds_getitem_all
     Demo.decide_sample Demo.rng Demo.randperm Demo.trainer).
Abbreviation demo_forward_loop :=
  (forward_loop Demo.raw_data Demo.data_device Demo.sparse_tensor Demo.to_dense
     Demo.size0 Demo.dataset Demo.TransformedDataset Demo.ds_len Demo.ds_getitem_all
     Demo.decide_sample Demo.rng Demo.randperm Demo.trainer).
Abbreviation demo_cluster_bests :=
  (cluster_bests Demo.raw_data Demo.data_device Demo.sparse_tensor Demo.to_dense
     Demo.size0 Demo.dataset Demo.TransformedDataset Demo.ds_len Demo.ds_getitem_all
     Demo.decide_sample Demo.rng Demo.randperm Demo.trainer).
Abbreviation demo_train_selectors :=
  (train_selectors Demo.raw_data Demo.data_device Demo.sparse_tensor Demo.size0
     Demo.dataset Demo.TransformedDataset Demo.ds_len Demo.rng Demo.randperm
     Demo.trainer).
Abbreviation demo_random_split :=
  (random_split Demo.dataset Demo.ds_len Demo.rng Demo.randperm).
Abbreviation demo_store := (Build_store Demo.self 0%nat).

(** Two rows whose selectors claim no sample: the rate of row 1 is 1. *)
Lemma evaluate_zero_selection_rate_one_witness :
  length [[F32.one; F32.zero]; [F32.zero; F32.one]]
    = length [[F32.zero; F32.zero]; [F32.zero; F32.zero]] /\
  count_samples (selected Demo.decide_sample [F32.zero; F32.zero]) Demo.data = 0 /\
  exists rate,
    demo_rates Demo.data [[F32.one; F32.zero]; [F32.zero; F32.one]]
                         [[F32.zero; F32.zero]; [F32.zero; F32.zero]] = Ok rate /\
    length rate = 2%nat /\
    rate !! 1%nat = Some F32.one.
Proof.
  split; [reflexivity|]. split; [vm_compute; reflexivity|].
  destruct (evaluate_zero_selection_rate_one Demo.dataset Demo.ds_getitem_all
              Demo.decide_sample Demo.data
              [[F32.one; F32.zero]; [F32.zero; F32.one]]
              [[F32.zero; F32.zero]; [F32.zero; F32.zero]]) as [H1 H2].
  destruct (H2 eq_refl) as (rate & Hrate & Hlen).
  exists rate. split; [exact Hrate|]. split; [exact Hlen|].
  destruct (H1 rate Hrate) as (Hone & _ & _).
  destruct (lookup_lt_is_Some_2 rate 1%nat) as [r Hr];
    [rewrite Hlen; repeat constructor|].
  rewrite Hr. f_equal.
  apply (Hone 1%nat r [F32.zero; F32.zero] Hr eq_refl). vm_compute; reflexivity.
Defined.

(** One error among the two samples the selector claims: the rate is 1/2. *)
Lemma evaluate_rate_is_quotient_witness :
  Z.of_nat (length (Demo.ds_getitem_all
    [(false, [F32.one; F32.zero]); (true, [F32.one; F32.zero]);
     (true, [F32.zero; F32.one])])) < 2 ^ 63 /\
  exists rate,
    demo_rates [(false, [F32.one; F32.zero]); (true, [F32.one; F32.zero]);
                (true, [F32.zero; F32.one])]
               [[F32.one; F32.zero]] [[F32.one; F32.zero]] = Ok rate /\
    rate !! 0%nat = Some (F32.div (F32.of_int 1) (F32.of_int 2)).
Proof.
  assert (Hfit : Z.of_nat (length (Demo.ds_getitem_all
            [(false, [F32.one; F32.zero]); (true, [F32.one; F32.zero]);
             (true, [F32.zero; F32.one])])) < 2 ^ 63) by (vm_compute; reflexivity).
  split; [exact Hfit|].
  destruct (evaluate_rate_is_quotient Demo.dataset Demo.ds_getitem_all
              Demo.decide_sample
              [(false, [F32.one; F32.zero]); (true, [F32.one; F32.zero]);
               (true, [F32.zero; F32.one])]
              [[F32.one; F32.zero]] [[F32.one; F32.zero]] Hfit) as [H1 H2].
  destruct (H2 eq_refl) as (rate & Hrate & Hlen).
  exists rate. split; [exact Hrate|].
  destruct (lookup_lt_is_Some_2 rate 0%nat) as [r Hr];
    [rewrite Hlen; repeat constructor|].
  rewrite Hr. f_equal.
  rewrite (H1 rate 0%nat r [F32.one; F32.zero] [F32.one; F32.zero] Hrate Hr eq_refl eq_refl);
    vm_compute; reflexivity.
Defined.

(** The second row has the lower rate and is the one returned. *)
Lemma evaluate_returns_first_minimum_witness :
  length [[F32.one; F32.zero]; [F32.zero; F32.one]]
    = length [[F32.one; F32.zero]; [F32.one; F32.zero]] /\
  exists c s rate k,
    demo_evaluate Demo.data [[F32.one; F32.zero]; [F32.zero; F32.one]]
                            [[F32.one; F32.zero]; [F32.one; F32.zero]] = Ok (c, s) /\
    demo_rates Demo.data [[F32.one; F32.zero]; [F32.zero; F32.one]]
                         [[F32.one; F32.zero]; [F32.one; F32.zero]] = Ok rate /\
    [[F32.one; F32.zero]; [F32.zero; F32.one]] !! k = Some c /\
    [[F32.one; F32.zero]; [F32.one; F32.zero]] !! k = Some s /\
    first_minimum rate k.
Proof.
  split; [reflexivity|].
  destruct (evaluate_returns_first_minimum Demo.dataset Demo.ds_getitem_all
              Demo.decide_sample Demo.data
              [[F32.one; F32.zero]; [F32.zero; F32.one]]
              [[F32.one; F32.zero]; [F32.one; F32.zero]]) as [H1 H2].
  destruct (H2 eq_refl ltac:(discriminate)) as (c & s & Hev).
  destruct (H1 c s Hev) as (rate & k & Hrate & Hc & Hs & Hfirst & _).
  exists c, s, rate, k. repeat split; assumption.
Defined.

Lemma forward_is_final_evaluate_witness :
  Demo.clusters <> [] /\
  0 <= dim_sample Demo.self /\
  demo_cluster_bests Demo.data (Demo.TransformedDataset Demo.data None)
    0%nat Demo.clusters demo_store
    = Ok ([([F32.zero; F32.one], [F32.one; F32.zero]);
           ([F32.zero; F32.one], [F32.one; F32.zero])], Build_store Demo.self 4%nat) /\
  exists c s,
    demo_forward Demo.trainer Demo.data Demo.clusters demo_store
      = Ok (c, s, Build_store Demo.self 4%nat) /\
    length c = Z.to_nat (dim_sample Demo.self) /\
    length s = Z.to_nat (dim_sample Demo.self).
Proof.
  assert (H1 : Demo.clusters <> []) by discriminate.
  assert (H2 : 0 <= dim_sample (this demo_store)) by (vm_compute; discriminate).
  assert (H3 : demo_cluster_bests Demo.data
                 (Demo.TransformedDataset Demo.data None) 0%nat Demo.clusters demo_store
               = Ok ([([F32.zero; F32.one], [F32.one; F32.zero]);
                      ([F32.zero; F32.one], [F32.one; F32.zero])],
                     Build_store Demo.self 4%nat))
    by (vm_compute; reflexivity).
  assert (H4 : Forall (fun b : list spec_float * list spec_float =>
                         length b.1 = Z.to_nat (dim_sample (this demo_store)) /\
                         length b.2 = Z.to_nat (dim_sample (this demo_store)))
                 [([F32.zero; F32.one], [F32.one; F32.zero]);
                  ([F32.zero; F32.one], [F32.one; F32.zero])])
    by (repeat constructor).
  split; [exact H1|]. split; [exact H2|]. split; [exact H3|].
  exact (proj2 (proj2 (forward_is_final_evaluate _ _ _ _ _ _ _ _ _ _ _ _ _ _ _ _ _ _
                         H1 H2 H3 H4))).
Defined.

Lemma forward_pair_originates_witness :
  exists c s e',
    demo_forward Demo.trainer Demo.data Demo.clusters demo_store = Ok (c, s, e') /\
    exists i cl pre e_i selectors e_i' k,
      Demo.clusters !! i = Some cl /\
      demo_cluster_bests Demo.data (Demo.TransformedDataset Demo.data None)
        0%nat (take i Demo.clusters) demo_store = Ok (pre, e_i) /\
      demo_train_selectors Demo.data i cl e_i = Ok (selectors, e_i') /\
      Demo.to_dense cl !! k = Some c /\
      selectors !! k = Some s.
Proof.
  eexists _, _, _. split; [vm_compute; reflexivity|].
  apply (forward_pair_originates Demo.raw_data Demo.data_device Demo.sparse_tensor
           Demo.to_dense Demo.size0 Demo.dataset Demo.TransformedDataset Demo.ds_len
           Demo.ds_getitem_all Demo.decide_sample Demo.rng Demo.randperm Demo.trainer
           Demo.data Demo.clusters demo_store _ _ (Build_store Demo.self 4%nat)).
  - intros cl row Hcl Hrow. unfold Demo.clusters in Hcl.
    repeat (apply elem_of_cons in Hcl as [->|Hcl]);
      [ | | by apply elem_of_nil in Hcl];
      unfold Demo.to_dense in Hrow;
      repeat (apply elem_of_cons in Hrow as [->|Hrow]);
      try reflexivity; by apply elem_of_nil in Hrow.
  - intros cfg tr va w g0 sel w' g1 row Hcfg [= <- _ _] Hrow.
    apply elem_of_replicate in Hrow as [-> _].
    rewrite length_resize, Hcfg. reflexivity.
  - vm_compute; reflexivity.
Defined.


(** The data lives where [init_weight] does, so the trainer is handed the
    tensor itself; it leaves it as it was. *)
Lemma init_weight_is_fixed_seed_witness :
  __init__ cpu "" 2 4 2 Demo.half 32 = Ok Demo.self /\
  read_only Demo.dataset Demo.rng Demo.trainer /\
  init_weight Demo.self = one_hot 2 /\
  forall clusters g,
    demo_forward Demo.trainer Demo.data clusters (Build_store Demo.self g) =
    demo_forward Demo.strict_trainer Demo.data clusters (Build_store Demo.self g) /\
    forall c s e',
      demo_forward Demo.trainer Demo.data clusters (Build_store Demo.self g)
        = Ok (c, s, e') ->
      this e' = Demo.self.
Proof.
  assert (Hinit : __init__ cpu "" 2 4 2 Demo.half 32 = Ok Demo.self)
    by (vm_compute; reflexivity).
  assert (Hro : read_only Demo.dataset Demo.rng Demo.trainer)
    by (intros cfg tr va w g sel w' g' [= _ <- _]; reflexivity).
  assert (Hext : forall cfg tr va g0,
            Demo.trainer cfg tr va (one_hot (Z.to_nat 2)) g0 =
            Demo.strict_trainer cfg tr va (one_hot (Z.to_nat 2)) g0)
    by (intros cfg tr va g0; reflexivity).
  destruct (init_weight_is_fixed_seed Demo.raw_data Demo.data_device Demo.sparse_tensor
              Demo.to_dense Demo.size0 Demo.dataset Demo.TransformedDataset Demo.ds_len
              Demo.ds_getitem_all Demo.decide_sample Demo.rng Demo.randperm
              Demo.trainer Demo.strict_trainer cpu "" 2 4 2 Demo.half 32 Demo.self
              Demo.data Hinit (or_intror Hro) Hext)
    as (H1 & _ & _ & _ & H5).
  split; [exact Hinit|]. split; [exact Hro|]. split; [exact H1 | exact H5].
Defined.

(** A training split that takes the four samples leaves none to validate. *)
Lemma forward_split_sizes_witness :
  (forall n g0, length (Demo.randperm n g0).1 = n) /\
  0 <= 4 <= Z.of_nat (Demo.ds_len Demo.data) /\
  exists tr va g',
    demo_random_split Demo.data 4 (Z.of_nat (Demo.ds_len Demo.data) - 4) 0%nat
      = Ok (tr, va, g') /\
    Z.of_nat (subset_len tr) = 4 /\
    Z.of_nat (subset_len va) = Z.of_nat (Demo.ds_len Demo.data) - 4 /\
    sub_indices va = [].
Proof.
  assert (Hperm : forall n g0, length (Demo.randperm n g0).1 = n)
    by (intros n g0; apply length_seq).
  assert (Hsize : 0 <= 4 <= Z.of_nat (Demo.ds_len Demo.data))
    by (vm_compute; split; discriminate).
  split; [exact Hperm|]. split; [exact Hsize|].
  destruct (forward_split_sizes Demo.raw_data Demo.data_device Demo.sparse_tensor
              Demo.size0 Demo.dataset Demo.TransformedDataset Demo.ds_len Demo.rng
              Demo.randperm Demo.trainer Demo.data 0%nat [[F32.one; F32.zero]]
              (Build_store
                 {| header := ""; dim_sample := 2; num_iter := 4; batch_size := 32;
                    sample_size_psgd := 4; lr_beta := F32.one;
                    init_weight := [F32.one; F32.zero];
                    init_weight_device := cpu |} 0%nat) Hperm Hsize)
    as (tr & va & g' & cfg & H1 & H2 & H3 & _ & H5).
  exists tr, va, g'. split; [exact H1|]. split; [exact H2|]. split; [exact H3|].
  apply H5. reflexivity.
Defined.

(** The learner built with [dim_sample = 2], [num_iter = 4] and
    [lr_coeff = 0.5]: the constructor returns it, and its step size is within
    [2 ^ -20] of [0.5 * sqrt (1 / 8)], relatively. *)
Lemma init_lr_beta_accuracy_witness :
  0 < 4 /\ 0 < 2 /\ 4 * 2 < 2 ^ 126 /\
  -61 <= Zdigits2 (Z.pos 4503599627370496) + -53 <= 123 /\
  __init__ cpu "" 2 4 2 Demo.half 32 = Ok Demo.self /\
  is_finite (lr_beta Demo.self) /\
  (Rabs (F2R (lr_beta Demo.self) - F2R Demo.half * sqrt (1 / IZR (4 * 2)))
     <= bpow (-20) * Rabs (F2R Demo.half * sqrt (1 / IZR (4 * 2))))%R.
Proof.
  assert (HN : 0 < 4) by reflexivity.
  assert (HD : 0 < 2) by reflexivity.
  assert (HP : 4 * 2 < 2 ^ 126) by (vm_compute; reflexivity).
  assert (Hmag : -61 <= Zdigits2 (Z.pos 4503599627370496) + -53 <= 123)
    by (vm_compute; split; discriminate).
  assert (Hinit : __init__ cpu "" 2 4 2 Demo.half 32 = Ok Demo.self)
    by (vm_compute; reflexivity).
  split; [exact HN|]. split; [exact HD|]. split; [exact HP|]. split; [exact Hmag|].
  split; [exact Hinit|].
  exact (init_lr_beta_accuracy cpu "" 2 4 2 false 4503599627370496 (-53) 32 Demo.self
           HN HD HP Hmag Hinit).
Defined.

(** ** The further properties on the concrete collaborators *)

(** Seven training samples asked of a view of four: the training split takes
    the four and the validation split is empty. *)
Lemma forward_split_any_size_witness :
  (forall n g0, length (Demo.randperm n g0).1 = n) /\
  exists tr va,
    demo_random_split Demo.data 7 (Z.of_nat (Demo.ds_len Demo.data) - 7) 0%nat
      = Ok (tr, va, 1%nat) /\
    sub_indices tr = [0; 1; 2; 3]%nat /\
    sub_indices va = [].
Proof.
  assert (Hperm : forall n g0, length (Demo.randperm n g0).1 = n)
    by (intros n g0; apply length_seq).
  split; [exact Hperm|].
  destruct (forward_split_any_size Demo.dataset Demo.ds_len Demo.rng Demo.randperm
              Demo.data 7 0%nat Hperm) as [H1 _].
  assert (Hne : Z.of_nat (Demo.ds_len Demo.data) <> 1 \/ 0 <= 7 <= 1)
    by (left; vm_compute; discriminate).
  destruct (H1 Hne) as (tr & va & Hsplit & Happ & _ & Hnil).
  assert (Hle : Z.of_nat (Demo.ds_len Demo.data) <= 7) by (vm_compute; discriminate).
  specialize (Hnil Hle).
  exists tr, va. split; [exact Hsplit|]. split; [|exact Hnil].
  rewrite Hnil, app_nil_r in Happ. exact Happ.
Defined.

(** A cluster without classifiers between two clusters: its evaluation finds
    no row, and [forward] raises that error. *)
Lemma forward_first_failure_witness :
  demo_forward Demo.trainer Demo.data
    ([[[F32.one; F32.zero]; [F32.zero; F32.one]]] ++ [] :: [[[F32.zero; F32.one]]])
    demo_store
  = Raise (IndexError "min(): Expected reduction dim 0 to have non-zero size.").
Proof.
  apply (forward_first_failure Demo.raw_data Demo.data_device Demo.sparse_tensor
           Demo.to_dense Demo.size0 Demo.dataset Demo.TransformedDataset Demo.ds_len
           Demo.ds_getitem_all Demo.decide_sample Demo.rng Demo.randperm Demo.trainer
           Demo.data [[[F32.one; F32.zero]; [F32.zero; F32.one]]] [] [[[F32.zero; F32.one]]]
           demo_store [([F32.zero; F32.one], [F32.one; F32.zero])]
           (Build_store Demo.self 2%nat)).
  - vm_compute; discriminate.
  - vm_compute; reflexivity.
  - repeat constructor.
  - vm_compute; reflexivity.
Defined.

Lemma forward_returns_dim_sample_witness :
  exists c s e',
    demo_forward Demo.trainer Demo.data Demo.clusters demo_store = Ok (c, s, e') /\
    length c = 2%nat /\ length s = 2%nat /\
    dim_sample (this e') = 2.
Proof.
  assert (H : demo_forward Demo.trainer Demo.data Demo.clusters demo_store
              = Ok ([F32.zero; F32.one], [F32.one; F32.zero], Build_store Demo.self 4%nat))
    by (vm_compute; reflexivity).
  destruct (forward_returns_dim_sample _ _ _ _ _ _ _ _ _ _ _ _ _ _ _ _ _ _ _ H)
    as (_ & _ & Hc & Hs & HD & _).
  eexists _, _, _. split; [exact H|]. split; [exact Hc|]. split; [exact Hs|]. exact HD.
Defined.

Lemma forward_single_cluster_witness :
  demo_forward Demo.trainer Demo.data [[[F32.one; F32.zero]; [F32.zero; F32.one]]]
    demo_store
  = Ok ([F32.zero; F32.one], [F32.one; F32.zero], Build_store Demo.self 2%nat).
Proof.
  apply (forward_single_cluster Demo.raw_data Demo.data_device Demo.sparse_tensor
           Demo.to_dense Demo.size0 Demo.dataset Demo.TransformedDataset Demo.ds_len
           Demo.ds_getitem_all Demo.decide_sample Demo.rng Demo.randperm Demo.trainer).
  - vm_compute; discriminate.
  - vm_compute; reflexivity.
  - reflexivity.
  - reflexivity.
Defined.

(** The rates of the two rows of the scenario, 1 and 0, are within bounds. *)
Lemma evaluate_rates_in_unit_interval_witness :
  Z.of_nat (length (Demo.ds_getitem_all Demo.data)) < 2 ^ 63 /\
  exists rate,
    demo_rates Demo.data [[F32.one; F32.zero]; [F32.zero; F32.one]]
                         [[F32.one; F32.zero]; [F32.one; F32.zero]] = Ok rate /\
    Forall (fun r => F32.ge r F32.zero = true /\ F32.ge F32.one r = true) rate.
Proof.
  assert (Hfit : Z.of_nat (length (Demo.ds_getitem_all Demo.data)) < 2 ^ 63)
    by (vm_compute; reflexivity).
  split; [exact Hfit|].
  eexists. split; [vm_compute; reflexivity|].
  apply (evaluate_rates_in_unit_interval Demo.dataset Demo.ds_getitem_all
           Demo.decide_sample Demo.data
           [[F32.one; F32.zero]; [F32.zero; F32.one]]
           [[F32.one; F32.zero]; [F32.one; F32.zero]] _ Hfit).
  vm_compute; reflexivity.
Defined.

(** Row 1 errs on none of the two samples it selects; it is returned. *)
Lemma evaluate_returns_first_error_free_witness :
  exists k,
    (k <= 1)%nat /\
    [[F32.one; F32.zero]; [F32.zero; F32.one]] !! k = Some [F32.zero; F32.one] /\
    [[F32.one; F32.zero]; [F32.one; F32.zero]] !! k = Some [F32.one; F32.zero] /\
    error_free Demo.dataset Demo.ds_getitem_all Demo.decide_sample Demo.data
      [F32.zero; F32.one] [F32.one; F32.zero].
Proof.
  assert (Hfit : Z.of_nat (length (Demo.ds_getitem_all Demo.data)) < 2 ^ 63)
    by (vm_compute; reflexivity).
  assert (Hev : demo_evaluate Demo.data [[F32.one; F32.zero]; [F32.zero; F32.one]]
                  [[F32.one; F32.zero]; [F32.one; F32.zero]]
                = Ok ([F32.zero; F32.one], [F32.one; F32.zero]))
    by (vm_compute; reflexivity).
  assert (Hfree : error_free Demo.dataset Demo.ds_getitem_all Demo.decide_sample
                    Demo.data [F32.zero; F32.one] [F32.one; F32.zero])
    by (split; vm_compute; reflexivity).
  destruct (evaluate_returns_first_error_free Demo.dataset Demo.ds_getitem_all
              Demo.decide_sample Demo.data
              [[F32.one; F32.zero]; [F32.zero; F32.one]]
              [[F32.one; F32.zero]; [F32.one; F32.zero]]
              [F32.zero; F32.one] [F32.one; F32.zero] 1%nat
              [F32.zero; F32.one] [F32.one; F32.zero]
              Hfit eq_refl Hev eq_refl eq_refl Hfree)
    as (k & Hk & Hc & Hs & Hf & _).
  exists k. split; [exact Hk|]. split; [exact Hc|]. split; [exact Hs|exact Hf].
Defined.

(** Row 0 of the first cluster, with the selector trained for it, has rate
    1; the pair returned has rate 0. *)
Lemma forward_pair_is_global_minimum_witness :
  demo_forward Demo.trainer Demo.data Demo.clusters demo_store
    = Ok ([F32.zero; F32.one], [F32.one; F32.zero], Build_store Demo.self 4%nat) /\
  F32.ge (row_rate Demo.dataset Demo.ds_getitem_all Demo.decide_sample
            (Demo.TransformedDataset Demo.data None)
            [F32.one; F32.zero] [F32.one; F32.zero])
         (row_rate Demo.dataset Demo.ds_getitem_all Demo.decide_sample
            (Demo.TransformedDataset Demo.data None)
            [F32.zero; F32.one] [F32.one; F32.zero])
    = true.
Proof.
  assert (Hcl : forall cl row, cl ∈ Demo.clusters -> row ∈ Demo.to_dense cl ->
                  length row = Z.to_nat (dim_sample (this demo_store))).
  { intros cl row Hcl Hrow. unfold Demo.clusters in Hcl.
    repeat (apply elem_of_cons in Hcl as [->|Hcl]);
      [ | | by apply elem_of_nil in Hcl];
      unfold Demo.to_dense in Hrow;
      repeat (apply elem_of_cons in Hrow as [->|Hrow]);
      try reflexivity; by apply elem_of_nil in Hrow. }
  assert (Hsel : forall cfg tr va w g0 sel w' g1 row,
                   sp_dim_sample cfg = dim_sample (this demo_store) ->
                   Demo.trainer cfg tr va w g0 = Ok (sel, w', g1) -> row ∈ sel ->
                   length row = Z.to_nat (dim_sample (this demo_store))).
  { intros cfg tr va w g0 sel w' g1 row Hcfg [= <- _ _] Hrow.
    apply elem_of_replicate in Hrow as [-> _].
    rewrite length_resize, Hcfg. reflexivity. }
  assert (H : demo_forward Demo.trainer Demo.data Demo.clusters demo_store
              = Ok ([F32.zero; F32.one], [F32.one; F32.zero], Build_store Demo.self 4%nat))
    by (vm_compute; reflexivity).
  assert (Hi : Demo.clusters !! 0%nat = Some [[F32.one; F32.zero]; [F32.zero; F32.one]])
    by reflexivity.
  assert (Hpre : demo_cluster_bests Demo.data (Demo.TransformedDataset Demo.data None)
                   0%nat (take 0 Demo.clusters) demo_store = Ok ([], demo_store))
    by reflexivity.
  assert (Htrain : demo_train_selectors Demo.data 0%nat
                     [[F32.one; F32.zero]; [F32.zero; F32.one]] demo_store
                   = Ok ([[F32.one; F32.zero]; [F32.one; F32.zero]],
                         Build_store Demo.self 2%nat))
    by (vm_compute; reflexivity).
  assert (Hcj : Demo.to_dense [[F32.one; F32.zero]; [F32.zero; F32.one]] !! 0%nat
                = Some [F32.one; F32.zero]) by reflexivity.
  assert (Hsj : [[F32.one; F32.zero]; [F32.one; F32.zero]] !! 0%nat
                = Some [F32.one; F32.zero]) by reflexivity.
  split; [exact H|].
  exact (proj1 (forward_pair_is_global_minimum _ _ _ _ _ _ _ _ _ _ _ _ _ _ _ _ _ _ _
                  Hcl Hsel H _ _ _ _ _ _ _ _ _ Hi Hpre Htrain Hcj Hsj)).
Defined.

(** The four samples in the reverse order. *)
Lemma evaluate_sample_order_witness :
  Demo.ds_getitem_all Demo.data ≡ₚ Demo.ds_getitem_all (reverse Demo.data) /\
  demo_evaluate (reverse Demo.data) [[F32.one; F32.zero]; [F32.zero; F32.one]]
                                    [[F32.one; F32.zero]; [F32.one; F32.zero]]
    = Ok ([F32.zero; F32.one], [F32.one; F32.zero]).
Proof.
  assert (Hperm : Demo.ds_getitem_all Demo.data ≡ₚ Demo.ds_getitem_all (reverse Demo.data))
    by (symmetry; apply reverse_Permutation).
  split; [exact Hperm|].
  destruct (evaluate_sample_order Demo.dataset Demo.ds_getitem_all Demo.decide_sample
              Demo.data (reverse Demo.data)
              [[F32.one; F32.zero]; [F32.zero; F32.one]]
              [[F32.one; F32.zero]; [F32.one; F32.zero]] Hperm) as [_ <-].
  vm_compute; reflexivity.
Defined.

(** The fourth sample is selected by neither selector. *)
Lemma evaluate_ignores_unselected_witness :
  demo_evaluate (take 3 Demo.data) [[F32.one; F32.zero]; [F32.zero; F32.one]]
                                   [[F32.one; F32.zero]; [F32.one; F32.zero]]
  = demo_evaluate Demo.data [[F32.one; F32.zero]; [F32.zero; F32.one]]
                            [[F32.one; F32.zero]; [F32.one; F32.zero]].
Proof.
  assert (Happ : Demo.ds_getitem_all Demo.data
                 = Demo.ds_getitem_all (take 3 Demo.data) ++ [(true, [F32.zero; F32.one])])
    by reflexivity.
  assert (Hun : forall s x,
            s ∈ [[F32.one; F32.zero]; [F32.one; F32.zero]] ->
            x ∈ [(true, [F32.zero; F32.one])] ->
            selected Demo.decide_sample s x = false).
  { intros s x Hs Hx.
    apply list_elem_of_singleton in Hx as ->.
    repeat (apply elem_of_cons in Hs as [->|Hs]);
      [vm_compute; reflexivity | vm_compute; reflexivity | by apply elem_of_nil in Hs]. }
  exact (proj2 (evaluate_ignores_unselected Demo.dataset Demo.ds_getitem_all
                  Demo.decide_sample (take 3 Demo.data) Demo.data
                  [(true, [F32.zero; F32.one])]
                  [[F32.one; F32.zero]; [F32.zero; F32.one]]
                  [[F32.one; F32.zero]; [F32.one; F32.zero]] Happ Hun)).
Defined.

(** The data lives where [init_weight] does and the trainer zeroes the
    tensor it is given: the learner [forward] leaves holds the zero vector. *)
Lemma forward_init_weight_alias_witness :
  exists c s e',
    demo_forward Demo.zeroing_trainer Demo.data
      ([[[F32.one; F32.zero]; [F32.zero; F32.one]]] ++ [[[F32.zero; F32.one]]])
      demo_store = Ok (c, s, e') /\
    init_weight (this e') = [F32.zero; F32.zero] /\
    exists (e1 : store Demo.rng) cfg tr va g0 sel,
      Demo.zeroing_trainer cfg tr va (init_weight (this e1)) g0
        = Ok (sel, init_weight (this e'), generator e').
Proof.
  assert (Hdev : Demo.data_device Demo.data = init_weight_device (this demo_store))
    by reflexivity.
  assert (H : demo_forward Demo.zeroing_trainer Demo.data
                ([[[F32.one; F32.zero]; [F32.zero; F32.one]]] ++ [[[F32.zero; F32.one]]])
                demo_store
              = Ok ([F32.zero; F32.one], [F32.one; F32.zero],
                    Build_store (set_init_weight Demo.self [F32.zero; F32.zero]) 4%nat))
    by (vm_compute; reflexivity).
  destruct (forward_init_weight_alias _ _ _ _ _ _ _ _ _ _ _ _ _ _ _ _ _ _ _ _ H)
    as (bests & e1 & cfg & tr & va & g0 & sel & w' & _ & Hcall & Hsame & _ & _).
  eexists _, _, _. split; [exact H|]. split; [reflexivity|].
  exists e1, cfg, tr, va, g0, sel. rewrite (Hsame Hdev). exact Hcall.
Defined.




(** C7 as the specification words it fails when the data lives on the
    device of [init_weight]: a learner fresh from the constructor, two
    clusters, and a trainer that works in the tensor it is given.  The first
    training run leaves the zero vector in the learner's [init_weight], the
    second run is seeded with it (a trainer that insists on the one-hot seed
    refuses it), and [forward] returns a learner that is no longer the one
    it was called on. *)
Lemma init_weight_is_fixed_seed_counterexample :
  __init__ cpu "" 2 4 2 Demo.half 32 = Ok Demo.self /\
  Demo.data_device Demo.data = init_weight_device Demo.self /\
  (forall cfg tr va g0,
     Demo.zeroing_trainer cfg tr va (one_hot 2) g0 =
     Demo.strict_zeroing_trainer cfg tr va (one_hot 2) g0) /\
  demo_forward Demo.zeroing_trainer Demo.data Demo.clusters demo_store
    = Ok ([F32.zero; F32.one], [F32.one; F32.zero],
          Build_store (set_init_weight Demo.self [F32.zero; F32.zero]) 4%nat) /\
  init_weight (set_init_weight Demo.self [F32.zero; F32.zero]) <> one_hot 2 /\
  demo_forward Demo.strict_zeroing_trainer Demo.data Demo.clusters demo_store
    = Raise (ValueError "unexpected initial weight").
Proof.
  split; [vm_compute; reflexivity|]. split; [reflexivity|].
  split; [intros cfg tr va g0; reflexivity|].
  split; [vm_compute; reflexivity|].
  split; [vm_compute; discriminate|]. vm_compute; reflexivity.
Qed.

(** C10 as the specification words it fails: for [num_iter = 2 ^ 150] and
    [dim_sample = 1] the quotient [1 / (num_iter * dim_sample)] vanishes when
    it is stored in a float32 tensor and the step size is 0, where
    [lr_coeff * sqrt (1 / (num_iter * dim_sample))] is not; and already for
    [num_iter = 3] the step size is not that real number itself, only the
    float32 number the roundings arrive at. *)
Lemma init_lr_beta_counterexample :
  (self ← __init__ cpu "" 1 (2 ^ 150) 1 Demo.half 32; Ok (lr_beta self))
    = Ok (S754_zero false) /\
  (F2R (S754_zero false) <> F2R Demo.half * sqrt (1 / IZR (2 ^ 150 * 1)))%R /\
  (self ← __init__ cpu "" 1 3 1 Demo.half 32; Ok (lr_beta self))
    = Ok (S754_finite false 9686330 (-25)) /\
  (F2R (S754_finite false 9686330 (-25)) <> F2R Demo.half * sqrt (1 / IZR (3 * 1)))%R.
Proof.
  assert (E53 : bpow (-53) = (/ 9007199254740992)%R) by exact (bpow_neg 53 ltac:(lia)).
  assert (E25 : bpow (-25) = (/ 33554432)%R) by exact (bpow_neg 25 ltac:(lia)).
  split; [by vm_compute|]. split; [|split; [by vm_compute|]].
  - apply Rlt_not_eq. cbn [F2R]. unfold Demo.half. cbn [F2R]. rewrite E53.
    apply Rmult_lt_0_compat; [lra|].
    apply sqrt_lt_R0, Rdiv_lt_0_compat; [lra|]. by apply IZR_lt.
  - unfold Demo.half. cbn [F2R]. rewrite E53, E25.
    change (IZR (3 * 1)) with 3%R. intros Heq.
    assert (Hs : (sqrt (1 / 3) * sqrt (1 / 3) = 1 / 3)%R) by (apply sqrt_sqrt; lra).
    set (s3 := sqrt (1 / 3)) in *.
    assert (Hsq : (1 * (9686330 * / 33554432) * (1 * (9686330 * / 33554432))
                   = 1 * (4503599627370496 * / 9007199254740992)
                     * (1 * (4503599627370496 * / 9007199254740992)) * (1 / 3))%R).
    { rewrite <- Hs, Heq. ring. }
    lra.
Qed.
